(** * Cash-flow forecasting engine of spenditure: [generateMockForecast]

    A shallow embedding of the forecast function of the dashboard, together
    with the part of the ECMAScript [Date] object it relies on.  The
    function exists in two versions: the consolidated one, with a list of
    deductions and with loans ([Forecast.generateMockForecast]), and the
    earlier one of [src/App.tsx], with one amount of deductions and without
    loans ([Forecast.AppTsx.generateMockForecast]); they share the horizon,
    the per-day map, the paydays and the daily walk.

    Modelling conventions.
    - A [Date] object is its time value: the number of milliseconds since
      the epoch, an integer ([Z]).  Only valid dates are modelled, and the
      range limit of time values (8.64e15 ms) is not.
    - The local time zone is a fixed offset [tz] (milliseconds east of UTC),
      a parameter of every operation that reads or writes local fields.
      Daylight-saving transitions are not modelled.
    - JavaScript numbers holding money are exact rationals ([Qc]).
    - [new Date()] reads a wall clock, given as the stream of its successive
      readings.
    - The key [toISOString().split('T')[0]] of the per-day map is the UTC
      calendar date of the time value; the map is keyed by the UTC day
      number, which is in one-to-one correspondence with that date. *)

From Stdlib Require Import ZArith QArith Qcanon Lia List Sorted.
From stdpp Require Import base numbers option list gmap strings pretty.

Local Open Scope Z_scope.

(** ** Calendar arithmetic of ECMAScript (ECMA-262, "Time Values and Time Range") *)

Module Calendar.

Definition msPerDay : Z := 86400000.

Definition Day (t : Z) : Z := t / msPerDay.

Definition TimeWithinDay (t : Z) : Z := t mod msPerDay.

Definition DaysInYear (y : Z) : Z :=
  if negb (y mod 4 =? 0) then 365
  else if negb (y mod 100 =? 0) then 366
  else if negb (y mod 400 =? 0) then 365
  else 366.

Definition DayFromYear (y : Z) : Z :=
  365 * (y - 1970) + (y - 1969) / 4 - (y - 1901) / 100 + (y - 1601) / 400.

(** The largest year whose first day is not after day [d]: an estimate from
    the mean length of a year, corrected by at most one. *)
Definition YearFromDay (d : Z) : Z :=
  let y0 := 1970 + (d * 400) / 146097 in
  if d <? DayFromYear y0 then y0 - 1
  else if DayFromYear (y0 + 1) <=? d then y0 + 1
  else y0.

Definition InLeapYear (d : Z) : Z :=
  if DaysInYear (YearFromDay d) =? 366 then 1 else 0.

Definition DayWithinYear (d : Z) : Z := d - DayFromYear (YearFromDay d).

(** Day within the year on which month [m] (0 = January) starts. *)
Definition monthStart (m leap : Z) : Z :=
  match m with
  | 0 => 0
  | 1 => 31
  | 2 => 59 + leap
  | 3 => 90 + leap
  | 4 => 120 + leap
  | 5 => 151 + leap
  | 6 => 181 + leap
  | 7 => 212 + leap
  | 8 => 243 + leap
  | 9 => 273 + leap
  | 10 => 304 + leap
  | _ => 334 + leap
  end.

Definition MonthFromDay (d : Z) : Z :=
  let w := DayWithinYear d in
  let leap := InLeapYear d in
  if w <? 31 then 0
  else if w <? 59 + leap then 1
  else if w <? 90 + leap then 2
  else if w <? 120 + leap then 3
  else if w <? 151 + leap then 4
  else if w <? 181 + leap then 5
  else if w <? 212 + leap then 6
  else if w <? 243 + leap then 7
  else if w <? 273 + leap then 8
  else if w <? 304 + leap then 9
  else if w <? 334 + leap then 10
  else 11.

Definition DateFromDay (d : Z) : Z :=
  DayWithinYear d - monthStart (MonthFromDay d) (InLeapYear d) + 1.

Definition WeekDay (d : Z) : Z := (d + 4) mod 7.

(** [MakeDay]: the day number of day [date] of month [month] of [year];
    months outside 0..11 carry into the year, days outside the month carry
    into the neighbouring months. *)
Definition MakeDay (year month date : Z) : Z :=
  let ym := year + month / 12 in
  let mn := month mod 12 in
  let leap := if DaysInYear ym =? 366 then 1 else 0 in
  DayFromYear ym + monthStart mn leap + date - 1.

Definition MakeDate (day time : Z) : Z := day * msPerDay + time.

Definition DaysInMonth (y m : Z) : Z :=
  match m with
  | 1 => if DaysInYear y =? 366 then 29 else 28
  | 3 | 5 | 8 | 10 => 30
  | _ => 31
  end.

End Calendar.

(** ** The [Date] object, in a time zone at a fixed offset from UTC *)

Module JSDate.
Import Calendar.

Section LocalTime.

Variable tz : Z.

Definition LocalTime (t : Z) : Z := t + tz.

Definition UTC (lt : Z) : Z := lt - tz.

Definition getFullYear (t : Z) : Z := YearFromDay (Day (LocalTime t)).

Definition getMonth (t : Z) : Z := MonthFromDay (Day (LocalTime t)).

Definition getDate (t : Z) : Z := DateFromDay (Day (LocalTime t)).

Definition getDay (t : Z) : Z := WeekDay (Day (LocalTime t)).

(** [d.setHours(0, 0, 0, 0)] *)
Definition setHours0 (t : Z) : Z :=
  UTC (MakeDate (Day (LocalTime t)) 0).

(** [d.setDate(dt)] *)
Definition setDate (t dt : Z) : Z :=
  let lt := LocalTime t in
  UTC (MakeDate (MakeDay (YearFromDay (Day lt)) (MonthFromDay (Day lt)) dt)
                (TimeWithinDay lt)).

(** [d.setMonth(m)] *)
Definition setMonth (t m : Z) : Z :=
  let lt := LocalTime t in
  UTC (MakeDate (MakeDay (YearFromDay (Day lt)) m (DateFromDay (Day lt)))
                (TimeWithinDay lt)).

(** [d.setFullYear(y)] *)
Definition setFullYear (t y : Z) : Z :=
  let lt := LocalTime t in
  UTC (MakeDate (MakeDay y (MonthFromDay (Day lt)) (DateFromDay (Day lt)))
                (TimeWithinDay lt)).

(** [new Date(y, m, d)]: local midnight; years 0..99 mean 1900..1999. *)
Definition newDateYMD (y m d : Z) : Z :=
  let yr := if (0 <=? y) && (y <=? 99) then 1900 + y else y in
  UTC (MakeDate (MakeDay yr m d) 0).

End LocalTime.

(** [d.toISOString().split('T')[0]], as the UTC day number. *)
Definition dateKey (t : Z) : Z := Day t.

End JSDate.

(** ** The forecast engine *)

Module Forecast.
Import Calendar JSDate.

Inductive IncomeStatus := Outstanding | Paid.

Record IncomeItem := {
  inc_id : string;
  client : string;
  inc_amount : Qc;
  dueDate : Z;
  status : IncomeStatus;
  inc_createdAt : Z
}.

Record ExpenseItem := {
  exp_id : string;
  vendor : string;
  exp_amount : Qc;
  category : string;
  date : Z;
  description : string;
  exp_createdAt : Z
}.

Record DeductionItem := {
  ded_name : string;
  ded_amount : Qc
}.

Inductive PaymentFrequency := LoanMonthly | Quarterly | Annually.

Record LoanItem := {
  loan_id : string;
  loanName : string;
  loan_amount : Qc;
  paymentFrequency : PaymentFrequency;
  nextPaymentDate : Z
}.

Inductive SalaryFrequency := Weekly | Fortnightly | Monthly.

Record UserProfile := {
  up_currentBalance : Qc;
  salaryIncome : Qc;
  salaryFrequency : SalaryFrequency;
  lastUpdated : Z;
  name : string;
  numberOfDaysOffPerMonth : option Qc;
  deductions : list DeductionItem;
  loans : list LoanItem
}.

(** One element of [forecastData]. *)
Record ForecastPoint := {
  pt_date : Z;
  balance : Qc
}.

Record Forecast := {
  forecastData : list ForecastPoint;
  potentialShortfallDate : option Z;
  projectedSalaryPayments : list IncomeItem
}.

(** [x < y] on JavaScript numbers. *)
Definition Qcltb (x y : Qc) : bool :=
  match (x ?= y)%Qc with
  | Lt => true
  | _ => false
  end.

Definition isOutstanding (s : IncomeStatus) : bool :=
  match s with
  | Outstanding => true
  | Paid => false
  end.

(** The per-day map [transactionsByDay], and the update
    [m.set(k, (m.get(k) || 0) + a)]. *)
Definition getOr0 (m : gmap Z Qc) (k : Z) : Qc := default 0%Qc (m !! k).

Definition addToDay (m : gmap Z Qc) (k : Z) (a : Qc) : gmap Z Qc :=
  <[k := (getOr0 m k + a)%Qc]> m.

(** *** Horizon *)

Definition incomeIsRelevant (today : Z) (inc : IncomeItem) : bool :=
  isOutstanding (status inc) && (today <=? dueDate inc).

Definition expenseIsRelevant (today : Z) (exp : ExpenseItem) : bool :=
  today <=? date exp.

Definition scanIncome (today maxRelevantDate : Z) (inc : IncomeItem) : Z :=
  if incomeIsRelevant today inc then
    if maxRelevantDate <? dueDate inc then dueDate inc else maxRelevantDate
  else maxRelevantDate.

Definition scanExpense (today maxRelevantDate : Z) (exp : ExpenseItem) : Z :=
  if expenseIsRelevant today exp then
    if maxRelevantDate <? date exp then date exp else maxRelevantDate
  else maxRelevantDate.

Definition maxRelevantDate (today : Z) (incomes : list IncomeItem)
    (expenses : list ExpenseItem) : Z :=
  foldl (scanExpense today) (foldl (scanIncome today) today incomes) expenses.

Definition oneDayInMillis : Z := 24 * 60 * 60 * 1000.

Definition daysToProject (today : Z) (incomes : list IncomeItem)
    (expenses : list ExpenseItem) : Z :=
  (maxRelevantDate today incomes expenses - today) / oneDayInMillis.

Definition effectiveProjectionDays (today : Z) (incomes : list IncomeItem)
    (expenses : list ExpenseItem) : Z :=
  Z.max (daysToProject today incomes expenses) 30.

(** *** Aggregation of the recorded incomes and expenses *)

Definition addIncome (today : Z) (m : gmap Z Qc) (inc : IncomeItem) : gmap Z Qc :=
  if incomeIsRelevant today inc
  then addToDay m (dateKey (dueDate inc)) (inc_amount inc)
  else m.

Definition addExpense (today : Z) (m : gmap Z Qc) (exp : ExpenseItem) : gmap Z Qc :=
  if expenseIsRelevant today exp
  then addToDay m (dateKey (date exp)) (- exp_amount exp)%Qc
  else m.

Definition recordedTransactions (today : Z) (incomes : list IncomeItem)
    (expenses : list ExpenseItem) : gmap Z Qc :=
  foldl (addExpense today) (foldl (addIncome today) ∅ incomes) expenses.

(** *** Text of the generated income items *)

Fixpoint padDigits (w : nat) (n : Z) : string :=
  match w with
  | O => ""
  | S w' => padDigits w' (n / 10) +:+ pretty (n mod 10)
  end.

Definition isoYear (y : Z) : string :=
  if (0 <=? y) && (y <=? 9999) then padDigits 4 y
  else if y <? 0 then "-" +:+ padDigits 6 (- y)
  else "+" +:+ padDigits 6 y.

(** The text of [d.toISOString().split('T')[0]]. *)
Definition isoDateString (t : Z) : string :=
  let d := Day t in
  isoYear (YearFromDay d) +:+ "-" +:+ padDigits 2 (MonthFromDay d + 1)
    +:+ "-" +:+ padDigits 2 (DateFromDay d).

Definition frequencyName (f : SalaryFrequency) : string :=
  match f with
  | Weekly => "weekly"
  | Fortnightly => "fortnightly"
  | Monthly => "monthly"
  end.

Section Engine.

Variable tz : Z.

(** *** Salary paydays *)

Definition totalMonthlyDeductions (ds : list DeductionItem) : Qc :=
  foldl (fun sum ded => (sum + ded_amount ded)%Qc) 0%Qc ds.

Definition numPayrollsPerMonth (f : SalaryFrequency) : Qc :=
  match f with
  | Monthly => Qc_of_Z 1
  | Fortnightly => Qc_of_Z 2
  | Weekly => Qc_of_Z 4
  end.

Definition salaryPerPayPeriod (p : UserProfile) : Qc :=
  ((salaryIncome p - totalMonthlyDeductions (deductions p))
     / numPayrollsPerMonth (salaryFrequency p))%Qc.

Definition getNextPayday (currentDate : Z) (frequency : SalaryFrequency) : option Z :=
  let nextPay := setHours0 tz currentDate in
  match frequency with
  | Monthly =>
      let nextPay := setDate tz nextPay 15 in
      let nextPay :=
        if nextPay <? currentDate
        then setDate tz (setMonth tz nextPay (getMonth tz nextPay + 1)) 15
        else nextPay in
      let nextPay :=
        if (getDate tz nextPay <? getDate tz currentDate)
           && (getMonth tz nextPay =? getMonth tz currentDate)
        then setMonth tz nextPay (getMonth tz nextPay + 1)
        else nextPay in
      let nextPay :=
        if negb (getMonth tz nextPay =?
                 Z.rem (getMonth tz currentDate
                        + (if nextPay <? currentDate then 1 else 0)) 12)
        then newDateYMD tz (getFullYear tz nextPay) (getMonth tz nextPay) 0
        else nextPay in
      Some (setHours0 tz nextPay)
  | Fortnightly =>
      let day := getDate tz currentDate in
      let nextPay :=
        if day <=? 1 then setDate tz nextPay 1
        else if day <=? 15 then setDate tz nextPay 15
        else setDate tz (setMonth tz nextPay (getMonth tz nextPay + 1)) 1 in
      let nextPay :=
        if nextPay <? currentDate
        then setDate tz nextPay (getDate tz nextPay + 14)
        else nextPay in
      Some (setHours0 tz nextPay)
  | Weekly =>
      let dayOfWeek := getDay tz nextPay in
      let daysUntilNextMonday :=
        if dayOfWeek =? 0 then 1
        else if dayOfWeek =? 1 then 7
        else 8 - dayOfWeek in
      let nextPay := setDate tz nextPay (getDate tz nextPay + daysUntilNextMonday) in
      let nextPay :=
        if nextPay <? currentDate
        then setDate tz nextPay (getDate tz nextPay + 7)
        else nextPay in
      Some (setHours0 tz nextPay)
  end.

(** The variables of the [while] loop; [reads] counts the readings of the
    wall clock taken so far. *)
Record SalaryState := {
  tempDate : Z;
  loopCount : nat;
  sal_txs : gmap Z Qc;
  sal_payments : list IncomeItem;
  reads : nat
}.

Definition salaryPayment (clock : nat -> Z) (frequency : SalaryFrequency)
    (salaryPerPayPeriod : Qc) (nextPay : Z) (st : SalaryState) : IncomeItem :=
  {| inc_id := "salary-" +:+ isoDateString nextPay +:+ "-" +:+ pretty (loopCount st);
     client := "Salary Payment (" +:+ frequencyName frequency +:+ ")";
     inc_amount := salaryPerPayPeriod;
     dueDate := nextPay;
     status := Outstanding;
     inc_createdAt := clock (reads st) |}.

(** One turn of the loop: [None] when the loop condition fails or the body
    breaks. *)
Definition salaryIteration (clock : nat -> Z) (frequency : SalaryFrequency)
    (salaryPerPayPeriod : Qc) (projectionLimitDate : Z) (st : SalaryState)
    : option SalaryState :=
  if (tempDate st <=? projectionLimitDate) && (loopCount st <? 100)%nat then
    match getNextPayday (tempDate st) frequency with
    | Some nextPay =>
        if nextPay <=? projectionLimitDate then
          Some {| tempDate := setDate tz nextPay (getDate tz nextPay + 1);
                  loopCount := S (loopCount st);
                  sal_txs := addToDay (sal_txs st) (dateKey nextPay)
                                      salaryPerPayPeriod;
                  sal_payments :=
                    sal_payments st
                      ++ [salaryPayment clock frequency salaryPerPayPeriod nextPay st];
                  reads := S (reads st) |}
        else None
    | None => None
    end
  else None.

Fixpoint salaryLoop (fuel : nat) (clock : nat -> Z) (frequency : SalaryFrequency)
    (salaryPerPayPeriod : Qc) (projectionLimitDate : Z) (st : SalaryState)
    : SalaryState :=
  match fuel with
  | O => st
  | S fuel' =>
      match salaryIteration clock frequency salaryPerPayPeriod
                            projectionLimitDate st with
      | Some st' =>
          salaryLoop fuel' clock frequency salaryPerPayPeriod
                     projectionLimitDate st'
      | None => st
      end
  end.

Definition salaryStart (today : Z) (m : gmap Z Qc) : SalaryState :=
  {| tempDate := today; loopCount := 0; sal_txs := m;
     sal_payments := []; reads := 1 |}.

Definition projectionLimitDate (chartEndDate : Z) : Z :=
  setDate tz chartEndDate (getDate tz chartEndDate + 1).

(** The paydays of a salary paid at [frequency], from [today] to the day
    after [chartEndDate]: the map and the list [projectedSalaryPayments]. *)
Definition salaryPaydays (clock : nat -> Z) (today chartEndDate : Z)
    (m : gmap Z Qc) (frequency : SalaryFrequency) (salaryPerPayPeriod : Qc)
    : gmap Z Qc * list IncomeItem :=
  let st := salaryLoop 100 clock frequency salaryPerPayPeriod
                       (projectionLimitDate chartEndDate) (salaryStart today m) in
  (sal_txs st, sal_payments st).

Definition projectSalary (clock : nat -> Z) (today chartEndDate : Z)
    (m : gmap Z Qc) (userProfile : option UserProfile)
    : gmap Z Qc * list IncomeItem :=
  match userProfile with
  | Some p =>
      if Qcltb 0 (salaryIncome p)
      then salaryPaydays clock today chartEndDate m
                         (salaryFrequency p) (salaryPerPayPeriod p)
      else (m, [])
  | None => (m, [])
  end.

(** *** Loan payments *)

Definition advanceLoan (f : PaymentFrequency) (nextLoanPayment : Z) : Z :=
  setHours0 tz
    match f with
    | LoanMonthly => setMonth tz nextLoanPayment (getMonth tz nextLoanPayment + 1)
    | Quarterly => setMonth tz nextLoanPayment (getMonth tz nextLoanPayment + 3)
    | Annually => setFullYear tz nextLoanPayment (getFullYear tz nextLoanPayment + 1)
    end.

Definition iterationDate (today i : Z) : Z :=
  setHours0 tz (setDate tz today (getDate tz today + i)).

(** The body of the [for] loop over the days of one loan, on the pair of
    [nextLoanPayment] and the map. *)
Definition loanIteration (today : Z) (loan : LoanItem)
    (st : Z * gmap Z Qc) (i : Z) : Z * gmap Z Qc :=
  let currentIterationDate := iterationDate today i in
  if currentIterationDate =? st.1 then
    (advanceLoan (paymentFrequency loan) st.1,
     addToDay st.2 (dateKey currentIterationDate) (- loan_amount loan)%Qc)
  else st.

Definition loanWalk (today days : Z) (loan : LoanItem) (m : gmap Z Qc)
    : Z * gmap Z Qc :=
  foldl (loanIteration today loan)
        (setHours0 tz (nextPaymentDate loan), m) (seqZ 0 (days + 1)).

Definition projectLoans (today days : Z) (m : gmap Z Qc)
    (userProfile : option UserProfile) : gmap Z Qc :=
  match userProfile with
  | Some p =>
      match loans p with
      | [] => m
      | _ :: _ => foldl (fun m loan => (loanWalk today days loan m).2) m (loans p)
      end
  | None => m
  end.

(** *** Daily walk *)

Record WalkState := {
  currentIterationDate : Z;
  currentProjectedBalance : Qc;
  walk_data : list ForecastPoint;
  walk_shortfall : option Z;
  hasShortfall : bool
}.

Definition walkIteration (m : gmap Z Qc) (st : WalkState) : WalkState :=
  let cur := currentIterationDate st in
  let dailyNetChange := getOr0 m (dateKey cur) in
  let bal := (currentProjectedBalance st + dailyNetChange)%Qc in
  let flag := Qcltb bal 0 && negb (hasShortfall st) in
  {| currentIterationDate := setDate tz cur (getDate tz cur + 1);
     currentProjectedBalance := bal;
     walk_data := walk_data st ++ [{| pt_date := cur; balance := bal |}];
     walk_shortfall := if flag then Some cur else walk_shortfall st;
     hasShortfall := if flag then true else hasShortfall st |}.

Definition walkStart (today : Z) (currentBalance : Qc) : WalkState :=
  {| currentIterationDate := setHours0 tz today;
     currentProjectedBalance := currentBalance;
     walk_data := [{| pt_date := today; balance := currentBalance |}];
     walk_shortfall := None;
     hasShortfall := false |}.

Definition dailyWalk (today days : Z) (m : gmap Z Qc) (currentBalance : Qc)
    : WalkState :=
  Nat.iter (Z.to_nat (days + 1)) (walkIteration m) (walkStart today currentBalance).

(** *** The engine *)

Definition todayOf (clock : nat -> Z) : Z := setHours0 tz (clock 0%nat).

Definition chartEndDate (today days : Z) : Z :=
  setDate tz today (getDate tz today + days).

(** The map [transactionsByDay] once incomes, expenses, salary and loans
    have been entered. *)
Definition transactionsByDay (clock : nat -> Z) (incomes : list IncomeItem)
    (expenses : list ExpenseItem) (userProfile : option UserProfile)
    : gmap Z Qc :=
  let today := todayOf clock in
  let days := effectiveProjectionDays today incomes expenses in
  let m := recordedTransactions today incomes expenses in
  let m := (projectSalary clock today (chartEndDate today days) m userProfile).1 in
  projectLoans today days m userProfile.

Definition generateMockForecast (clock : nat -> Z) (currentBalance : Qc)
    (incomes : list IncomeItem) (expenses : list ExpenseItem)
    (userProfile : option UserProfile) : Forecast :=
  let today := todayOf clock in
  let days := effectiveProjectionDays today incomes expenses in
  let m := recordedTransactions today incomes expenses in
  let sal := projectSalary clock today (chartEndDate today days) m userProfile in
  let m := projectLoans today days sal.1 userProfile in
  let w := dailyWalk today days m currentBalance in
  {| forecastData := walk_data w;
     potentialShortfallDate := walk_shortfall w;
     projectedSalaryPayments := sal.2 |}.

End Engine.

(** *** The earlier version of the engine, in [src/App.tsx]

    The same function before deductions became a list and loans were
    added: the profile carries one optional amount of deductions, and there
    is no loan projection. *)

Module AppTsx.

Record UserProfile := {
  up_currentBalance : Qc;
  salaryIncome : Qc;
  salaryFrequency : SalaryFrequency;
  lastUpdated : Z;
  name : string;
  numberOfDaysOffPerMonth : option Qc;
  deductionsAmount : option Qc
}.

Section Engine.

Variable tz : Z.

Definition salaryPerPayPeriod (p : UserProfile) : Qc :=
  ((salaryIncome p - default 0%Qc (deductionsAmount p))
     / numPayrollsPerMonth (salaryFrequency p))%Qc.

Definition projectSalary (clock : nat -> Z) (today chartEndDate : Z)
    (m : gmap Z Qc) (userProfile : option UserProfile)
    : gmap Z Qc * list IncomeItem :=
  match userProfile with
  | Some p =>
      if Qcltb 0 (salaryIncome p)
      then salaryPaydays tz clock today chartEndDate m
                         (salaryFrequency p) (salaryPerPayPeriod p)
      else (m, [])
  | None => (m, [])
  end.

Definition generateMockForecast (clock : nat -> Z) (currentBalance : Qc)
    (incomes : list IncomeItem) (expenses : list ExpenseItem)
    (userProfile : option UserProfile) : Forecast :=
  let today := todayOf tz clock in
  let days := effectiveProjectionDays today incomes expenses in
  let m := recordedTransactions today incomes expenses in
  let sal := projectSalary clock today (chartEndDate tz today days) m userProfile in
  let w := dailyWalk tz today days sal.1 currentBalance in
  {| forecastData := walk_data w;
     potentialShortfallDate := walk_shortfall w;
     projectedSalaryPayments := sal.2 |}.

End Engine.

End AppTsx.

End Forecast.

(** ** The pages that use the forecast

    The salary list of the Profile page (its own copy of the payday rule and
    of the payday loop, over 30 days), and, of the Dashboard, the salary
    events it lists and its expenses by category. *)

Module Pages.
Import Calendar JSDate Forecast.

(** The text of [d.toISOString()]. *)
Definition isoString (t : Z) : string :=
  let r := TimeWithinDay t in
  isoDateString t +:+ "T" +:+ padDigits 2 (r / 3600000)
    +:+ ":" +:+ padDigits 2 ((r / 60000) mod 60)
    +:+ ":" +:+ padDigits 2 ((r / 1000) mod 60)
    +:+ "." +:+ padDigits 3 (r mod 1000) +:+ "Z".

(** The names of the properties that a plain object inherits from
    [Object.prototype]: reading one of them on [{}] gives a function (an
    object for [__proto__]), not [undefined]. *)
Definition objectPrototypeNames : list string :=
  ["constructor"; "__defineGetter__"; "__defineSetter__"; "hasOwnProperty";
   "__lookupGetter__"; "__lookupSetter__"; "isPrototypeOf";
   "propertyIsEnumerable"; "toString"; "valueOf"; "__proto__";
   "toLocaleString"].

(** A value held by the object [expenseCategories]: a number, or the string
    that [+] makes of an inherited property, or of such a string, and an
    amount (its text, which depends on the engine, is not modelled). *)
Inductive CategoryTotal :=
  | Number (total : Qc)
  | Text.

(** The callback of the [reduce] of [expenseCategories]:
    [acc[expense.category] = (acc[expense.category] || 0) + expense.amount].
    The map holds the own properties of [acc].  Without own property, the
    read gives [undefined], and the sum starts at 0, unless the name is one
    of [Object.prototype]: the inherited value is truthy and [+] makes a
    string, which the assignment stores as an own property, except for
    [__proto__], whose setter ignores a string. *)
Definition addToCategory (acc : gmap string CategoryTotal)
    (expense : ExpenseItem) : gmap string CategoryTotal :=
  let k := category expense in
  match acc !! k with
  | Some (Number total) => <[k := Number (total + exp_amount expense)%Qc]> acc
  | Some Text => <[k := Text]> acc
  | None =>
      if bool_decide (k = "__proto__") then acc
      else if bool_decide (k ∈ objectPrototypeNames) then <[k := Text]> acc
      else <[k := Number (0 + exp_amount expense)%Qc]> acc
  end.

(** [expenses.reduce((acc, expense) => { ...; return acc; }, {})] *)
Definition expenseCategories (expenses : list ExpenseItem)
    : gmap string CategoryTotal :=
  foldl addToCategory ∅ expenses.

Section Page.

Variable tz : Z.

(** *** Profile page *)

Definition getNextPaydayProfile (currentDate : Z) (frequency : SalaryFrequency)
    : option Z :=
  let nextPay := setHours0 tz currentDate in
  match frequency with
  | Monthly =>
      let nextPay := setDate tz nextPay 15 in
      let nextPay :=
        if nextPay <? currentDate
        then setDate tz (setMonth tz nextPay (getMonth tz nextPay + 1)) 15
        else nextPay in
      let nextPay :=
        if negb (getMonth tz nextPay =?
                 Z.rem (getMonth tz currentDate
                        + (if nextPay <? currentDate then 1 else 0)) 12)
        then newDateYMD tz (getFullYear tz nextPay) (getMonth tz nextPay) 0
        else nextPay in
      Some (setHours0 tz nextPay)
  | Fortnightly =>
      let day := getDate tz currentDate in
      let nextPay :=
        if day <=? 1 then setDate tz nextPay 1
        else if day <=? 15 then setDate tz nextPay 15
        else setDate tz (setMonth tz nextPay (getMonth tz nextPay + 1)) 1 in
      let nextPay :=
        if nextPay <? currentDate
        then setDate tz nextPay (getDate tz nextPay + 14)
        else nextPay in
      Some (setHours0 tz nextPay)
  | Weekly =>
      let dayOfWeek := getDay tz nextPay in
      let daysUntilNextMonday :=
        if dayOfWeek =? 0 then 1
        else if dayOfWeek =? 1 then 7
        else 8 - dayOfWeek in
      let nextPay := setDate tz nextPay (getDate tz nextPay + daysUntilNextMonday) in
      let nextPay :=
        if nextPay <? currentDate
        then setDate tz nextPay (getDate tz nextPay + 7)
        else nextPay in
      Some (setHours0 tz nextPay)
  end.

(** The variables of the [while] loop of the Profile page. *)
Record ProfileLoopState := {
  tempPayDate : Z;
  pl_loopCount : nat;
  pl_payments : list IncomeItem;
  pl_reads : nat
}.

Definition profilePayment (clock : nat -> Z) (frequency : SalaryFrequency)
    (salaryPerPayPeriod : Qc) (nextPayDate : Z) (st : ProfileLoopState)
    : IncomeItem :=
  {| inc_id := "salary-profile-" +:+ isoString nextPayDate +:+ "-"
                 +:+ pretty (pl_loopCount st);
     client := "Salary Payment (" +:+ frequencyName frequency +:+ ")";
     inc_amount := salaryPerPayPeriod;
     dueDate := nextPayDate;
     status := Outstanding;
     inc_createdAt := clock (pl_reads st) |}.

Definition profileIteration (clock : nat -> Z) (frequency : SalaryFrequency)
    (salaryPerPayPeriod : Qc) (thirtyDaysFromNowForProfile : Z)
    (st : ProfileLoopState) : option ProfileLoopState :=
  if (tempPayDate st <=? thirtyDaysFromNowForProfile)
     && (pl_loopCount st <? 100)%nat then
    match getNextPaydayProfile (tempPayDate st) frequency with
    | Some nextPayDate =>
        if nextPayDate <=? thirtyDaysFromNowForProfile then
          Some {| tempPayDate := setDate tz nextPayDate (getDate tz nextPayDate + 1);
                  pl_loopCount := S (pl_loopCount st);
                  pl_payments :=
                    pl_payments st
                      ++ [profilePayment clock frequency salaryPerPayPeriod
                                         nextPayDate st];
                  pl_reads := S (pl_reads st) |}
        else None
    | None => None
    end
  else None.

Fixpoint profileLoop (fuel : nat) (clock : nat -> Z) (frequency : SalaryFrequency)
    (salaryPerPayPeriod : Qc) (thirtyDaysFromNowForProfile : Z)
    (st : ProfileLoopState) : ProfileLoopState :=
  match fuel with
  | O => st
  | S fuel' =>
      match profileIteration clock frequency salaryPerPayPeriod
                             thirtyDaysFromNowForProfile st with
      | Some st' =>
          profileLoop fuel' clock frequency salaryPerPayPeriod
                      thirtyDaysFromNowForProfile st'
      | None => st
      end
  end.

(** [projectedSalaryPaymentsForProfile]; the page has read the clock once
    (for [thirtyDaysFromNow]) before it takes [today]. *)
Definition projectedSalaryPaymentsForProfile (clock : nat -> Z)
    (userProfile : option UserProfile) : list IncomeItem :=
  match userProfile with
  | Some p =>
      if Qcltb 0 (salaryIncome p) then
        let today := setHours0 tz (clock 1%nat) in
        let thirtyDaysFromNowForProfile := setDate tz today (getDate tz today + 30) in
        pl_payments
          (profileLoop 100 clock (salaryFrequency p) (salaryPerPayPeriod p)
             thirtyDaysFromNowForProfile
             {| tempPayDate := today; pl_loopCount := 0; pl_payments := [];
                pl_reads := 2 |})
      else []
  | None => []
  end.

(** *** Dashboard *)

(** [thirtyDaysFromNow], from the reading [now] of the clock. *)
Definition thirtyDaysFromNow (now : Z) : Z := setDate tz now (getDate tz now + 30).

(** [projectedSalaryPayments.filter(sal => sal.dueDate.getTime() <=
     thirtyDaysFromNow.getTime())] *)
Definition upcomingSalaryPayments (now : Z)
    (projectedSalaryPayments : list IncomeItem) : list IncomeItem :=
  List.filter (fun sal => dueDate sal <=? thirtyDaysFromNow now)
              projectedSalaryPayments.

End Page.

End Pages.

Import Calendar JSDate Forecast Pages.

(** * Vocabulary of the properties *)

(** The [i]-th day after [t], in days of 24 hours. *)
Definition dayAfter (t : Z) (i : nat) : Z := t + Z.of_nat i * msPerDay.

Definition isNegative (p : ForecastPoint) : bool := Qcltb (balance p) 0.

(** The shape of the series for a horizon of [days] days from [today]: the
    seed point, then one point for each of the days [today], ...,
    [today + days]. *)
Definition seriesDates (today days : Z) : list Z :=
  today :: (dayAfter today <$> seq 0 (Z.to_nat (days + 1))).

(** What claim C1 asks of the dates of a series over [days] days: one date
    per index, each a day after the one before, from [today] on. *)
Definition contiguousFrom (today : Z) (ds : list Z) : Prop :=
  forall (i : nat) (d : Z), ds !! i = Some d -> d = dayAfter today i.

(** What the series do satisfy: the seed at [today], then contiguous days
    from [today] on. *)
Definition seedThenContiguous (today : Z) (ds : list Z) : Prop :=
  ds !! 0%nat = Some today /\ contiguousFrom today (tail ds) /\ NoDup (tail ds).

(** The points of the daily walk: the series without its seed. *)
Definition walkPoints (r : Forecast) : list ForecastPoint := tail (forecastData r).

(** The shortfall date is absent when no point of the walk has a negative
    balance, and otherwise is the date of the first point of the walk with
    a negative balance, whatever the balances after it. *)
Definition shortfallIsFirstNegative (r : Forecast) : Prop :=
  match potentialShortfallDate r with
  | None => forall p, p ∈ walkPoints r -> ~ (balance p < 0)%Qc
  | Some d =>
      exists (i : nat) (p : ForecastPoint),
        walkPoints r !! i = Some p /\ pt_date p = d /\ (balance p < 0)%Qc /\
        forall (j : nat) (q : ForecastPoint),
          (j < i)%nat -> walkPoints r !! j = Some q -> ~ (balance q < 0)%Qc
  end.

(** The balance of the daily walk once the first [n] days from [today] are
    entered: the opening balance to which the net amount that the map holds
    for each of these days has been added, one day after the other. *)
Fixpoint balanceAfterDays (m : gmap Z Qc) (today : Z) (currentBalance : Qc)
    (n : nat) : Qc :=
  match n with
  | O => currentBalance
  | S j => (balanceAfterDays m today currentBalance j
            + getOr0 m (dateKey (dayAfter today j)))%Qc
  end.

(** The running balance at the end of day [i] of the walk. *)
Definition runningBalance (m : gmap Z Qc) (today : Z) (currentBalance : Qc)
    (i : nat) : Qc :=
  balanceAfterDays m today currentBalance (S i).

(** What claim C2 asks of the shortfall date of a walk over the days 0 to
    [days] whose running balance is [running]: none when the running
    balance is negative on no day, and otherwise the date of the first day
    on which it is negative, whatever it is on the days after. *)
Definition shortfallOfRunningBalance (today days : Z) (running : nat -> Qc)
    (shortfall : option Z) : Prop :=
  match shortfall with
  | None => forall i : nat, Z.of_nat i <= days -> ~ (running i < 0)%Qc
  | Some d =>
      exists i : nat,
        Z.of_nat i <= days /\ d = dayAfter today i /\ (running i < 0)%Qc
        /\ forall j : nat, (j < i)%nat -> ~ (running j < 0)%Qc
  end.

(** A profile that is absent, or that has no salary and no loan. *)
Definition noSalaryNoLoans (userProfile : option UserProfile) : Prop :=
  match userProfile with
  | None => True
  | Some p => ~ (0 < salaryIncome p)%Qc /\ loans p = []
  end.

(** The dates that count for the horizon: due dates of the incomes that are
    outstanding and not before today, dates of the expenses not before
    today. *)
Definition relevantDates (today : Z) (incomes : list IncomeItem)
    (expenses : list ExpenseItem) : list Z :=
  (dueDate <$> List.filter (incomeIsRelevant today) incomes)
    ++ (date <$> List.filter (expenseIsRelevant today) expenses).

(** The latest of the dates [ds], and [today] when there is none. *)
Definition maxDate (today : Z) (ds : list Z) : Z := foldr Z.max today ds.

Definition daysBetween (t1 t2 : Z) : Z := (t2 - t1) / msPerDay.

(** The counter counts the payments made, each read of the clock makes one
    payment, and no payment is due after the limit date. *)
Definition salaryInvariant (limit : Z) (st0 st : SalaryState) : Prop :=
  (loopCount st0 <= loopCount st)%nat
  /\ (loopCount st <= Nat.max 100 (loopCount st0))%nat
  /\ length (sal_payments st)
     = (length (sal_payments st0) + (loopCount st - loopCount st0))%nat
  /\ reads st = (reads st0 + (loopCount st - loopCount st0))%nat
  /\ (Forall (fun i => dueDate i <= limit) (sal_payments st0) ->
      Forall (fun i => dueDate i <= limit) (sal_payments st)).

(** The profile [p] with [ls] for its loans. *)
Definition setLoans (p : UserProfile) (ls : list LoanItem) : UserProfile :=
  {| up_currentBalance := up_currentBalance p;
     salaryIncome := salaryIncome p;
     salaryFrequency := salaryFrequency p;
     lastUpdated := lastUpdated p;
     name := name p;
     numberOfDaysOffPerMonth := numberOfDaysOffPerMonth p;
     deductions := deductions p;
     loans := ls |}.

(** The variables of the loop over the days of a loan, before turn [i]. *)
Definition loanStateBefore (tz today : Z) (loan : LoanItem) (m : gmap Z Qc)
    (i : Z) : Z * gmap Z Qc :=
  foldl (loanIteration tz today loan)
        (setHours0 tz (nextPaymentDate loan), m) (seqZ 0 i).

(** The date with the local fields of [t], moved by one period of the
    frequency [f] in the calendar: the same day of the month, one month,
    three months or one year later, at midnight. *)
Definition laterByFrequency (tz : Z) (f : PaymentFrequency) (t : Z) : Z :=
  let y := getFullYear tz t in
  let mo := getMonth tz t in
  let d := getDate tz t in
  UTC tz (MakeDate match f with
                   | LoanMonthly => MakeDay y (mo + 1) d
                   | Quarterly => MakeDay y (mo + 3) d
                   | Annually => MakeDay (y + 1) mo d
                   end 0).

(** An income item without the reading of the clock it carries. *)
Definition forgetCreatedAt (i : IncomeItem) : IncomeItem :=
  {| inc_id := inc_id i; client := client i; inc_amount := inc_amount i;
     dueDate := dueDate i; status := status i; inc_createdAt := 0 |}.

(** Two states of the salary loop that differ at most in the readings of
    the clock recorded in the payments. *)
Definition sameButClock (st1 st2 : SalaryState) : Prop :=
  tempDate st1 = tempDate st2
  /\ loopCount st1 = loopCount st2
  /\ sal_txs st1 = sal_txs st2
  /\ reads st1 = reads st2
  /\ forgetCreatedAt <$> sal_payments st1 = forgetCreatedAt <$> sal_payments st2.

(** * Inputs of the examples *)

(** Inputs for the examples: 1 January 2024, 00:00 UTC, a clock that stands
    still, and a time zone without offset. *)
Definition jan1_2024 : Z := 1704067200000.

Definition clockAt (t : Z) : nat -> Z := fun _ => t.

(** A clock that advances by one millisecond at each reading. *)
Definition tickingFrom (t : Z) : nat -> Z := fun n => t + Z.of_nat n.

Definition deduction (amount : Z) : DeductionItem :=
  {| ded_name := "deduction"; ded_amount := Qc_of_Z amount |}.

Definition loanDue (f : PaymentFrequency) (amount : Z) (due : Z) : LoanItem :=
  {| loan_id := "loan-1"; loanName := "loan"; loan_amount := Qc_of_Z amount;
     paymentFrequency := f; nextPaymentDate := due |}.

Definition incomeDue (amount : Z) (due : Z) : IncomeItem :=
  {| inc_id := "income-1"; client := "client"; inc_amount := Qc_of_Z amount;
     dueDate := due; status := Outstanding; inc_createdAt := 0 |}.

Definition profileWith (salary : Z) (f : SalaryFrequency)
    (ds : list DeductionItem) (ls : list LoanItem) : UserProfile :=
  {| up_currentBalance := 0%Qc; salaryIncome := Qc_of_Z salary;
     salaryFrequency := f; lastUpdated := 0; name := "user";
     numberOfDaysOffPerMonth := None; deductions := ds; loans := ls |}.

(** * Further vocabulary *)

(** The number of the local calendar day of [t]. *)
Definition localDay (tz t : Z) : Z := Day (LocalTime tz t).

(** [t] is a local midnight. *)
Definition isMidnight (tz t : Z) : Prop := setHours0 tz t = t.

(** What the salary loop keeps: the cursor is a midnight not before today,
    the payments made are due on midnights from today on, before the
    cursor, each later than the one before. *)
Definition salaryOrdered (tz today : Z) (st : SalaryState) : Prop :=
  isMidnight tz (tempDate st) /\ today <= tempDate st
  /\ Forall (fun i => isMidnight tz (dueDate i)
                      /\ today <= dueDate i < tempDate st) (sal_payments st)
  /\ StronglySorted Z.lt (dueDate <$> sal_payments st).

(** The paydays found from a cursor on, up to a limit date, at most [n] of
    them: the dates that the payday loops walk through. *)
Fixpoint paydaysUpTo (tz : Z) (frequency : SalaryFrequency) (n : nat)
    (cursor limit : Z) : list Z :=
  match n with
  | O => []
  | S n' =>
      if cursor <=? limit then
        match getNextPayday tz cursor frequency with
        | Some p =>
            if p <=? limit
            then p :: paydaysUpTo tz frequency n' (p + 1 * msPerDay) limit
            else []
        | None => []
        end
      else []
  end.

(** What a salary event says, apart from its identifier and the time of its
    creation: due date, amount, label and status. *)
Definition salaryCore (i : IncomeItem) : Z * Qc * string * IncomeStatus :=
  (dueDate i, inc_amount i, client i, status i).

Definition salaryCoreOn (frequency : SalaryFrequency) (amount : Qc) (d : Z)
    : Z * Qc * string * IncomeStatus :=
  (d, amount, "Salary Payment (" +:+ frequencyName frequency +:+ ")", Outstanding).

(** The sum of [f] over a list. *)
Definition sumOf {A} (f : A -> Qc) (l : list A) : Qc :=
  foldr (fun x acc => (f x + acc)%Qc) 0%Qc l.

(** The amounts of the incomes that count for the forecast and whose due
    date has the key [k], and the same for the expenses. *)
Definition incomeOnDay (today k : Z) (incomes : list IncomeItem) : Qc :=
  sumOf inc_amount
        (List.filter (fun inc => incomeIsRelevant today inc
                                 && (dateKey (dueDate inc) =? k)) incomes).

Definition expenseOnDay (today k : Z) (expenses : list ExpenseItem) : Qc :=
  sumOf exp_amount
        (List.filter (fun exp => expenseIsRelevant today exp
                                 && (dateKey (date exp) =? k)) expenses).

(** The net amount that the map holds for the [n] days from the key [k]. *)
Definition bookedFrom (m : gmap Z Qc) (k : Z) (n : nat) : Qc :=
  sumOf (fun j : nat => getOr0 m (k + Z.of_nat j)) (seq 0 n).

(** An earlier-version profile that says what [p] says, for a [p] without
    loans: same salary and frequency, the deductions of [p] in one amount. *)
Definition asAppTsxProfile (p : UserProfile) : AppTsx.UserProfile :=
  {| AppTsx.up_currentBalance := up_currentBalance p;
     AppTsx.salaryIncome := salaryIncome p;
     AppTsx.salaryFrequency := salaryFrequency p;
     AppTsx.lastUpdated := lastUpdated p;
     AppTsx.name := name p;
     AppTsx.numberOfDaysOffPerMonth := numberOfDaysOffPerMonth p;
     AppTsx.deductionsAmount := Some (totalMonthlyDeductions (deductions p)) |}.

(** [l.reduce((sum, x) => sum + f(x), start)]: the amounts added to [start]
    one after the other, in the order of the list. *)
Definition addedInOrder {A} (f : A -> Qc) (start : Qc) (l : list A) : Qc :=
  foldl (fun sum x => (sum + f x)%Qc) start l.

(** The salary events due on the day of key [k], in the order of the list. *)
Definition salaryEventsOn (k : Z) (payments : list IncomeItem) : list IncomeItem :=
  List.filter (fun ev => bool_decide (dateKey (dueDate ev) = k)) payments.

(** The number of months by which a loan payment is moved. *)
Definition monthsOf (f : PaymentFrequency) : Z :=
  match f with
  | LoanMonthly => 1
  | Quarterly => 3
  | Annually => 12
  end.

(** When the forecast with the larger opening balance has a shortfall date,
    the other has one, not later. *)
Definition shortfallNotLater (r r' : Forecast) : Prop :=
  match potentialShortfallDate r' with
  | Some d' => exists d, potentialShortfallDate r = Some d /\ d <= d'
  | None => True
  end.

Definition expenseDated (amount : Z) (day : Z) : ExpenseItem :=
  {| exp_id := "expense-1"; vendor := "vendor"; exp_amount := Qc_of_Z amount;
     category := "Other"; date := day; description := "note";
     exp_createdAt := 0 |}.

(** * Properties of the calendar and of [Date] *)

Lemma msPerDay_pos : 0 < msPerDay.
Proof. reflexivity. Qed.

Lemma MonthFromDay_range (d : Z) : 0 <= MonthFromDay d <= 11.
Proof.
  unfold MonthFromDay.
  repeat match goal with |- context [if ?b then _ else _] => destruct b end; lia.
Qed.

(** Reading year, month and date of a day and writing them back, with the
    date moved by [k], gives the day [k] days later. *)
Lemma MakeDay_of_day (d k : Z) :
  MakeDay (YearFromDay d) (MonthFromDay d) (DateFromDay d + k) = d + k.
Proof.
  pose proof (MonthFromDay_range d) as Hm.
  unfold MakeDay.
  rewrite (Z.div_small (MonthFromDay d) 12), (Z.mod_small (MonthFromDay d) 12) by lia.
  rewrite Z.add_0_r.
  unfold DateFromDay, DayWithinYear, InLeapYear. lia.
Qed.

Lemma div_mod_msPerDay (x : Z) :
  x = (x / msPerDay) * msPerDay + x mod msPerDay /\ 0 <= x mod msPerDay < msPerDay.
Proof.
  split.
  - rewrite Z.mul_comm. apply Z.div_mod. discriminate.
  - apply Z.mod_pos_bound. reflexivity.
Qed.

Lemma Day_add_days (x k : Z) : Day (x + k * msPerDay) = Day x + k.
Proof. unfold Day. apply Z.div_add. discriminate. Qed.

Lemma TimeWithinDay_add_days (x k : Z) :
  TimeWithinDay (x + k * msPerDay) = TimeWithinDay x.
Proof. unfold TimeWithinDay. apply Z.mod_add. discriminate. Qed.

Section DateFacts.

Variable tz : Z.

(** [d.setDate(d.getDate() + k)] moves a date by [k] days of 24 hours. *)
Lemma setDate_getDate (t k : Z) :
  setDate tz t (getDate tz t + k) = t + k * msPerDay.
Proof.
  unfold setDate, getDate. rewrite MakeDay_of_day.
  unfold UTC, MakeDate, LocalTime, Day, TimeWithinDay.
  pose proof (div_mod_msPerDay (t + tz)) as [H _]. lia.
Qed.

Lemma setHours0_eq (t : Z) : setHours0 tz t = t - TimeWithinDay (t + tz).
Proof.
  unfold setHours0, UTC, MakeDate, LocalTime, Day, TimeWithinDay.
  pose proof (div_mod_msPerDay (t + tz)) as [H _]. lia.
Qed.

Lemma setHours0_le (t : Z) : setHours0 tz t <= t < setHours0 tz t + msPerDay.
Proof.
  rewrite setHours0_eq. unfold TimeWithinDay.
  pose proof (div_mod_msPerDay (t + tz)) as [_ H]. lia.
Qed.

Lemma setHours0_add_days (t k : Z) :
  setHours0 tz (t + k * msPerDay) = setHours0 tz t + k * msPerDay.
Proof.
  rewrite !setHours0_eq.
  replace (t + k * msPerDay + tz) with (t + tz + k * msPerDay) by lia.
  rewrite TimeWithinDay_add_days. lia.
Qed.

Lemma TimeWithinDay_setHours0 (t : Z) : TimeWithinDay (setHours0 tz t + tz) = 0.
Proof.
  unfold setHours0, UTC, MakeDate, LocalTime, TimeWithinDay.
  replace (Day (t + tz) * msPerDay + 0 - tz + tz) with (0 + Day (t + tz) * msPerDay) by lia.
  rewrite Z.mod_add by discriminate. reflexivity.
Qed.

Lemma setHours0_idem (t : Z) : setHours0 tz (setHours0 tz t) = setHours0 tz t.
Proof. rewrite (setHours0_eq (setHours0 tz t)), TimeWithinDay_setHours0. lia. Qed.

(** The date of turn [i] of the day loops is [i] days after today's midnight. *)
Lemma iterationDate_eq (today i : Z) :
  iterationDate tz today i = setHours0 tz today + i * msPerDay.
Proof. unfold iterationDate. rewrite setDate_getDate. apply setHours0_add_days. Qed.

Lemma dateKey_add_days (t k : Z) : dateKey (t + k * msPerDay) = dateKey t + k.
Proof. apply Day_add_days. Qed.

End DateFacts.

(** * Properties of the daily walk *)

Lemma Qcltb_lt (x y : Qc) : Qcltb x y = true <-> (x < y)%Qc.
Proof.
  unfold Qcltb. rewrite Qclt_alt.
  destruct (x ?= y)%Qc; split; congruence.
Qed.

Lemma find_snoc {A} (f : A -> bool) (l : list A) (x : A) :
  List.find f (l ++ [x]) =
  match List.find f l with
  | Some y => Some y
  | None => if f x then Some x else None
  end.
Proof.
  induction l as [|a l IH]; simpl.
  - reflexivity.
  - destruct (f a); [reflexivity | exact IH].
Qed.

(** What [List.find] returns is the first element, in list order, on which
    the test holds. *)
Lemma find_first {A} (f : A -> bool) (l : list A) (x : A) :
  List.find f l = Some x ->
  exists i : nat, l !! i = Some x /\ f x = true /\
    forall (j : nat) (y : A), (j < i)%nat -> l !! j = Some y -> f y = false.
Proof.
  induction l as [|a l IH]; simpl; [discriminate|].
  destruct (f a) eqn:Ha.
  - intros [= ->]. exists 0%nat. repeat split; [assumption | lia].
  - intros H. destruct (IH H) as (i & Hi & Hx & Hlt).
    exists (S i). repeat split; [assumption.. |].
    intros [|j] y Hj Hy; simpl in Hy.
    + congruence.
    + apply (Hlt j); [lia | assumption].
Qed.

Lemma find_none_iff {A} (f : A -> bool) (l : list A) :
  List.find f l = None <-> forall x, x ∈ l -> f x = false.
Proof.
  induction l as [|a l IH]; simpl.
  - split; [intros _ x Hx; inversion Hx | reflexivity].
  - destruct (f a) eqn:Ha.
    + split; [discriminate|]. intros H. rewrite (H a) in Ha; [discriminate | left].
    + rewrite IH. split.
      * intros H x Hx. inversion Hx; subst; auto.
      * intros H x Hx. apply H. now right.
Qed.

Section WalkFacts.

Variable tz : Z.
Variable m : gmap Z Qc.
Variable today : Z.
Variable currentBalance : Qc.

Let walk (k : nat) : WalkState :=
  Nat.iter k (walkIteration tz m) (walkStart tz today currentBalance).

Lemma walk_S (k : nat) : walk (S k) = walkIteration tz m (walk k).
Proof. reflexivity. Qed.

Lemma walk_date (k : nat) :
  currentIterationDate (walk k) = dayAfter (setHours0 tz today) k.
Proof.
  induction k as [|k IH]; unfold dayAfter in *.
  - cbn. lia.
  - rewrite walk_S. unfold walkIteration. cbn [currentIterationDate].
    rewrite setDate_getDate, IH. lia.
Qed.

Lemma walk_dates (k : nat) :
  pt_date <$> walk_data (walk k)
  = today :: (dayAfter (setHours0 tz today) <$> seq 0 k).
Proof.
  induction k as [|k IH].
  - reflexivity.
  - rewrite seq_S, fmap_app, walk_S. unfold walkIteration. cbn [walk_data].
    rewrite fmap_app, IH, walk_date. reflexivity.
Qed.

Lemma walk_length (k : nat) : length (walk_data (walk k)) = S k.
Proof.
  rewrite <- (length_fmap pt_date), walk_dates. cbn [length].
  now rewrite length_fmap, length_seq.
Qed.

Lemma walk_head (k : nat) :
  walk_data (walk k) !! 0%nat
  = Some {| pt_date := today; balance := currentBalance |}.
Proof.
  induction k as [|k IH]; [reflexivity|].
  rewrite walk_S. unfold walkIteration. cbn [walk_data].
  rewrite lookup_app_l; [exact IH | rewrite walk_length; lia].
Qed.

(** The running balance is the balance of the last point recorded. *)
Lemma walk_last (k : nat) :
  walk_data (walk k) !! k
  = Some {| pt_date := match k with
                       | O => today
                       | S k' => dayAfter (setHours0 tz today) k'
                       end;
            balance := currentProjectedBalance (walk k) |}.
Proof.
  destruct k as [|k]; [reflexivity|].
  rewrite walk_S. unfold walkIteration.
  cbn [walk_data currentProjectedBalance].
  rewrite lookup_app_r by (rewrite walk_length; lia).
  rewrite walk_length, Nat.sub_diag, walk_date. reflexivity.
Qed.

(** The flag and the recorded date always describe the first point of the
    walk, after the seed, whose balance is negative. *)
Lemma walk_shortfall_find (k : nat) :
  walk_shortfall (walk k)
  = pt_date <$> List.find isNegative (tail (walk_data (walk k)))
  /\ hasShortfall (walk k)
     = match walk_shortfall (walk k) with Some _ => true | None => false end.
Proof.
  induction k as [|k [IH1 IH2]]; [split; reflexivity|].
  rewrite walk_S.
  pose proof (walk_length k) as Hlen.
  unfold walkIteration. cbn [walk_data walk_shortfall hasShortfall].
  destruct (walk_data (walk k)) as [|seed rest] eqn:Hd; [discriminate|].
  cbn [tail app] in *. rewrite find_snoc.
  rewrite IH2, IH1.
  destruct (List.find isNegative rest) as [p|]; cbn.
  - rewrite andb_false_r. split; reflexivity.
  - rewrite andb_true_r. unfold isNegative. cbn [balance].
    destruct (Qcltb _ _); split; reflexivity.
Qed.

(** The balance recorded at each point of the walk is the balance of the
    point before it plus the net amount of the map on its date. *)
Lemma walk_balance (k i : nat) (p q : ForecastPoint) :
  walk_data (walk k) !! i = Some p ->
  walk_data (walk k) !! S i = Some q ->
  balance q = (balance p + getOr0 m (dateKey (pt_date q)))%Qc.
Proof.
  revert i p q. induction k as [|k IH]; intros i p q Hp Hq.
  - destruct i; discriminate.
  - rewrite walk_S in Hp, Hq.
    pose proof (walk_length k) as Hlen.
    unfold walkIteration in Hp, Hq. cbn [walk_data] in Hp, Hq.
    destruct (decide (S i < S k)%nat) as [Hlt|Hge].
    + rewrite lookup_app_l in Hp by lia. rewrite lookup_app_l in Hq by lia.
      eauto.
    + assert (i = k) as ->.
      { apply lookup_lt_Some in Hq. rewrite length_app in Hq. simpl in Hq. lia. }
      rewrite lookup_app_l in Hp by lia.
      rewrite lookup_app_r in Hq by lia.
      rewrite Hlen, Nat.sub_diag in Hq. cbn in Hq. injection Hq as <-.
      rewrite walk_last in Hp. injection Hp as <-. reflexivity.
Qed.

End WalkFacts.

(** * The projection series *)

Lemma todayOf_midnight (tz : Z) (clock : nat -> Z) :
  setHours0 tz (todayOf tz clock) = todayOf tz clock.
Proof. apply setHours0_idem. Qed.

Lemma effectiveProjectionDays_ge (today : Z) (incomes : list IncomeItem)
    (expenses : list ExpenseItem) :
  30 <= effectiveProjectionDays today incomes expenses.
Proof. apply Z.le_max_r. Qed.

Lemma dayAfter_inj (t : Z) : Inj (=) (=) (dayAfter t).
Proof. intros i j H. unfold dayAfter, msPerDay in H. lia. Qed.

Lemma seriesDates_length (today days : Z) :
  0 <= days -> length (seriesDates today days) = Z.to_nat (days + 2).
Proof.
  intros H. unfold seriesDates. cbn [length].
  rewrite length_fmap, length_seq. lia.
Qed.

Lemma seriesDates_tail_NoDup (today days : Z) : NoDup (tail (seriesDates today days)).
Proof.
  unfold seriesDates. cbn [tail].
  apply (NoDup_fmap_2 _ (Inj0 := dayAfter_inj today)), NoDup_seq.
Qed.

Lemma dailyWalk_dates (tz : Z) (clock : nat -> Z) (days : Z) (m : gmap Z Qc)
    (currentBalance : Qc) :
  pt_date <$> walk_data (dailyWalk tz (todayOf tz clock) days m currentBalance)
  = seriesDates (todayOf tz clock) days.
Proof.
  unfold dailyWalk, seriesDates. rewrite walk_dates, todayOf_midnight. reflexivity.
Qed.

(** The first two points of a series carry the same date. *)
Lemma seriesDates_first_two (today days : Z) :
  0 <= days ->
  seriesDates today days !! 0%nat = Some today /\
  seriesDates today days !! 1%nat = Some today.
Proof.
  intros H. unfold seriesDates.
  destruct (Z.to_nat (days + 1)) as [|n] eqn:Hn; [lia|].
  cbn. unfold dayAfter. split; [reflexivity | f_equal; lia].
Qed.

Lemma seriesDates_seedThenContiguous (today days : Z) :
  seedThenContiguous today (seriesDates today days).
Proof.
  split; [reflexivity|]. split; [|apply seriesDates_tail_NoDup].
  unfold seriesDates. cbn [tail]. intros i d Hd.
  rewrite list_lookup_fmap in Hd.
  destruct (seq 0 (Z.to_nat (days + 1)) !! i) as [j|] eqn:Hj; [|discriminate].
  apply lookup_seq in Hj as [-> _]. cbn in Hd. congruence.
Qed.

(** C1 (amended): for every input, in both versions of the engine, the
    series has [effectiveProjectionDays + 2] points; its first point is the
    seed dated today, and the points after the seed are dated today,
    today + 1 day, ..., today + [effectiveProjectionDays] days: one point
    per day, in order, without gap or repetition.  The seed and the point
    after it both carry today's date. *)
Theorem C1_series_length_and_dates (tz : Z) (clock : nat -> Z)
    (currentBalance : Qc) (incomes : list IncomeItem)
    (expenses : list ExpenseItem) (userProfile : option UserProfile)
    (userProfile' : option AppTsx.UserProfile) :
  let today := todayOf tz clock in
  let days := effectiveProjectionDays today incomes expenses in
  let shape (r : Forecast) :=
    length (forecastData r) = Z.to_nat (days + 2)
    /\ pt_date <$> forecastData r = seriesDates today days
    /\ seedThenContiguous today (pt_date <$> forecastData r) in
  shape (generateMockForecast tz clock currentBalance incomes expenses userProfile)
  /\ shape (AppTsx.generateMockForecast tz clock currentBalance incomes expenses
                                        userProfile').
Proof.
  intros today days shape.
  pose proof (effectiveProjectionDays_ge today incomes expenses) as Hge.
  assert (forall m, shape {| forecastData := walk_data (dailyWalk tz today days m currentBalance);
                              potentialShortfallDate := walk_shortfall (dailyWalk tz today days m currentBalance);
                              projectedSalaryPayments := [] |}) as Hshape.
  { intros m. unfold shape. cbn [forecastData].
    rewrite <- (length_fmap pt_date). unfold today. rewrite dailyWalk_dates.
    split; [apply seriesDates_length; fold today; lia|].
    split; [reflexivity | apply seriesDates_seedThenContiguous]. }
  split.
  - apply (Hshape (projectLoans tz today days
      (projectSalary tz clock today (chartEndDate tz today days)
         (recordedTransactions today incomes expenses) userProfile).1 userProfile)).
  - apply (Hshape (AppTsx.projectSalary tz clock today (chartEndDate tz today days)
         (recordedTransactions today incomes expenses) userProfile').1).
Qed.

(** C1 as stated fails: with no records and no profile, the two first
    points of the series are both dated today, so that the dates of the
    series are not without duplicates. *)
Lemma C1_counterexample_duplicate_date :
  let r := generateMockForecast 0 (fun _ => 0) 0%Qc [] [] None in
  ~ NoDup (pt_date <$> forecastData r)
  /\ ~ contiguousFrom (todayOf 0 (fun _ => 0)) (pt_date <$> forecastData r).
Proof.
  cbv zeta. unfold generateMockForecast. cbn [forecastData].
  rewrite dailyWalk_dates.
  set (days := effectiveProjectionDays _ _ _).
  destruct (seriesDates_first_two (todayOf 0 (fun _ => 0)) days) as [H0 H1].
  { apply Z.le_trans with 30; [lia | apply effectiveProjectionDays_ge]. }
  split.
  - intros Hnd. pose proof (NoDup_lookup _ _ _ _ Hnd H0 H1). discriminate.
  - intros Hc. specialize (Hc 1%nat _ H1). vm_compute in Hc. discriminate.
Qed.

(** C7: for every input, in both versions of the engine, the first point of
    the series is dated today (at midnight) and carries [currentBalance]
    itself. *)
Theorem C7_first_point_is_seed (tz : Z) (clock : nat -> Z)
    (currentBalance : Qc) (incomes : list IncomeItem)
    (expenses : list ExpenseItem) (userProfile : option UserProfile)
    (userProfile' : option AppTsx.UserProfile) :
  let seed := {| pt_date := todayOf tz clock; balance := currentBalance |} in
  forecastData (generateMockForecast tz clock currentBalance incomes expenses
                                     userProfile) !! 0%nat = Some seed
  /\ forecastData (AppTsx.generateMockForecast tz clock currentBalance incomes
                                               expenses userProfile') !! 0%nat
     = Some seed
  /\ setHours0 tz (pt_date seed) = pt_date seed.
Proof.
  cbv zeta. repeat split.
  - apply walk_head.
  - apply walk_head.
  - apply todayOf_midnight.
Qed.

(** * The shortfall date *)

Lemma isNegative_false (p : ForecastPoint) :
  isNegative p = false -> ~ (balance p < 0)%Qc.
Proof.
  unfold isNegative. intros H Hlt. apply Qcltb_lt in Hlt. congruence.
Qed.

Lemma dailyWalk_shortfall (tz today days : Z) (m : gmap Z Qc)
    (currentBalance : Qc) (payments : list IncomeItem) :
  let w := dailyWalk tz today days m currentBalance in
  let r := {| forecastData := walk_data w;
              potentialShortfallDate := walk_shortfall w;
              projectedSalaryPayments := payments |} in
  potentialShortfallDate r = pt_date <$> List.find isNegative (walkPoints r)
  /\ shortfallIsFirstNegative r.
Proof.
  intros w r.
  destruct (walk_shortfall_find tz m today currentBalance (Z.to_nat (days + 1)))
    as [Hfind _].
  fold (dailyWalk tz today days m currentBalance) in Hfind. fold w in Hfind.
  unfold shortfallIsFirstNegative, walkPoints. subst r.
  cbn [potentialShortfallDate forecastData].
  split; [exact Hfind|].
  rewrite Hfind.
  destruct (List.find isNegative (tail (walk_data w))) as [p|] eqn:Hp; cbn.
  - apply find_first in Hp as (i & Hi & Hneg & Hbefore).
    exists i, p. repeat split; [assumption.. | |].
    + now apply Qcltb_lt.
    + intros j q Hj Hq. apply isNegative_false. eauto.
  - intros p Hin. apply isNegative_false.
    now apply (proj1 (find_none_iff isNegative _) Hp).
Qed.

(** The running balance along the walk, and the shortfall date against it. *)

Section RunningBalance.

Variable tz : Z.
Variable m : gmap Z Qc.
Variable today : Z.
Variable currentBalance : Qc.

Let walk (k : nat) : WalkState :=
  Nat.iter k (walkIteration tz m) (walkStart tz today currentBalance).

Let running (i : nat) : Qc :=
  runningBalance m (setHours0 tz today) currentBalance i.

(** After [k] turns the balance of the walk is the opening balance with the
    amounts of the first [k] days added. *)
Lemma walk_running_balance (k : nat) :
  currentProjectedBalance (walk k)
  = balanceAfterDays m (setHours0 tz today) currentBalance k.
Proof.
  induction k as [|k IH]; [reflexivity|].
  unfold walk. rewrite Nat.iter_succ. fold (walk k).
  unfold walkIteration. cbv zeta. cbn [currentProjectedBalance balanceAfterDays].
  rewrite IH. unfold walk. rewrite walk_date. reflexivity.
Qed.

(** After [k] turns the recorded date is that of the first of the days 0 to
    [k - 1] whose running balance is negative, if there is one. *)
Lemma walk_shortfall_running (k : nat) :
  match walk_shortfall (walk k) with
  | None => forall i : nat, (i < k)%nat -> ~ (running i < 0)%Qc
  | Some d =>
      exists i : nat,
        (i < k)%nat /\ d = dayAfter (setHours0 tz today) i /\ (running i < 0)%Qc
        /\ forall j : nat, (j < i)%nat -> ~ (running j < 0)%Qc
  end.
Proof.
  induction k as [|k IH].
  - cbn. intros i Hi. lia.
  - pose proof (walk_running_balance (S k)) as Hbal.
    destruct (walk_shortfall_find tz m today currentBalance k) as [_ Hflag].
    pose proof (walk_date tz m today currentBalance k) as Hdate.
    cbv beta in Hflag, Hdate. fold (walk k) in Hflag, Hdate.
    revert Hbal. unfold walk at 1 2. rewrite Nat.iter_succ. fold (walk k).
    unfold walkIteration. cbv zeta.
    cbn [currentProjectedBalance walk_shortfall].
    fold (runningBalance m (setHours0 tz today) currentBalance k).
    fold (running k). intros ->. rewrite Hflag, Hdate.
    destruct (walk_shortfall (walk k)) as [d|].
    + rewrite andb_false_r.
      destruct IH as (i & Hi & Hd & Hneg & Hfirst).
      exists i. repeat split; [lia | assumption..].
    + rewrite andb_true_r. destruct (Qcltb (running k) 0) eqn:E.
      * exists k. repeat split; [lia | now apply Qcltb_lt |].
        intros j Hj. now apply IH.
      * intros i Hi. destruct (decide (i = k)) as [->|Hne].
        -- intros Hlt. apply Qcltb_lt in Hlt. congruence.
        -- apply IH. lia.
Qed.

End RunningBalance.

Lemma dailyWalk_shortfall_running (tz today days : Z) (m : gmap Z Qc)
    (currentBalance : Qc) :
  setHours0 tz today = today -> 0 <= days ->
  shortfallOfRunningBalance today days (runningBalance m today currentBalance)
    (walk_shortfall (dailyWalk tz today days m currentBalance)).
Proof.
  intros Hmid Hdays. unfold dailyWalk, shortfallOfRunningBalance.
  pose proof (walk_shortfall_running tz m today currentBalance
                (Z.to_nat (days + 1))) as H.
  cbv beta in H. rewrite Hmid in H.
  destruct (walk_shortfall _) as [d|].
  - destruct H as (i & Hi & Hd & Hneg & Hfirst).
    exists i. repeat split; [lia | assumption..].
  - intros i Hi. apply H. lia.
Qed.

(** C2: for every input, in both versions of the engine, the shortfall date
    is null when the running balance (the opening balance to which the
    amounts of the per-day map are added day after day, from today to the
    end of the horizon) is negative on no day of the walk, and otherwise is
    the date of the first day on which it is negative; days after it,
    recovered or not, do not change it.  The same holds of the balances that
    the series shows. *)
Theorem C2_shortfall_is_first_negative_day (tz : Z) (clock : nat -> Z)
    (currentBalance : Qc) (incomes : list IncomeItem)
    (expenses : list ExpenseItem) (userProfile : option UserProfile)
    (userProfile' : option AppTsx.UserProfile) :
  let today := todayOf tz clock in
  let days := effectiveProjectionDays today incomes expenses in
  let r := generateMockForecast tz clock currentBalance incomes expenses
                                userProfile in
  let r' := AppTsx.generateMockForecast tz clock currentBalance incomes expenses
                                        userProfile' in
  let m := transactionsByDay tz clock incomes expenses userProfile in
  let m' := (AppTsx.projectSalary tz clock today (chartEndDate tz today days)
               (recordedTransactions today incomes expenses) userProfile').1 in
  (shortfallOfRunningBalance today days (runningBalance m today currentBalance)
                             (potentialShortfallDate r)
   /\ potentialShortfallDate r = pt_date <$> List.find isNegative (walkPoints r)
   /\ shortfallIsFirstNegative r)
  /\ (shortfallOfRunningBalance today days (runningBalance m' today currentBalance)
                                (potentialShortfallDate r')
      /\ potentialShortfallDate r' = pt_date <$> List.find isNegative (walkPoints r')
      /\ shortfallIsFirstNegative r').
Proof.
  intros today days r r' m m'.
  assert (0 <= days) as Hdays
    by (pose proof (effectiveProjectionDays_ge today incomes expenses); unfold days; lia).
  pose proof (todayOf_midnight tz clock) as Hmid. fold today in Hmid.
  split; (split; [|apply dailyWalk_shortfall]).
  - exact (dailyWalk_shortfall_running tz today days m currentBalance Hmid Hdays).
  - exact (dailyWalk_shortfall_running tz today days m' currentBalance Hmid Hdays).
Qed.

(** The balances along the series: each point of the walk adds to the
    balance of the point before it the net amount that the map holds for
    its date. *)
Lemma dailyWalk_running_balance (tz today days : Z) (m : gmap Z Qc)
    (currentBalance : Qc) (i : nat) (p q : ForecastPoint) :
  let w := dailyWalk tz today days m currentBalance in
  walk_data w !! i = Some p -> walk_data w !! S i = Some q ->
  balance q = (balance p + getOr0 m (dateKey (pt_date q)))%Qc.
Proof. apply walk_balance. Qed.

(** With nothing in the map on the days of the walk, the series is flat. *)
Lemma dailyWalk_flat (tz today days : Z) (m : gmap Z Qc) (currentBalance : Qc) :
  (forall k, getOr0 m k = 0%Qc) ->
  forall p, p ∈ walk_data (dailyWalk tz today days m currentBalance) ->
            balance p = currentBalance.
Proof.
  intros Hm. unfold dailyWalk.
  induction (Z.to_nat (days + 1)) as [|k IH].
  - intros p Hp. cbn in Hp. apply list_elem_of_singleton in Hp. now subst.
  - cbn [Nat.iter]. unfold walkIteration at 1. cbn [walk_data].
    intros p Hp. apply elem_of_app in Hp as [Hp|Hp]; [auto|].
    apply list_elem_of_singleton in Hp. subst p. cbn [balance].
    rewrite Hm, Qcplus_0_r.
    pose proof (walk_last tz m today currentBalance k) as Hlast.
    apply list_elem_of_lookup_2 in Hlast. apply IH in Hlast. exact Hlast.
Qed.

(** * Empty input *)

Lemma getOr0_empty (k : Z) : getOr0 ∅ k = 0%Qc.
Proof. unfold getOr0. now rewrite lookup_empty. Qed.

Lemma effectiveProjectionDays_nil (today : Z) :
  effectiveProjectionDays today [] [] = 30.
Proof.
  unfold effectiveProjectionDays, daysToProject, maxRelevantDate. cbn [foldl].
  rewrite Z.sub_diag. reflexivity.
Qed.

Lemma projectSalary_none (tz : Z) (clock : nat -> Z) (today chartEnd : Z)
    (m : gmap Z Qc) (userProfile : option UserProfile) :
  noSalaryNoLoans userProfile ->
  projectSalary tz clock today chartEnd m userProfile = (m, []).
Proof.
  unfold projectSalary, noSalaryNoLoans.
  destruct userProfile as [p|]; [|reflexivity].
  intros [Hs _]. destruct (Qcltb 0 (salaryIncome p)) eqn:E; [|reflexivity].
  apply Qcltb_lt in E. contradiction.
Qed.

Lemma projectLoans_none (tz today days : Z) (m : gmap Z Qc)
    (userProfile : option UserProfile) :
  noSalaryNoLoans userProfile ->
  projectLoans tz today days m userProfile = m.
Proof.
  unfold projectLoans, noSalaryNoLoans.
  destruct userProfile as [p|]; [|reflexivity].
  intros [_ ->]. reflexivity.
Qed.

Lemma dailyWalk_length (tz today days : Z) (m : gmap Z Qc) (currentBalance : Qc) :
  0 <= days ->
  length (walk_data (dailyWalk tz today days m currentBalance)) = Z.to_nat (days + 2).
Proof. intros H. unfold dailyWalk. rewrite walk_length. lia. Qed.

Lemma recordedTransactions_nil (today : Z) : recordedTransactions today [] [] = ∅.
Proof. reflexivity. Qed.

Lemma elem_of_tail {A} (x : A) (l : list A) : x ∈ tail l -> x ∈ l.
Proof. destruct l; [trivial | now right]. Qed.

(** A walk whose points all have a balance that is not negative records no
    shortfall. *)
Lemma dailyWalk_no_shortfall (tz today days : Z) (m : gmap Z Qc)
    (currentBalance : Qc) :
  (forall p, p ∈ walk_data (dailyWalk tz today days m currentBalance) ->
             balance p = currentBalance) ->
  (0 <= currentBalance)%Qc ->
  walk_shortfall (dailyWalk tz today days m currentBalance) = None.
Proof.
  intros Hflat Hbal.
  destruct (walk_shortfall_find tz m today currentBalance (Z.to_nat (days + 1)))
    as [Hfind _].
  fold (dailyWalk tz today days m currentBalance) in Hfind. rewrite Hfind.
  replace (List.find _ _) with (@None ForecastPoint); [reflexivity|].
  symmetry. apply find_none_iff. intros p Hin.
  apply elem_of_tail, Hflat in Hin. unfold isNegative. rewrite Hin.
  destruct (Qcltb currentBalance 0) eqn:E; [|reflexivity].
  apply Qcltb_lt in E. now apply Qcle_not_lt in Hbal.
Qed.

(** C6 (amended): with no incomes, no expenses, and a profile that is
    absent or has neither salary nor loans, the horizon is 30 days, the
    series has 32 points (the seed and the 31 days from today to
    today + 30), every point carries [currentBalance], there is no salary
    event, and the shortfall date is null when [currentBalance] is not
    negative. *)
Theorem C6_empty_input_flat_series (tz : Z) (clock : nat -> Z)
    (currentBalance : Qc) (userProfile : option UserProfile) :
  noSalaryNoLoans userProfile ->
  let r := generateMockForecast tz clock currentBalance [] [] userProfile in
  effectiveProjectionDays (todayOf tz clock) [] [] = 30
  /\ length (forecastData r) = 32%nat
  /\ (forall p, p ∈ forecastData r -> balance p = currentBalance)
  /\ projectedSalaryPayments r = []
  /\ ((0 <= currentBalance)%Qc -> potentialShortfallDate r = None).
Proof.
  intros Hp r. subst r. unfold generateMockForecast.
  rewrite projectSalary_none by assumption. cbn [fst snd].
  rewrite projectLoans_none by assumption.
  rewrite effectiveProjectionDays_nil, recordedTransactions_nil.
  cbn [forecastData potentialShortfallDate projectedSalaryPayments].
  pose proof (dailyWalk_flat tz (todayOf tz clock) 30 ∅ currentBalance getOr0_empty)
    as Hflat.
  split; [reflexivity|].
  split; [now rewrite dailyWalk_length|].
  split; [exact Hflat|].
  split; [reflexivity|].
  intros Hbal. now apply dailyWalk_no_shortfall.
Qed.

(** With a balance of 1000, no record and no profile: 32 points, no
    shortfall. *)
Lemma C6_empty_input_witness :
  let r := generateMockForecast 0 (fun _ => 0) (Qc_of_Z 1000) [] [] None in
  length (forecastData r) = 32%nat /\ potentialShortfallDate r = None.
Proof.
  destruct (C6_empty_input_flat_series 0 (fun _ => 0) (Qc_of_Z 1000) None I)
    as (_ & Hlen & _ & _ & Hnone).
  split; [exact Hlen | apply Hnone; discriminate].
Defined.

(** C6 as stated fails: the series for empty input has 32 points, not 31. *)
Lemma C6_counterexample_32_points :
  length (forecastData (generateMockForecast 0 (fun _ => 0) (Qc_of_Z 1000) [] [] None))
  <> 31%nat.
Proof.
  unfold generateMockForecast. cbn [forecastData].
  rewrite effectiveProjectionDays_nil, dailyWalk_length by lia. discriminate.
Qed.

(** * The horizon *)

Lemma maxDate_is_max (today : Z) (ds : list Z) :
  today <= maxDate today ds
  /\ (forall d, d ∈ ds -> d <= maxDate today ds)
  /\ (maxDate today ds = today \/ maxDate today ds ∈ ds).
Proof.
  unfold maxDate.
  induction ds as [|x ds (IH1 & IH2 & IH3)]; cbn [foldr].
  - repeat split; [lia | intros d Hd; inversion Hd | now left].
  - set (M := foldr Z.max today ds) in *. repeat split.
    + lia.
    + intros d Hd. apply elem_of_cons in Hd as [->|Hd]; [lia|].
      specialize (IH2 d Hd). lia.
    + destruct (Z.max_spec x M) as [[_ ->]|[_ ->]].
      * destruct IH3 as [IH3|IH3]; [left; exact IH3 | right; right; exact IH3].
      * right. left.
Qed.

Lemma foldr_max_acc (a x : Z) (l : list Z) :
  foldr Z.max (Z.max a x) l = Z.max x (foldr Z.max a l).
Proof. induction l as [|y l IH]; cbn; lia. Qed.

Lemma foldl_max_foldr (a : Z) (l : list Z) : foldl Z.max a l = foldr Z.max a l.
Proof.
  revert a. induction l as [|x l IH]; intros a; cbn; [reflexivity|].
  now rewrite IH, foldr_max_acc.
Qed.

Lemma foldl_scanIncome (today a : Z) (incomes : list IncomeItem) :
  foldl (scanIncome today) a incomes
  = foldl Z.max a (dueDate <$> List.filter (incomeIsRelevant today) incomes).
Proof.
  revert a. induction incomes as [|inc l IH]; intros a; cbn; [reflexivity|].
  rewrite IH. unfold scanIncome.
  destruct (incomeIsRelevant today inc); cbn; [|reflexivity].
  f_equal. destruct (Z.ltb_spec a (dueDate inc)); lia.
Qed.

Lemma foldl_scanExpense (today a : Z) (expenses : list ExpenseItem) :
  foldl (scanExpense today) a expenses
  = foldl Z.max a (date <$> List.filter (expenseIsRelevant today) expenses).
Proof.
  revert a. induction expenses as [|e l IH]; intros a; cbn; [reflexivity|].
  rewrite IH. unfold scanExpense.
  destruct (expenseIsRelevant today e); cbn; [|reflexivity].
  f_equal. destruct (Z.ltb_spec a (date e)); lia.
Qed.

Lemma maxRelevantDate_eq (today : Z) (incomes : list IncomeItem)
    (expenses : list ExpenseItem) :
  maxRelevantDate today incomes expenses
  = maxDate today (relevantDates today incomes expenses).
Proof.
  unfold maxRelevantDate, maxDate, relevantDates.
  rewrite foldl_scanExpense, foldl_scanIncome, <- foldl_app.
  apply foldl_max_foldr.
Qed.

(** A fold whose step ignores the elements failing a test is the fold over
    the elements that pass it. *)
Lemma foldl_filter_skip {A B} (f : B -> A -> B) (p : A -> bool) :
  (forall b x, p x = false -> f b x = b) ->
  forall l b, foldl f b (List.filter p l) = foldl f b l.
Proof.
  intros Hskip l. induction l as [|x l IH]; intros b; cbn; [reflexivity|].
  destruct (p x) eqn:E; cbn; [apply IH|].
  rewrite (Hskip b x E). apply IH.
Qed.

Lemma maxRelevantDate_filter (today : Z) (incomes : list IncomeItem)
    (expenses : list ExpenseItem) :
  maxRelevantDate today (List.filter (incomeIsRelevant today) incomes)
                  (List.filter (expenseIsRelevant today) expenses)
  = maxRelevantDate today incomes expenses.
Proof.
  unfold maxRelevantDate.
  rewrite !foldl_filter_skip; [reflexivity | |].
  - intros b x E. unfold scanIncome. now rewrite E.
  - intros b x E. unfold scanExpense. now rewrite E.
Qed.

Lemma recordedTransactions_filter (today : Z) (incomes : list IncomeItem)
    (expenses : list ExpenseItem) :
  recordedTransactions today (List.filter (incomeIsRelevant today) incomes)
                       (List.filter (expenseIsRelevant today) expenses)
  = recordedTransactions today incomes expenses.
Proof.
  unfold recordedTransactions.
  rewrite !foldl_filter_skip; [reflexivity | |].
  - intros b x E. unfold addIncome. now rewrite E.
  - intros b x E. unfold addExpense. now rewrite E.
Qed.

(** C3: for every input, the horizon is the larger of 30 and the number of
    whole days from today to the latest relevant date (today when there is
    none), the relevant dates being the due dates of outstanding incomes
    not before today and the dates of expenses not before today; dropping
    the records that fail these tests changes neither the horizon, nor the
    per-day map, nor the result of the engine. *)
Theorem C3_horizon_and_filters (tz : Z) (clock : nat -> Z)
    (currentBalance : Qc) (incomes : list IncomeItem)
    (expenses : list ExpenseItem) (userProfile : option UserProfile) :
  let today := todayOf tz clock in
  let latest := maxDate today (relevantDates today incomes expenses) in
  let incomes' := List.filter (incomeIsRelevant today) incomes in
  let expenses' := List.filter (expenseIsRelevant today) expenses in
  effectiveProjectionDays today incomes expenses
    = Z.max (daysBetween today latest) 30
  /\ (today <= latest
      /\ (forall d, d ∈ relevantDates today incomes expenses -> d <= latest)
      /\ (latest = today \/ latest ∈ relevantDates today incomes expenses))
  /\ effectiveProjectionDays today incomes' expenses'
     = effectiveProjectionDays today incomes expenses
  /\ recordedTransactions today incomes' expenses'
     = recordedTransactions today incomes expenses
  /\ transactionsByDay tz clock incomes' expenses' userProfile
     = transactionsByDay tz clock incomes expenses userProfile
  /\ generateMockForecast tz clock currentBalance incomes' expenses' userProfile
     = generateMockForecast tz clock currentBalance incomes expenses userProfile.
Proof.
  intros today latest incomes' expenses'.
  assert (effectiveProjectionDays today incomes' expenses'
          = effectiveProjectionDays today incomes expenses) as Hdays.
  { unfold effectiveProjectionDays, daysToProject.
    subst incomes' expenses'. now rewrite maxRelevantDate_filter. }
  pose proof (recordedTransactions_filter today incomes expenses) as Hmap.
  fold incomes' expenses' in Hmap.
  split.
  { unfold effectiveProjectionDays, daysToProject. now rewrite maxRelevantDate_eq. }
  split; [apply maxDate_is_max|].
  split; [exact Hdays|].
  split; [exact Hmap|].
  split.
  - unfold transactionsByDay. fold today. now rewrite Hdays, Hmap.
  - unfold generateMockForecast. fold today. now rewrite Hdays, Hmap.
Qed.

(** * Termination of the salary loop *)

Section SalaryLoopFacts.

Variable tz : Z.
Variable clock : nat -> Z.
Variable frequency : SalaryFrequency.
Variable amount : Qc.
Variable limit : Z.

Local Abbreviation iteration := (salaryIteration tz clock frequency amount limit).
Local Abbreviation loop := (fun fuel => salaryLoop tz fuel clock frequency amount limit).

(** What one turn of the loop does to the state. *)
Lemma salaryIteration_Some (st st' : SalaryState) :
  iteration st = Some st' ->
  exists nextPay : Z,
    getNextPayday tz (tempDate st) frequency = Some nextPay
    /\ tempDate st <= limit /\ (loopCount st < 100)%nat /\ nextPay <= limit
    /\ st' = {| tempDate := nextPay + 1 * msPerDay;
                loopCount := S (loopCount st);
                sal_txs := addToDay (sal_txs st) (dateKey nextPay) amount;
                sal_payments :=
                  sal_payments st ++ [salaryPayment clock frequency amount nextPay st];
                reads := S (reads st) |}.
Proof.
  unfold salaryIteration.
  destruct (tempDate st <=? limit) eqn:E1; [|discriminate].
  destruct (loopCount st <? 100)%nat eqn:E2; [|discriminate]. cbn [andb].
  destruct (getNextPayday tz (tempDate st) frequency) as [nextPay|]; [|discriminate].
  destruct (nextPay <=? limit) eqn:E3; [|discriminate].
  intros [= <-]. exists nextPay.
  apply Z.leb_le in E1, E3. apply Nat.ltb_lt in E2.
  rewrite setDate_getDate. repeat split; assumption.
Qed.

Lemma salaryIteration_counter (st : SalaryState) :
  (100 <= loopCount st)%nat -> iteration st = None.
Proof.
  intros H. unfold salaryIteration.
  replace (loopCount st <? 100)%nat with false
    by (symmetry; apply Nat.ltb_ge; exact H).
  now rewrite andb_false_r.
Qed.

Lemma getNextPayday_Some (t : Z) :
  exists nextPay : Z, getNextPayday tz t frequency = Some nextPay.
Proof. unfold getNextPayday. destruct frequency; eexists; reflexivity. Qed.

(** Why the loop is left: the counter has reached 100, or the cursor is
    after the limit date, or the next payday is. *)
Lemma salaryIteration_None (st : SalaryState) :
  iteration st = None ->
  (100 <= loopCount st)%nat
  \/ limit < tempDate st
  \/ exists nextPay : Z,
       getNextPayday tz (tempDate st) frequency = Some nextPay /\ limit < nextPay.
Proof.
  unfold salaryIteration.
  destruct (Z.leb_spec (tempDate st) limit) as [H1|H1]; [|auto].
  destruct (Nat.ltb_spec (loopCount st) 100) as [H2|H2]; [|auto]. cbn [andb].
  destruct (getNextPayday_Some (tempDate st)) as [nextPay ->].
  destruct (Z.leb_spec nextPay limit) as [H3|H3]; [discriminate|].
  intros _. right. right. exists nextPay. split; [reflexivity | exact H3].
Qed.

(** With enough fuel to bring the counter to 100, the loop is left through
    its own condition or its [break]. *)
Lemma salaryLoop_exits (fuel : nat) (st : SalaryState) :
  (100 <= loopCount st + fuel)%nat -> iteration (loop fuel st) = None.
Proof.
  revert st. induction fuel as [|fuel IH]; intros st H; cbn [salaryLoop].
  - apply salaryIteration_counter. lia.
  - destruct (iteration st) as [st'|] eqn:E; [|exact E].
    apply IH. apply salaryIteration_Some in E as (n & _ & _ & _ & _ & ->).
    cbn [loopCount]. lia.
Qed.

Lemma salaryLoop_fixed (fuel : nat) (st : SalaryState) :
  iteration st = None -> loop fuel st = st.
Proof. intros H. destruct fuel; cbn [salaryLoop]; [reflexivity | now rewrite H]. Qed.

Lemma salaryLoop_add (fuel extra : nat) (st : SalaryState) :
  loop (fuel + extra)%nat st = loop extra (loop fuel st).
Proof.
  revert st. induction fuel as [|fuel IH]; intros st; cbn [salaryLoop Nat.add].
  - reflexivity.
  - destruct (iteration st) as [st'|] eqn:E; [apply IH|].
    symmetry. now apply salaryLoop_fixed.
Qed.

Lemma salaryLoop_invariant (fuel : nat) (st0 st : SalaryState) :
  salaryInvariant limit st0 st -> salaryInvariant limit st0 (loop fuel st).
Proof.
  revert st. induction fuel as [|fuel IH]; intros st Hinv; cbn [salaryLoop].
  - exact Hinv.
  - destruct (iteration st) as [st'|] eqn:E; [|exact Hinv].
    apply IH. apply salaryIteration_Some in E as (n & _ & _ & Hc & Hn & ->).
    destruct Hinv as (H1 & H2 & H3 & H4 & H5).
    unfold salaryInvariant. cbn [loopCount sal_payments reads].
    repeat split; [lia | lia | rewrite length_app; cbn [length]; lia | lia |].
    intros H0. apply Forall_app. split; [auto|].
    constructor; [exact Hn | constructor].
Qed.

Lemma salaryInvariant_refl (st : SalaryState) : salaryInvariant limit st st.
Proof. unfold salaryInvariant. repeat split; [lia.. | trivial]. Qed.

End SalaryLoopFacts.

Lemma length_tail_pred {A} (l : list A) : length (tail l) = Nat.pred (length l).
Proof. destruct l; reflexivity. Qed.

(** C9: for every input the engine returns, its loops being bounded.  The
    salary loop, run for its 100 turns at most, is left through its
    condition or its [break]: no further turn is possible from its final
    state, because the counter has reached 100, or the cursor or the next
    payday is after the day following the end of the chart; more turns
    allowed change nothing.  It makes at most 100
    payments, none due after the day following the end of the chart.  The
    loan loop makes [effectiveProjectionDays + 1] turns for each loan, and
    the daily walk [effectiveProjectionDays + 1] turns, one for each point
    after the seed. *)
Theorem C9_loops_are_bounded (tz : Z) (clock : nat -> Z) (currentBalance : Qc)
    (incomes : list IncomeItem) (expenses : list ExpenseItem)
    (userProfile : option UserProfile)
    (frequency : SalaryFrequency) (amount : Qc) (m : gmap Z Qc) :
  let today := todayOf tz clock in
  let days := effectiveProjectionDays today incomes expenses in
  let limit := projectionLimitDate tz (chartEndDate tz today days) in
  let st := salaryLoop tz 100 clock frequency amount limit (salaryStart today m) in
  let r := generateMockForecast tz clock currentBalance incomes expenses
                                userProfile in
  salaryIteration tz clock frequency amount limit st = None
  /\ ((100 <= loopCount st)%nat
      \/ limit < tempDate st
      \/ exists nextPay : Z,
           getNextPayday tz (tempDate st) frequency = Some nextPay
           /\ limit < nextPay)
  /\ (forall extra : nat,
        salaryLoop tz (100 + extra) clock frequency amount limit
                   (salaryStart today m) = st)
  /\ (loopCount st <= 100)%nat
  /\ length (sal_payments st) = loopCount st
  /\ Forall (fun i => dueDate i <= limit) (sal_payments st)
  /\ (length (projectedSalaryPayments r) <= 100)%nat
  /\ Forall (fun i => dueDate i <= limit) (projectedSalaryPayments r)
  /\ length (seqZ 0 (days + 1)) = Z.to_nat (days + 1)
  /\ length (walkPoints r) = Z.to_nat (days + 1).
Proof.
  intros today days limit st r.
  assert (forall f a m0,
    let s := salaryLoop tz 100 clock f a limit (salaryStart today m0) in
    (loopCount s <= 100)%nat /\ length (sal_payments s) = loopCount s
    /\ Forall (fun i => dueDate i <= limit) (sal_payments s)) as Hloop.
  { intros f a m0 s.
    destruct (salaryLoop_invariant tz clock f a limit 100 _ _
                (salaryInvariant_refl limit (salaryStart today m0)))
      as (_ & H2 & H3 & _ & H5).
    fold s in H2, H3, H5. cbn [salaryStart loopCount sal_payments length] in *.
    repeat split; [lia | lia | apply H5; constructor]. }
  split; [apply salaryLoop_exits; lia|].
  split; [eapply salaryIteration_None, salaryLoop_exits; lia|].
  split.
  { intros extra. rewrite salaryLoop_add. apply salaryLoop_fixed.
    apply salaryLoop_exits. lia. }
  destruct (Hloop frequency amount m) as (H1 & H2 & H3). fold st in H1, H2, H3.
  do 3 (split; [assumption|]).
  assert ((length (projectedSalaryPayments r) <= 100)%nat
          /\ Forall (fun i => dueDate i <= limit) (projectedSalaryPayments r))
    as [Hp1 Hp2].
  { subst r. unfold generateMockForecast. cbn [projectedSalaryPayments].
    fold today. fold days. unfold projectSalary.
    destruct userProfile as [p|]; [|split; [cbn; lia | constructor]].
    destruct (Qcltb 0 (salaryIncome p)); [|split; [cbn; lia | constructor]].
    unfold salaryPaydays. cbn [snd]. fold limit.
    destruct (Hloop (salaryFrequency p) (salaryPerPayPeriod p)
                (recordedTransactions today incomes expenses)) as (G1 & G2 & G3).
    split; [lia | exact G3]. }
  do 2 (split; [assumption|]).
  split; [apply length_seqZ|].
  unfold walkPoints. rewrite length_tail_pred. subst r.
  unfold generateMockForecast. cbn [forecastData].
  rewrite dailyWalk_length by (apply Z.le_trans with 30; [lia | apply effectiveProjectionDays_ge]).
  fold today. fold days.
  pose proof (effectiveProjectionDays_ge today incomes expenses). fold days in H. lia.
Qed.

(** * Loan payments *)

Lemma getOr0_addToDay (m : gmap Z Qc) (k k' : Z) (a : Qc) :
  getOr0 (addToDay m k a) k'
  = if decide (k = k') then (getOr0 m k + a)%Qc else getOr0 m k'.
Proof.
  unfold addToDay, getOr0 at 1. rewrite lookup_insert.
  destruct (decide (k = k')); reflexivity.
Qed.

Section LoanFacts.

Variable tz : Z.
Variable today : Z.
Variable loan : LoanItem.

Local Abbreviation step := (loanIteration tz today loan).

Lemma loanIteration_hit (st : Z * gmap Z Qc) (i : Z) :
  iterationDate tz today i = st.1 ->
  step st i = (advanceLoan tz (paymentFrequency loan) st.1,
               addToDay st.2 (dateKey (iterationDate tz today i))
                        (- loan_amount loan)%Qc).
Proof. intros H. unfold loanIteration. now rewrite H, Z.eqb_refl. Qed.

Lemma loanIteration_miss (st : Z * gmap Z Qc) (i : Z) :
  iterationDate tz today i <> st.1 -> step st i = st.
Proof.
  intros H. unfold loanIteration.
  destruct (Z.eqb_spec (iterationDate tz today i) st.1); [contradiction | reflexivity].
Qed.

Lemma loanStateBefore_succ (m : gmap Z Qc) (i : Z) :
  0 <= i ->
  loanStateBefore tz today loan m (i + 1)
  = step (loanStateBefore tz today loan m i) i.
Proof.
  intros H. unfold loanStateBefore.
  rewrite seqZ_app by lia. rewrite foldl_app. reflexivity.
Qed.

Lemma loanWalk_split (m : gmap Z Qc) (days i : Z) :
  0 <= i <= days ->
  loanWalk tz today days loan m
  = foldl step (step (loanStateBefore tz today loan m i) i)
          (seqZ (i + 1) (days - i)).
Proof.
  intros H. unfold loanWalk, loanStateBefore.
  replace (days + 1) with (i + (1 + (days - i))) by lia.
  rewrite seqZ_app by lia. rewrite foldl_app, Z.add_0_l.
  rewrite (seqZ_app i 1 (days - i)) by lia. rewrite foldl_app.
  reflexivity.
Qed.

Lemma iterationDate_inj (i j : Z) :
  iterationDate tz today i = iterationDate tz today j -> i = j.
Proof. rewrite !iterationDate_eq. unfold msPerDay. lia. Qed.

Lemma dateKey_iterationDate (i : Z) :
  dateKey (iterationDate tz today i) = dateKey (setHours0 tz today) + i.
Proof. rewrite iterationDate_eq. apply dateKey_add_days. Qed.

(** A turn of the loop writes, if at all, under the key of its own day. *)
Lemma loanIteration_other_key (st : Z * gmap Z Qc) (i : Z) (k : Z) :
  k <> dateKey (iterationDate tz today i) ->
  getOr0 (step st i).2 k = getOr0 st.2 k.
Proof.
  intros Hk. unfold loanIteration.
  destruct (iterationDate tz today i =? st.1); [|reflexivity].
  cbn [snd]. rewrite getOr0_addToDay.
  destruct (decide _); [congruence | reflexivity].
Qed.

Lemma foldl_loan_other_key (l : list Z) (st : Z * gmap Z Qc) (k : Z) :
  Forall (fun i => k <> dateKey (iterationDate tz today i)) l ->
  getOr0 (foldl step st l).2 k = getOr0 st.2 k.
Proof.
  revert st. induction l as [|i l IH]; intros st Hl; cbn [foldl]; [reflexivity|].
  inversion Hl; subst. rewrite IH by assumption.
  now apply loanIteration_other_key.
Qed.

Lemma seqZ_other_key (a n i : Z) :
  ~ (a <= i < a + n) ->
  Forall (fun j => dateKey (iterationDate tz today i)
                   <> dateKey (iterationDate tz today j)) (seqZ a n).
Proof.
  intros H. apply Forall_seqZ. intros j Hj.
  rewrite !dateKey_iterationDate. lia.
Qed.

(** The net amount found, once the loop over the loan is done, under the
    key of day [i]: what was there before, less the amount of the loan if
    day [i] was a payment date when its turn came. *)
Lemma loanWalk_key (m : gmap Z Qc) (days i : Z) :
  0 <= i <= days ->
  let st := loanStateBefore tz today loan m i in
  let k := dateKey (iterationDate tz today i) in
  getOr0 (loanWalk tz today days loan m).2 k
  = if iterationDate tz today i =? st.1
    then (getOr0 m k - loan_amount loan)%Qc
    else getOr0 m k.
Proof.
  intros H st k.
  rewrite (loanWalk_split m days i H).
  rewrite foldl_loan_other_key by (apply seqZ_other_key; lia).
  fold st.
  assert (getOr0 st.2 k = getOr0 m k) as Hbefore.
  { unfold st, loanStateBefore.
    rewrite foldl_loan_other_key by (apply seqZ_other_key; lia). reflexivity. }
  unfold loanIteration. fold k.
  destruct (iterationDate tz today i =? st.1); [|exact Hbefore].
  cbn [snd]. rewrite getOr0_addToDay.
  destruct (decide (k = k)); [|contradiction]. now rewrite Hbefore.
Qed.

(** Over days none of which is the payment date, nothing changes. *)
Lemma foldl_loan_no_hit (l : list Z) (st : Z * gmap Z Qc) :
  Forall (fun i => iterationDate tz today i <> st.1) l ->
  foldl step st l = st.
Proof.
  induction l as [|i l IH]; intros Hl; cbn [foldl]; [reflexivity|].
  inversion Hl; subst. rewrite loanIteration_miss by assumption. auto.
Qed.

(** A payment date before today's midnight is never met: the loop leaves
    the date and the map as they are. *)
Lemma loan_past_due_unchanged (m : gmap Z Qc) (a n : Z) :
  0 <= a ->
  setHours0 tz (nextPaymentDate loan) < setHours0 tz today ->
  foldl step (setHours0 tz (nextPaymentDate loan), m) (seqZ a n)
  = (setHours0 tz (nextPaymentDate loan), m).
Proof.
  intros Ha Hlt. apply foldl_loan_no_hit. apply Forall_seqZ. intros i Hi.
  rewrite iterationDate_eq. cbn [fst]. unfold msPerDay. lia.
Qed.

End LoanFacts.

Lemma projectLoans_foldl (tz today days : Z) (m : gmap Z Qc) (p : UserProfile) :
  projectLoans tz today days m (Some p)
  = foldl (fun m loan => (loanWalk tz today days loan m).2) m (loans p).
Proof. unfold projectLoans. destruct (loans p); reflexivity. Qed.

Lemma projectSalary_setLoans (tz : Z) (clock : nat -> Z) (today chartEnd : Z)
    (m : gmap Z Qc) (p : UserProfile) (ls : list LoanItem) :
  projectSalary tz clock today chartEnd m (Some (setLoans p ls))
  = projectSalary tz clock today chartEnd m (Some p).
Proof. reflexivity. Qed.

(** A loan whose loop leaves every map as it is can be taken out of the
    profile without any change to the per-day map or to the result. *)
Lemma remove_idle_loan (tz : Z) (clock : nat -> Z) (currentBalance : Qc)
    (incomes : list IncomeItem) (expenses : list ExpenseItem)
    (p : UserProfile) (loan : LoanItem) (before after : list LoanItem) :
  let today := todayOf tz clock in
  let days := effectiveProjectionDays today incomes expenses in
  (forall m, (loanWalk tz today days loan m).2 = m) ->
  loans p = before ++ loan :: after ->
  transactionsByDay tz clock incomes expenses (Some p)
  = transactionsByDay tz clock incomes expenses (Some (setLoans p (before ++ after)))
  /\ generateMockForecast tz clock currentBalance incomes expenses (Some p)
     = generateMockForecast tz clock currentBalance incomes expenses
                            (Some (setLoans p (before ++ after))).
Proof.
  intros today days Hidle Hloans.
  assert (forall m, projectLoans tz today days m (Some p)
                    = projectLoans tz today days m (Some (setLoans p (before ++ after))))
    as Heq.
  { intros m. rewrite !projectLoans_foldl. cbn [setLoans loans].
    rewrite Hloans, !foldl_app. cbn [foldl]. now rewrite Hidle. }
  unfold transactionsByDay, generateMockForecast. fold today. fold days.
  rewrite !projectSalary_setLoans, !Heq. split; reflexivity.
Qed.

(** C10: a loan whose next payment date, taken at midnight, is before today
    is never charged: at every turn of the loop over its days the date and
    the map are as they were at the start, so that the loop ends with the
    date not advanced and the map unchanged; and the per-day map and the
    result of the engine are those of the profile without this loan. *)
Theorem C10_past_due_loan_never_charged (tz : Z) (clock : nat -> Z)
    (currentBalance : Qc) (incomes : list IncomeItem)
    (expenses : list ExpenseItem) (p : UserProfile) (loan : LoanItem)
    (m : gmap Z Qc) :
  let today := todayOf tz clock in
  let days := effectiveProjectionDays today incomes expenses in
  let next0 := setHours0 tz (nextPaymentDate loan) in
  next0 < today ->
  (forall i, 0 <= i <= days + 1 ->
             loanStateBefore tz today loan m i = (next0, m))
  /\ loanWalk tz today days loan m = (next0, m)
  /\ (forall before after, loans p = before ++ loan :: after ->
      transactionsByDay tz clock incomes expenses (Some p)
      = transactionsByDay tz clock incomes expenses
                          (Some (setLoans p (before ++ after)))
      /\ generateMockForecast tz clock currentBalance incomes expenses (Some p)
         = generateMockForecast tz clock currentBalance incomes expenses
                                (Some (setLoans p (before ++ after)))).
Proof.
  intros today days next0 Hlt.
  assert (next0 < setHours0 tz today) as Hlt'
    by (unfold today; now rewrite todayOf_midnight).
  split; [intros i Hi; now apply loan_past_due_unchanged|].
  split; [now apply loan_past_due_unchanged|].
  intros before after Hloans.
  apply remove_idle_loan with (loan := loan) (before := before) (after := after);
    [|exact Hloans].
  intros m'. unfold loanWalk. fold today.
  now rewrite loan_past_due_unchanged.
Qed.

(** A monthly loan whose payment was due five days before today, over a
    horizon of 30 days: the loop leaves its date and the map as they were. *)
Lemma C10_past_due_loan_witness :
  let loan := loanDue LoanMonthly 2000 (jan1_2024 - 5 * msPerDay) in
  loanWalk 0 jan1_2024 30 loan ∅ = (nextPaymentDate loan, ∅).
Proof.
  exact (proj1 (proj2 (C10_past_due_loan_never_charged 0 (clockAt jan1_2024) 0%Qc
    [] [] (profileWith 0 Monthly [] []) 
    (loanDue LoanMonthly 2000 (jan1_2024 - 5 * msPerDay)) ∅ eq_refl))).
Defined.

(** * Calendar months *)

Lemma DayFromYear_succ (y : Z) : DayFromYear (y + 1) = DayFromYear y + DaysInYear y.
Proof.
  unfold DayFromYear, DaysInYear.
  destruct (Z.eqb_spec (y mod 4) 0), (Z.eqb_spec (y mod 100) 0),
    (Z.eqb_spec (y mod 400) 0); cbn [negb];
    Z.div_mod_to_equations; lia.
Qed.

Lemma DaysInYear_cases (y : Z) : DaysInYear y = 365 \/ DaysInYear y = 366.
Proof.
  unfold DaysInYear.
  repeat match goal with |- context [if ?b then _ else _] => destruct b end; auto.
Qed.

Lemma DaysInMonth_range (y m : Z) : 28 <= DaysInMonth y m <= 31.
Proof.
  unfold DaysInMonth.
  repeat match goal with |- context [match ?b with _ => _ end] => destruct b end; lia.
Qed.

(** One month later, in [MakeDay], is as many days later as the month has. *)
Lemma MakeDay_month_succ (y m d : Z) :
  0 <= m <= 11 -> MakeDay y (m + 1) d = MakeDay y m d + DaysInMonth y m.
Proof.
  intros Hm. unfold MakeDay.
  rewrite (Z.div_small m 12), (Z.mod_small m 12), Z.add_0_r by lia.
  destruct (Z.eq_dec m 11) as [->|Hne].
  - change ((11 + 1) / 12) with 1. change ((11 + 1) mod 12) with 0.
    rewrite DayFromYear_succ.
    destruct (DaysInYear_cases y) as [E|E], (DaysInYear_cases (y + 1)) as [E'|E'];
      rewrite E, E'; cbn; lia.
  - rewrite (Z.div_small (m + 1) 12), (Z.mod_small (m + 1) 12), Z.add_0_r by lia.
    unfold DaysInMonth.
    assert (m = 0 \/ m = 1 \/ m = 2 \/ m = 3 \/ m = 4 \/ m = 5 \/ m = 6
            \/ m = 7 \/ m = 8 \/ m = 9 \/ m = 10) as Hcases by lia.
    destruct (DaysInYear_cases y) as [E|E]; rewrite E;
      destruct Hcases as [->|[->|[->|[->|[->|[->|[->|[->|[->|[->| ->]]]]]]]]]];
      cbn;
      repeat match goal with
        | |- context [monthStart ?a ?b] =>
            let v := eval vm_compute in (monthStart a b) in
            change (monthStart a b) with v
        end;
      lia.
Qed.

Section MonthFacts.

Variable tz : Z.

(** For a date at local midnight, [setMonth(getMonth() + 1)] is the date as
    many days later as its month has. *)
Lemma setMonth_next (t : Z) :
  setHours0 tz t = t ->
  setMonth tz t (getMonth tz t + 1)
  = t + DaysInMonth (getFullYear tz t) (getMonth tz t) * msPerDay.
Proof.
  intros Hmid. unfold setMonth, getMonth, getFullYear.
  rewrite MakeDay_month_succ by apply MonthFromDay_range.
  pose proof (MakeDay_of_day (Day (LocalTime tz t)) 0) as Hd.
  rewrite Z.add_0_r in Hd. rewrite Hd, Z.add_0_r.
  rewrite setHours0_eq in Hmid.
  unfold UTC, MakeDate, LocalTime, Day, TimeWithinDay in *.
  pose proof (div_mod_msPerDay (t + tz)) as [H _]. lia.
Qed.

Lemma advanceLoan_monthly (t : Z) :
  setHours0 tz t = t ->
  advanceLoan tz LoanMonthly t
  = t + DaysInMonth (getFullYear tz t) (getMonth tz t) * msPerDay.
Proof.
  intros Hmid. unfold advanceLoan.
  rewrite setMonth_next by assumption.
  rewrite setHours0_add_days, Hmid. reflexivity.
Qed.

End MonthFacts.

(** * The calendar on known dates *)

(** [YearFromDay d] is the year that day [d] falls in: the year starts on
    or before day [d] and the next year starts after it. *)
Lemma YearFromDay_spec (d : Z) :
  DayFromYear (YearFromDay d) <= d < DayFromYear (YearFromDay d + 1).
Proof.
  unfold YearFromDay.
  set (y0 := 1970 + d * 400 / 146097).
  assert (146097 * (y0 - 1970) <= d * 400 < 146097 * (y0 - 1970) + 146097) as Hy0.
  { unfold y0. pose proof (Z.div_mod (d * 400) 146097 ltac:(lia)).
    pose proof (Z.mod_pos_bound (d * 400) 146097 ltac:(lia)). lia. }
  clearbody y0.
  destruct (Z.ltb_spec d (DayFromYear y0)) as [Hlt|Hge].
  - replace (y0 - 1 + 1) with y0 by lia. split; [|exact Hlt].
    unfold DayFromYear in *. Z.div_mod_to_equations. lia.
  - destruct (Z.leb_spec (DayFromYear (y0 + 1)) d) as [Hle|Hgt].
    + split; [exact Hle|].
      unfold DayFromYear in *. Z.div_mod_to_equations. lia.
    + split; assumption.
Qed.

Lemma DayWithinYear_range (d : Z) :
  0 <= DayWithinYear d < DaysInYear (YearFromDay d).
Proof.
  pose proof (YearFromDay_spec d) as H.
  rewrite DayFromYear_succ in H. unfold DayWithinYear. lia.
Qed.

(** The day of the month is between 1 and the length of the month. *)
Lemma DateFromDay_range (d : Z) :
  1 <= DateFromDay d <= DaysInMonth (YearFromDay d) (MonthFromDay d).
Proof.
  pose proof (DayWithinYear_range d) as Hw.
  unfold DateFromDay, MonthFromDay, DaysInMonth, InLeapYear in *.
  destruct (DaysInYear_cases (YearFromDay d)) as [E|E]; rewrite E in *;
    cbn [Z.eqb Pos.eqb] in *;
    repeat match goal with
      | |- context [if ?a <? ?b then _ else _] => destruct (Z.ltb_spec a b)
      end; cbn; lia.
Qed.

(** 1 January 1970 (a Thursday), 29 February 2000, 28 February and 1 March
    1900, 29 February 2024 (a Thursday), 31 December 1969. *)
Example calendar_known_dates :
  (MakeDay 1970 0 1, WeekDay 0) = (0, 4)
  /\ (YearFromDay 11016, MonthFromDay 11016, DateFromDay 11016) = (2000, 1, 29)
  /\ MakeDay 1900 2 1 - MakeDay 1900 1 28 = 1
  /\ (YearFromDay 19782, MonthFromDay 19782, DateFromDay 19782, WeekDay 19782)
     = (2024, 1, 29, 4)
  /\ (YearFromDay (-1), MonthFromDay (-1), DateFromDay (-1)) = (1969, 11, 31)
  /\ Day jan1_2024 = MakeDay 2024 0 1
  /\ isoDateString jan1_2024 = "2024-01-01".
Proof. vm_compute. repeat split. Qed.

(** * Recurrence of loan payments *)

Section LoanRecurrence.

Variable tz : Z.

Lemma setHours0_MakeDate (day time : Z) :
  0 <= time < msPerDay ->
  setHours0 tz (UTC tz (MakeDate day time)) = UTC tz (MakeDate day 0).
Proof.
  intros H. unfold setHours0, UTC, LocalTime, MakeDate, Day.
  replace (day * msPerDay + time - tz + tz) with (time + day * msPerDay) by lia.
  rewrite Z.div_add by discriminate.
  rewrite Z.div_small by assumption. lia.
Qed.

Lemma advanceLoan_calendar (f : PaymentFrequency) (t : Z) :
  advanceLoan tz f t = laterByFrequency tz f t.
Proof.
  pose proof (div_mod_msPerDay (LocalTime tz t)) as [_ Hr].
  unfold advanceLoan, laterByFrequency, setMonth, setFullYear,
    getFullYear, getMonth, getDate.
  destruct f; now rewrite setHours0_MakeDate.
Qed.

Variable today : Z.
Variable loan : LoanItem.
Variable m : gmap Z Qc.

Local Abbreviation step := (loanIteration tz today loan).
Local Abbreviation before := (loanStateBefore tz today loan m).

Lemma loanStateBefore_from (a b : Z) :
  0 <= a <= b -> before b = foldl step (before a) (seqZ a (b - a)).
Proof.
  intros H. unfold loanStateBefore.
  replace b with (a + (b - a)) at 1 by lia.
  rewrite seqZ_app by lia. now rewrite foldl_app, Z.add_0_l.
Qed.

Lemma loanWalk_is_before (days : Z) :
  loanWalk tz today days loan m = before (days + 1).
Proof. reflexivity. Qed.

(** From a turn at which the next payment is due on day [n], the date and
    the map stay as they are until the turn of day [n]. *)
Lemma loanStateBefore_wait (a n : Z) :
  0 <= a <= n ->
  (before a).1 = iterationDate tz today n ->
  before n = before a.
Proof.
  intros H Hnext. rewrite (loanStateBefore_from a n H).
  apply foldl_loan_no_hit. apply Forall_seqZ. intros j Hj.
  rewrite Hnext. intros E. apply iterationDate_inj in E. lia.
Qed.

(** The same, to the end of the loop, when day [n] is beyond the horizon. *)
Lemma loanStateBefore_rest (a n b : Z) :
  0 <= a <= b -> b <= n ->
  (before a).1 = iterationDate tz today n ->
  before b = before a.
Proof.
  intros H Hb Hnext. rewrite (loanStateBefore_from a b H).
  apply foldl_loan_no_hit. apply Forall_seqZ. intros j Hj.
  rewrite Hnext. intros E. apply iterationDate_inj in E. lia.
Qed.

Lemma loanStateBefore_0 : before 0 = (setHours0 tz (nextPaymentDate loan), m).
Proof. reflexivity. Qed.

(** A turn at which the payment is due. *)
Lemma loanStateBefore_hit (i : Z) :
  0 <= i ->
  (before i).1 = iterationDate tz today i ->
  before (i + 1)
  = (laterByFrequency tz (paymentFrequency loan) (before i).1,
     addToDay (before i).2 (dateKey (iterationDate tz today i))
              (- loan_amount loan)%Qc).
Proof.
  intros Hi Hdue. rewrite loanStateBefore_succ by assumption.
  rewrite loanIteration_hit by (symmetry; exact Hdue).
  now rewrite advanceLoan_calendar.
Qed.

End LoanRecurrence.

Lemma iterationDate_midnight (tz today i : Z) :
  setHours0 tz (iterationDate tz today i) = iterationDate tz today i.
Proof. unfold iterationDate. apply setHours0_idem. Qed.

Lemma iterationDate_add (tz today i k : Z) :
  iterationDate tz today i + k * msPerDay = iterationDate tz today (i + k).
Proof. rewrite !iterationDate_eq. lia. Qed.

(** C5 (amended): in the loop over the days of a loan, a turn whose day is
    the loan's current next payment date subtracts the amount of the loan
    under the key of that day, where it stays to the end of the loop, and
    moves the next payment date by one period in the calendar (one month,
    three months, one year later, same day of the month); a turn on any
    other day changes nothing.  For a monthly loan due on day [n] of the
    walk, the amount is subtracted on day [n]; the following payment date is
    as many days later as the month of the payment has (28 to 31); the
    amount is subtracted again on that day when the horizon reaches it, and
    when the horizon does not reach it there is no other deduction. *)
Theorem C5_loan_payments_recur (tz : Z) (clock : nat -> Z)
    (incomes : list IncomeItem) (expenses : list ExpenseItem)
    (loan : LoanItem) (m : gmap Z Qc) (n : Z) :
  let today := todayOf tz clock in
  let days := effectiveProjectionDays today incomes expenses in
  let walkDay := iterationDate tz today in
  let key := fun i => dateKey (walkDay i) in
  let before := loanStateBefore tz today loan m in
  let final := (loanWalk tz today days loan m).2 in
  let amount := loan_amount loan in
  (forall i, 0 <= i <= days -> walkDay i = (before i).1 ->
     before (i + 1)
     = (laterByFrequency tz (paymentFrequency loan) (walkDay i),
        addToDay (before i).2 (key i) (- amount)%Qc)
     /\ getOr0 final (key i) = (getOr0 m (key i) - amount)%Qc)
  /\ (forall i, 0 <= i <= days -> walkDay i <> (before i).1 ->
     before (i + 1) = before i /\ getOr0 final (key i) = getOr0 m (key i))
  /\ (paymentFrequency loan = LoanMonthly -> 0 <= n <= days ->
      setHours0 tz (nextPaymentDate loan) = walkDay n ->
      let len := DaysInMonth (getFullYear tz (walkDay n)) (getMonth tz (walkDay n)) in
      28 <= len <= 31
      /\ getOr0 final (key n) = (getOr0 m (key n) - amount)%Qc
      /\ (before (n + 1)).1 = walkDay (n + len)
      /\ (n + len <= days ->
          getOr0 final (key (n + len)) = (getOr0 m (key (n + len)%Z) - amount)%Qc)
      /\ (days < n + len ->
          forall k, k <> key n -> getOr0 final k = getOr0 m k)).
Proof.
  intros today days walkDay key before final amount.
  assert (forall i, 0 <= i <= days -> walkDay i = (before i).1 ->
            getOr0 final (key i) = (getOr0 m (key i) - amount)%Qc) as Hhit.
  { intros i Hi Hdue. unfold final, key, walkDay.
    rewrite (loanWalk_key tz today loan m days i Hi). cbv zeta.
    fold walkDay. fold before. rewrite Hdue, Z.eqb_refl. reflexivity. }
  split.
  { intros i Hi Hdue. split; [|apply Hhit; assumption].
    unfold before. rewrite loanStateBefore_hit; [|lia|symmetry; exact Hdue].
    fold before. rewrite <- Hdue. reflexivity. }
  split.
  { intros i Hi Hmiss. split.
    - unfold before. rewrite loanStateBefore_succ by lia.
      apply loanIteration_miss. exact Hmiss.
    - unfold final, key, walkDay.
      rewrite (loanWalk_key tz today loan m days i Hi). cbv zeta.
      fold walkDay. fold before.
      destruct (Z.eqb_spec (walkDay i) (before i).1); [contradiction | reflexivity]. }
  intros Hmonthly Hn Hdue len.
  assert (before 0 = (walkDay n, m)) as Hb0.
  { unfold before. rewrite loanStateBefore_0, Hdue. reflexivity. }
  assert (before n = (walkDay n, m)) as Hbn.
  { rewrite <- Hb0. unfold before. apply loanStateBefore_wait; [lia|].
    fold before. rewrite Hb0. cbn [fst]. reflexivity. }
  assert (before (n + 1)
          = (walkDay (n + len), addToDay m (key n) (- amount)%Qc)) as Hbn1.
  { unfold before. rewrite loanStateBefore_hit;
      [|lia|fold before; rewrite Hbn; cbn [fst]; reflexivity].
    fold before. rewrite Hbn. cbn [fst snd]. f_equal.
    rewrite <- advanceLoan_calendar, Hmonthly.
    rewrite advanceLoan_monthly by apply iterationDate_midnight.
    apply iterationDate_add. }
  pose proof (DaysInMonth_range (getFullYear tz (walkDay n)) (getMonth tz (walkDay n)))
    as Hlen. fold len in Hlen.
  split; [exact Hlen|].
  split; [apply Hhit; [lia | rewrite Hbn; cbn [fst]; reflexivity]|].
  split; [rewrite Hbn1; cbn [fst]; reflexivity|].
  split.
  - intros Hin. apply Hhit; [lia|].
    assert (before (n + len) = before (n + 1)) as ->.
    { unfold before. apply loanStateBefore_wait; [lia|].
      fold before. rewrite Hbn1. cbn [fst]. reflexivity. }
    rewrite Hbn1. cbn [fst]. reflexivity.
  - intros Hout k Hk. unfold final. rewrite loanWalk_is_before.
    assert (before (days + 1) = before (n + 1)) as Hrest.
    { unfold before. apply loanStateBefore_rest with (n := n + len); [lia | lia |].
      fold before. rewrite Hbn1. cbn [fst]. reflexivity. }
    fold before. rewrite Hrest, Hbn1. cbn [snd]. rewrite getOr0_addToDay.
    destruct (decide (key n = k)); [congruence | reflexivity].
Qed.

(** In the engine, for a profile without salary and with one loan, the
    per-day map is the map of the recorded incomes and expenses after the
    loop over the days of that loan. *)
Lemma transactionsByDay_single_loan (tz : Z) (clock : nat -> Z)
    (incomes : list IncomeItem) (expenses : list ExpenseItem)
    (p : UserProfile) (loan : LoanItem) :
  let today := todayOf tz clock in
  let days := effectiveProjectionDays today incomes expenses in
  ~ (0 < salaryIncome p)%Qc -> loans p = [loan] ->
  transactionsByDay tz clock incomes expenses (Some p)
  = (loanWalk tz today days loan (recordedTransactions today incomes expenses)).2.
Proof.
  intros today days Hs Hl. unfold transactionsByDay. fold today. fold days.
  unfold projectSalary.
  destruct (Qcltb 0 (salaryIncome p)) eqn:E; [apply Qcltb_lt in E; contradiction|].
  cbn [fst]. rewrite projectLoans_foldl, Hl. reflexivity.
Qed.

(** A monthly loan of 2000 due on 4 January 2024, three days after today,
    with a horizon of 40 days: 2000 is subtracted on 4 January (day 19726)
    and on 4 February (day 19757), 31 days later. *)
Lemma C5_monthly_loan_witness :
  let loan := loanDue LoanMonthly 2000 (jan1_2024 + 3 * msPerDay) in
  let final := (loanWalk 0 jan1_2024 40 loan ∅).2 in
  getOr0 final 19726 = (getOr0 ∅ 19726 - Qc_of_Z 2000)%Qc
  /\ getOr0 final 19757 = (getOr0 ∅ 19757 - Qc_of_Z 2000)%Qc.
Proof.
  pose proof (C5_loan_payments_recur 0 (clockAt jan1_2024)
                [incomeDue 5000 (jan1_2024 + 40 * msPerDay)] []
                (loanDue LoanMonthly 2000 (jan1_2024 + 3 * msPerDay)) ∅ 3)
    as (_ & _ & H).
  destruct (H eq_refl ltac:(vm_compute; split; discriminate) eq_refl)
    as (_ & H1 & _ & H2 & _).
  split; [exact H1 | apply H2; vm_compute; discriminate].
Defined.

(** C5 as stated fails: with that loan alone the horizon is 30 days, the
    payment of 4 February lies beyond it, and the per-day map holds the one
    deduction of 4 January and nothing else. *)
Lemma C5_counterexample_no_second_deduction :
  let p := profileWith 0 Monthly []
             [loanDue LoanMonthly 2000 (jan1_2024 + 3 * msPerDay)] in
  let m := transactionsByDay 0 (clockAt jan1_2024) [] [] (Some p) in
  effectiveProjectionDays (todayOf 0 (clockAt jan1_2024)) [] [] = 30
  /\ this <$> (m !! 19726) = Some (-2000 # 1)%Q
  /\ m !! 19757 = None
  /\ size m = 1%nat.
Proof. vm_compute. repeat split. Qed.

(** * Salary events *)

Section SalaryEventFacts.

Variable tz : Z.
Variable frequency : SalaryFrequency.
Variable amount : Qc.
Variable limit : Z.

Lemma salaryIteration_sameButClock (c1 c2 : nat -> Z) (st1 st2 : SalaryState) :
  sameButClock st1 st2 ->
  match salaryIteration tz c1 frequency amount limit st1,
        salaryIteration tz c2 frequency amount limit st2 with
  | Some st1', Some st2' => sameButClock st1' st2'
  | None, None => True
  | _, _ => False
  end.
Proof.
  intros (Ht & Hc & Hm & Hr & Hp). unfold salaryIteration.
  rewrite <- Ht, <- Hc.
  destruct ((tempDate st1 <=? limit) && (loopCount st1 <? 100)%nat); [|exact I].
  destruct (getNextPayday tz (tempDate st1) frequency) as [nextPay|]; [|exact I].
  destruct (nextPay <=? limit); [|exact I].
  unfold sameButClock. cbn [tempDate loopCount sal_txs reads sal_payments].
  rewrite Hm, Hc, Hr, !fmap_app, Hp. repeat split; try reflexivity.
  f_equal. cbn [fmap list_fmap]. unfold forgetCreatedAt, salaryPayment.
  cbn [inc_id client inc_amount dueDate status]. rewrite Hc. reflexivity.
Qed.

Lemma salaryLoop_sameButClock (c1 c2 : nat -> Z) (fuel : nat)
    (st1 st2 : SalaryState) :
  sameButClock st1 st2 ->
  sameButClock (salaryLoop tz fuel c1 frequency amount limit st1)
               (salaryLoop tz fuel c2 frequency amount limit st2).
Proof.
  revert st1 st2. induction fuel as [|fuel IH]; intros st1 st2 H; cbn [salaryLoop].
  - exact H.
  - pose proof (salaryIteration_sameButClock c1 c2 st1 st2 H) as Hstep.
    destruct (salaryIteration tz c1 frequency amount limit st1),
      (salaryIteration tz c2 frequency amount limit st2);
      [apply IH; exact Hstep | contradiction | contradiction | exact H].
Qed.

Lemma salaryLoop_same_clock (c1 c2 : nat -> Z) (fuel : nat) (st : SalaryState) :
  (forall n, c1 n = c2 n) ->
  salaryLoop tz fuel c1 frequency amount limit st
  = salaryLoop tz fuel c2 frequency amount limit st.
Proof.
  intros Hc. revert st. induction fuel as [|fuel IH]; intros st; cbn [salaryLoop].
  - reflexivity.
  - assert (salaryIteration tz c1 frequency amount limit st
            = salaryIteration tz c2 frequency amount limit st) as ->.
    { unfold salaryIteration, salaryPayment. now rewrite Hc. }
    destruct (salaryIteration tz c2 frequency amount limit st); [apply IH | reflexivity].
Qed.

(** Every payment carries the amount per pay period, is outstanding, and
    was created at the reading of the clock that follows the readings
    before it. *)
Lemma salaryLoop_payments (clock : nat -> Z) (fuel : nat) (st : SalaryState) :
  Forall (fun i => inc_amount i = amount /\ status i = Outstanding)
         (sal_payments st) ->
  Forall (fun i => inc_amount i = amount /\ status i = Outstanding)
         (sal_payments (salaryLoop tz fuel clock frequency amount limit st)).
Proof.
  revert st. induction fuel as [|fuel IH]; intros st H; cbn [salaryLoop].
  - exact H.
  - destruct (salaryIteration tz clock frequency amount limit st) as [st'|] eqn:E;
      [|exact H].
    apply IH. apply salaryIteration_Some in E as (nextPay & _ & _ & _ & _ & ->).
    cbn [sal_payments]. apply Forall_app. split; [exact H|].
    constructor; [split; reflexivity | constructor].
Qed.

End SalaryEventFacts.

Lemma projectSalary_sameButClock (tz : Z) (c1 c2 : nat -> Z)
    (today chartEnd : Z) (m : gmap Z Qc) (userProfile : option UserProfile) :
  (projectSalary tz c1 today chartEnd m userProfile).1
  = (projectSalary tz c2 today chartEnd m userProfile).1
  /\ forgetCreatedAt <$> (projectSalary tz c1 today chartEnd m userProfile).2
     = forgetCreatedAt <$> (projectSalary tz c2 today chartEnd m userProfile).2.
Proof.
  unfold projectSalary.
  destruct userProfile as [p|]; [|split; reflexivity].
  destruct (Qcltb 0 (salaryIncome p)); [|split; reflexivity].
  unfold salaryPaydays. cbn [fst snd].
  destruct (salaryLoop_sameButClock tz (salaryFrequency p) (salaryPerPayPeriod p)
              (projectionLimitDate tz chartEnd) c1 c2 100
              (salaryStart today m) (salaryStart today m))
    as (_ & _ & Hm & _ & Hp).
  { repeat split; reflexivity. }
  split; assumption.
Qed.

Lemma projectSalary_same_clock (tz : Z) (c1 c2 : nat -> Z)
    (today chartEnd : Z) (m : gmap Z Qc) (userProfile : option UserProfile) :
  (forall n, c1 n = c2 n) ->
  projectSalary tz c1 today chartEnd m userProfile
  = projectSalary tz c2 today chartEnd m userProfile.
Proof.
  intros Hc. unfold projectSalary.
  destruct userProfile as [p|]; [|reflexivity].
  destruct (Qcltb 0 (salaryIncome p)); [|reflexivity].
  unfold salaryPaydays.
  now rewrite (salaryLoop_same_clock tz _ _ _ c1 c2 100 _ Hc).
Qed.

(** C8 (amended): two runs of the engine on the same inputs, with clocks
    that give the same today, return the same series, the same shortfall
    date, and salary events that agree in every field except [createdAt],
    which is the reading of the clock when the event was made; when the
    clocks agree at every reading the two results are equal. *)
Theorem C8_same_inputs_same_output (tz : Z) (c1 c2 : nat -> Z)
    (currentBalance : Qc) (incomes : list IncomeItem)
    (expenses : list ExpenseItem) (userProfile : option UserProfile) :
  todayOf tz c1 = todayOf tz c2 ->
  let r1 := generateMockForecast tz c1 currentBalance incomes expenses
                                 userProfile in
  let r2 := generateMockForecast tz c2 currentBalance incomes expenses
                                 userProfile in
  forecastData r1 = forecastData r2
  /\ potentialShortfallDate r1 = potentialShortfallDate r2
  /\ forgetCreatedAt <$> projectedSalaryPayments r1
     = forgetCreatedAt <$> projectedSalaryPayments r2
  /\ ((forall n, c1 n = c2 n) -> r1 = r2).
Proof.
  intros Htoday r1 r2. subst r1 r2. unfold generateMockForecast.
  cbn [forecastData potentialShortfallDate projectedSalaryPayments].
  rewrite <- Htoday.
  set (today := todayOf tz c1).
  set (days := effectiveProjectionDays today incomes expenses).
  set (m := recordedTransactions today incomes expenses).
  destruct (projectSalary_sameButClock tz c1 c2 today (chartEndDate tz today days)
              m userProfile) as [Hm Hp].
  rewrite <- Hm.
  split; [reflexivity|]. split; [reflexivity|]. split; [exact Hp|].
  intros Hc.
  now rewrite (projectSalary_same_clock tz c1 c2 today _ m userProfile Hc).
Qed.

(** A clock that stands still and a clock that advances, both read first on
    1 January 2024: same series and same shortfall date. *)
Lemma C8_same_inputs_witness :
  let p := profileWith 30000 Monthly [deduction 5000] [] in
  let r1 := generateMockForecast 0 (clockAt jan1_2024) 0%Qc [] [] (Some p) in
  let r2 := generateMockForecast 0 (tickingFrom jan1_2024) 0%Qc [] [] (Some p) in
  forecastData r1 = forecastData r2
  /\ potentialShortfallDate r1 = potentialShortfallDate r2.
Proof.
  pose proof (C8_same_inputs_same_output 0 (clockAt jan1_2024)
                (tickingFrom jan1_2024) 0%Qc [] []
                (Some (profileWith 30000 Monthly [deduction 5000] [])) eq_refl)
    as (H1 & H2 & _).
  split; [exact H1 | exact H2].
Defined.

(** C8 as stated fails: with the same inputs and the same today, a clock
    that stands still and a clock that advances give salary events with
    different [createdAt], hence different results. *)
Lemma C8_counterexample_createdAt :
  let p := profileWith 30000 Monthly [deduction 5000] [] in
  let r1 := generateMockForecast 0 (clockAt jan1_2024) 0%Qc [] [] (Some p) in
  let r2 := generateMockForecast 0 (tickingFrom jan1_2024) 0%Qc [] [] (Some p) in
  todayOf 0 (clockAt jan1_2024) = todayOf 0 (tickingFrom jan1_2024)
  /\ inc_createdAt <$> projectedSalaryPayments r1 = [jan1_2024; jan1_2024]
  /\ inc_createdAt <$> projectedSalaryPayments r2 = [jan1_2024 + 1; jan1_2024 + 2]
  /\ r1 <> r2.
Proof.
  cbv zeta.
  assert (inc_createdAt <$> projectedSalaryPayments
            (generateMockForecast 0 (clockAt jan1_2024) 0%Qc [] []
               (Some (profileWith 30000 Monthly [deduction 5000] [])))
          = [jan1_2024; jan1_2024]) as H1 by (vm_compute; reflexivity).
  assert (inc_createdAt <$> projectedSalaryPayments
            (generateMockForecast 0 (tickingFrom jan1_2024) 0%Qc [] []
               (Some (profileWith 30000 Monthly [deduction 5000] [])))
          = [jan1_2024 + 1; jan1_2024 + 2]) as H2 by (vm_compute; reflexivity).
  split; [reflexivity|]. split; [exact H1|]. split; [exact H2|].
  intros E. rewrite E, H2 in H1. discriminate H1.
Qed.

(** * Amount and dates of the salary events *)

Lemma salary_payment_amounts (tz : Z) (clock : nat -> Z) (currentBalance : Qc)
    (incomes : list IncomeItem) (expenses : list ExpenseItem) (p : UserProfile) :
  Forall (fun i => inc_amount i = salaryPerPayPeriod p /\ status i = Outstanding)
         (projectedSalaryPayments
            (generateMockForecast tz clock currentBalance incomes expenses (Some p))).
Proof.
  unfold generateMockForecast. cbn [projectedSalaryPayments]. unfold projectSalary.
  destruct (Qcltb 0 (salaryIncome p)); [|constructor].
  unfold salaryPaydays. cbn [snd].
  apply salaryLoop_payments. constructor.
Qed.

(** Gross 30000, deductions of 5000 in all, one pay period per month: 25000
    per pay period. *)
Lemma monthly_net_salary (p : UserProfile) :
  salaryFrequency p = Monthly ->
  salaryIncome p = Qc_of_Z 30000 ->
  totalMonthlyDeductions (deductions p) = Qc_of_Z 5000 ->
  salaryPerPayPeriod p = Qc_of_Z 25000.
Proof.
  intros Hf Hs Hd. unfold salaryPerPayPeriod. rewrite Hf, Hs, Hd.
  apply Qc_is_canon. reflexivity.
Qed.

(** C4, on the code: today is 1 January 2024; the salary is monthly, 30000
    gross, with deductions of 3000 and 2000.  The engine makes two salary
    events within the horizon, each of 25000: one on 15 January, and one on
    31 January, which is not the 15th of its month. *)
Theorem C4_monthly_salary_paid_at_month_end :
  let p := profileWith 30000 Monthly [deduction 3000; deduction 2000] [] in
  let r := generateMockForecast 0 (clockAt jan1_2024) 0%Qc [] [] (Some p) in
  (fun i => (getFullYear 0 (dueDate i), getMonth 0 (dueDate i),
             getDate 0 (dueDate i), this (inc_amount i)))
    <$> projectedSalaryPayments r
  = [(2024, 0, 15, 25000%Q); (2024, 0, 31, 25000%Q)]
  /\ forallb (fun i => getDate 0 (dueDate i) =? 15) (projectedSalaryPayments r)
     = false.
Proof. vm_compute. split; reflexivity. Qed.

(** * From year, month and date to the day, and back *)

Lemma DayFromYear_mono (a b : Z) : a <= b -> DayFromYear a <= DayFromYear b.
Proof. intros H. unfold DayFromYear. Z.div_mod_to_equations. lia. Qed.

Lemma YearFromDay_unique (y n : Z) :
  DayFromYear y <= n < DayFromYear (y + 1) -> YearFromDay n = y.
Proof.
  intros Hn. pose proof (YearFromDay_spec n) as Hs.
  destruct (Z.lt_trichotomy (YearFromDay n) y) as [Hlt|[Heq|Hgt]]; [|exact Heq|].
  - pose proof (DayFromYear_mono (YearFromDay n + 1) y ltac:(lia)). lia.
  - pose proof (DayFromYear_mono (y + 1) (YearFromDay n) ltac:(lia)). lia.
Qed.

Lemma YearFromDay_mono (a b : Z) : a <= b -> YearFromDay a <= YearFromDay b.
Proof.
  intros H. pose proof (YearFromDay_spec a) as Ha. pose proof (YearFromDay_spec b) as Hb.
  destruct (Z.le_gt_cases (YearFromDay a) (YearFromDay b)) as [|Hgt]; [assumption|].
  pose proof (DayFromYear_mono (YearFromDay b + 1) (YearFromDay a) ltac:(lia)). lia.
Qed.

(** The year, month and date of the day made from a year, a month of the
    year and a date of that month are that year, month and date. *)
Lemma civil_of_MakeDay (y m dt : Z) :
  0 <= m <= 11 -> 1 <= dt <= DaysInMonth y m ->
  YearFromDay (MakeDay y m dt) = y
  /\ MonthFromDay (MakeDay y m dt) = m
  /\ DateFromDay (MakeDay y m dt) = dt.
Proof.
  intros Hm Hdt.
  assert (MakeDay y m dt
          = DayFromYear y
            + (monthStart m (if DaysInYear y =? 366 then 1 else 0) + dt - 1)) as Hn.
  { unfold MakeDay.
    rewrite (Z.div_small m 12), (Z.mod_small m 12), Z.add_0_r by lia. lia. }
  set (n := MakeDay y m dt) in *.
  set (leap := if DaysInYear y =? 366 then 1 else 0) in *.
  assert (m = 0 \/ m = 1 \/ m = 2 \/ m = 3 \/ m = 4 \/ m = 5 \/ m = 6
          \/ m = 7 \/ m = 8 \/ m = 9 \/ m = 10 \/ m = 11) as Hcases by lia.
  assert (0 <= monthStart m leap + dt - 1 < DaysInYear y
          /\ monthStart m leap <= monthStart m leap + dt - 1
             < monthStart m leap + DaysInMonth y m) as [Hw Hw'].
  { unfold DaysInMonth, leap in *.
    destruct (DaysInYear_cases y) as [E|E]; rewrite E in *; cbn [Z.eqb Pos.eqb] in *;
      destruct Hcases as [->|[->|[->|[->|[->|[->|[->|[->|[->|[->|[->| ->]]]]]]]]]]];
      cbn in *; lia. }
  assert (YearFromDay n = y) as Hy.
  { apply YearFromDay_unique. rewrite DayFromYear_succ. lia. }
  assert (DayWithinYear n = monthStart m leap + dt - 1) as Hd.
  { unfold DayWithinYear. rewrite Hy. lia. }
  assert (InLeapYear n = leap) as Hl.
  { unfold InLeapYear. now rewrite Hy. }
  assert (MonthFromDay n = m) as Hmo.
  { unfold MonthFromDay. rewrite Hd, Hl. clear Hn Hy Hd Hl Hw.
    unfold DaysInMonth, leap in *.
    destruct (DaysInYear_cases y) as [E|E]; rewrite E in *; cbn [Z.eqb Pos.eqb] in *;
      destruct Hcases as [->|[->|[->|[->|[->|[->|[->|[->|[->|[->|[->| ->]]]]]]]]]]];
      cbn in Hw'; cbn [monthStart];
      repeat match goal with
        | |- context [if ?a <? ?b then _ else _] => destruct (Z.ltb_spec a b); try lia
        end; reflexivity. }
  split; [exact Hy|]. split; [exact Hmo|].
  unfold DateFromDay. rewrite Hd, Hl, Hmo. lia.
Qed.

(** The first day of the month of a day. *)
Lemma month_of_day (d : Z) :
  d = MakeDay (YearFromDay d) (MonthFromDay d) 1 + (DateFromDay d - 1).
Proof.
  pose proof (MakeDay_of_day d (1 - DateFromDay d)) as H.
  replace (DateFromDay d + (1 - DateFromDay d)) with 1 in H by lia. lia.
Qed.

(** Two days are in the same month when one lies between the first and the
    last day of the month of the other. *)
Lemma same_month (d e : Z) :
  let first := MakeDay (YearFromDay e) (MonthFromDay e) 1 in
  first <= d < first + DaysInMonth (YearFromDay e) (MonthFromDay e) ->
  YearFromDay d = YearFromDay e /\ MonthFromDay d = MonthFromDay e
  /\ DateFromDay d = d - first + 1.
Proof.
  intros first Hd.
  pose proof (MonthFromDay_range e) as Hm.
  assert (d = MakeDay (YearFromDay e) (MonthFromDay e) (d - first + 1)) as Hmk.
  { unfold first, MakeDay. lia. }
  destruct (civil_of_MakeDay (YearFromDay e) (MonthFromDay e) (d - first + 1) Hm)
    as (Hy & Hmo & Hdt); [lia|].
  rewrite <- Hmk in Hy, Hmo, Hdt. auto.
Qed.

(** * Local days *)

Section LocalDayFacts.

Variable tz : Z.

Lemma localDay_add_days (t k : Z) :
  localDay tz (t + k * msPerDay) = localDay tz t + k.
Proof.
  unfold localDay, LocalTime.
  replace (t + k * msPerDay + tz) with (t + tz + k * msPerDay) by lia.
  apply Day_add_days.
Qed.

Lemma localDay_setHours0 (t : Z) : localDay tz (setHours0 tz t) = localDay tz t.
Proof.
  unfold localDay, setHours0, UTC, LocalTime, MakeDate, Day.
  replace (t + tz) with (t + tz) by reflexivity.
  replace ((t + tz) / msPerDay * msPerDay + 0 - tz + tz)
    with (0 + (t + tz) / msPerDay * msPerDay) by lia.
  rewrite Z.div_add by discriminate. reflexivity.
Qed.

Lemma midnight_eq (t : Z) : isMidnight tz t -> t = localDay tz t * msPerDay - tz.
Proof.
  unfold isMidnight, setHours0, UTC, MakeDate, localDay. lia.
Qed.

Lemma setHours0_midnight (t : Z) : isMidnight tz (setHours0 tz t).
Proof. apply setHours0_idem. Qed.

Lemma midnight_add_days (t k : Z) :
  isMidnight tz t -> isMidnight tz (t + k * msPerDay).
Proof. unfold isMidnight. intros H. now rewrite setHours0_add_days, H. Qed.

(** Midnights are ordered as their days are. *)
Lemma midnight_lt (s t : Z) :
  isMidnight tz s -> isMidnight tz t -> (s < t <-> localDay tz s < localDay tz t).
Proof.
  intros Hs Ht. rewrite (midnight_eq s Hs) at 1. rewrite (midnight_eq t Ht) at 1.
  unfold msPerDay. lia.
Qed.

Lemma midnight_le_localDay (s t : Z) :
  isMidnight tz s -> (s <= t <-> localDay tz s <= localDay tz t).
Proof.
  intros Hs. rewrite (midnight_eq s Hs) at 1.
  unfold localDay, LocalTime, Day.
  pose proof (div_mod_msPerDay (t + tz)) as [H1 H2].
  unfold msPerDay in *. lia.
Qed.

(** Setting the date to a day of the same month moves the date by the
    difference of the days and keeps year and month. *)
Lemma setDate_in_month (t k : Z) :
  1 <= k <= DaysInMonth (getFullYear tz t) (getMonth tz t) ->
  setDate tz t k = t + (k - getDate tz t) * msPerDay
  /\ getFullYear tz (setDate tz t k) = getFullYear tz t
  /\ getMonth tz (setDate tz t k) = getMonth tz t
  /\ getDate tz (setDate tz t k) = k.
Proof.
  intros Hk.
  assert (setDate tz t k = t + (k - getDate tz t) * msPerDay) as Hs.
  { rewrite <- (setDate_getDate tz t (k - getDate tz t)). f_equal. lia. }
  split; [exact Hs|]. rewrite Hs.
  unfold getFullYear, getMonth, getDate in *. fold (localDay tz t) in *.
  fold (localDay tz (t + (k - DateFromDay (localDay tz t)) * msPerDay)).
  rewrite localDay_add_days.
  pose proof (MakeDay_of_day (localDay tz t) (k - DateFromDay (localDay tz t))) as Hm.
  replace (DateFromDay (localDay tz t) + (k - DateFromDay (localDay tz t)))
    with k in Hm by lia.
  rewrite <- Hm.
  apply civil_of_MakeDay; [apply MonthFromDay_range | exact Hk].
Qed.

Lemma getDate_range (t : Z) :
  1 <= getDate tz t <= DaysInMonth (getFullYear tz t) (getMonth tz t).
Proof. apply DateFromDay_range. Qed.

Lemma getMonth_range (t : Z) : 0 <= getMonth tz t <= 11.
Proof. apply MonthFromDay_range. Qed.

End LocalDayFacts.

(** * The weekly payday *)

Lemma weekly_payday_spec (tz currentDate : Z) :
  exists k : Z,
    1 <= k <= 7
    /\ getNextPayday tz currentDate Weekly
       = Some (setHours0 tz currentDate + k * msPerDay)
    /\ getDay tz (setHours0 tz currentDate + k * msPerDay) = 1
    /\ isMidnight tz (setHours0 tz currentDate + k * msPerDay)
    /\ currentDate < setHours0 tz currentDate + k * msPerDay.
Proof.
  set (t0 := setHours0 tz currentDate).
  set (w := getDay tz t0).
  set (k := if w =? 0 then 1 else if w =? 1 then 7 else 8 - w).
  assert (0 <= w < 7) as Hw by (apply Z.mod_pos_bound; lia).
  assert (1 <= k <= 7) as Hk.
  { unfold k. destruct (Z.eqb_spec w 0); [lia|]. destruct (Z.eqb_spec w 1); lia. }
  pose proof (setHours0_le tz currentDate) as Hle. fold t0 in Hle.
  exists k. split; [exact Hk|].
  split.
  { unfold getNextPayday. fold t0. fold w. fold k.
    rewrite setDate_getDate.
    destruct (Z.ltb_spec (t0 + k * msPerDay) currentDate) as [Hlt|_].
    - unfold msPerDay in *. lia.
    - rewrite setHours0_add_days. unfold t0. now rewrite setHours0_idem. }
  split.
  { unfold getDay. fold (localDay tz (t0 + k * msPerDay)).
    rewrite localDay_add_days.
    unfold w, getDay in *. fold (localDay tz t0) in *.
    unfold WeekDay in *. unfold k.
    destruct (Z.eqb_spec ((localDay tz t0 + 4) mod 7) 0) as [E0|E0];
      [|destruct (Z.eqb_spec ((localDay tz t0 + 4) mod 7) 1) as [E1|E1]];
      Z.div_mod_to_equations; lia. }
  split.
  { apply midnight_add_days, setHours0_midnight. }
  unfold msPerDay in *. lia.
Qed.

(** X1: the weekly payday is the first Monday after the day of the cursor: a
    local midnight, one to seven days after the midnight of the cursor's
    day, and after the cursor. *)
Theorem weekly_payday_is_next_monday (tz currentDate : Z) :
  exists k : Z,
    1 <= k <= 7
    /\ getNextPayday tz currentDate Weekly
       = Some (setHours0 tz currentDate + k * msPerDay)
    /\ getDay tz (setHours0 tz currentDate + k * msPerDay) = 1
    /\ isMidnight tz (setHours0 tz currentDate + k * msPerDay)
    /\ currentDate < setHours0 tz currentDate + k * msPerDay.
Proof. exact (weekly_payday_spec tz currentDate). Qed.

(** * The monthly payday *)

Lemma MakeDay_date_shift (y m d k : Z) : MakeDay y m (d + k) = MakeDay y m d + k.
Proof. unfold MakeDay. lia. Qed.

(** The day as many days later as the month has is the same day of the
    next month, for a date that every month has. *)
Lemma day_next_month (d : Z) :
  DateFromDay d <= 28 ->
  let e := d + DaysInMonth (YearFromDay d) (MonthFromDay d) in
  YearFromDay e = YearFromDay d + (MonthFromDay d + 1) / 12
  /\ MonthFromDay e = (MonthFromDay d + 1) mod 12
  /\ DateFromDay e = DateFromDay d.
Proof.
  intros Hdt e.
  pose proof (MonthFromDay_range d) as Hm. pose proof (DateFromDay_range d) as Hd.
  pose proof (MakeDay_of_day d 0) as H0. rewrite !Z.add_0_r in H0.
  assert (e = MakeDay (YearFromDay d + (MonthFromDay d + 1) / 12)
                      ((MonthFromDay d + 1) mod 12) (DateFromDay d)) as He.
  { unfold e. rewrite <- H0 at 1.
    rewrite <- MakeDay_month_succ by exact Hm.
    unfold MakeDay. rewrite Zmod_mod.
    replace (((MonthFromDay d + 1) mod 12) / 12) with 0
      by (symmetry; apply Z.div_small; apply Z.mod_pos_bound; lia).
    now rewrite Z.add_0_r. }
  clearbody e. rewrite He.
  apply civil_of_MakeDay.
  - pose proof (Z.mod_pos_bound (MonthFromDay d + 1) 12). lia.
  - pose proof (DaysInMonth_range (YearFromDay d + (MonthFromDay d + 1) / 12)
                                  ((MonthFromDay d + 1) mod 12)). lia.
Qed.

Section MonthlyFacts.

Variable tz : Z.

Lemma getFullYear_localDay (t : Z) : getFullYear tz t = YearFromDay (localDay tz t).
Proof. reflexivity. Qed.

Lemma getMonth_localDay (t : Z) : getMonth tz t = MonthFromDay (localDay tz t).
Proof. reflexivity. Qed.

Lemma getDate_localDay (t : Z) : getDate tz t = DateFromDay (localDay tz t).
Proof. reflexivity. Qed.

(** One month after a midnight whose date exists in every month: the date
    as many days later as the month has, the same day of the next month. *)
Lemma next_month_fields (t : Z) :
  isMidnight tz t -> getDate tz t <= 28 ->
  let t' := setMonth tz t (getMonth tz t + 1) in
  t' = t + DaysInMonth (getFullYear tz t) (getMonth tz t) * msPerDay
  /\ isMidnight tz t'
  /\ getFullYear tz t' = getFullYear tz t + (getMonth tz t + 1) / 12
  /\ getMonth tz t' = (getMonth tz t + 1) mod 12
  /\ getDate tz t' = getDate tz t.
Proof.
  intros Hmid Hdt t'.
  assert (t' = t + DaysInMonth (getFullYear tz t) (getMonth tz t) * msPerDay) as Ht'
    by (apply setMonth_next; exact Hmid).
  clearbody t'. subst t'.
  split; [reflexivity|]. split; [now apply midnight_add_days|].
  rewrite (getFullYear_localDay (t + _)), (getMonth_localDay (t + _)),
    (getDate_localDay (t + _)), localDay_add_days.
  rewrite !getFullYear_localDay, !getMonth_localDay, !getDate_localDay in *.
  now apply day_next_month.
Qed.

Lemma next_month_differs (m : Z) : 0 <= m <= 11 -> (m + 1) mod 12 <> m.
Proof. intros H. Z.div_mod_to_equations. lia. Qed.

End MonthlyFacts.

Lemma monthly_payday_spec (tz currentDate : Z) :
  isMidnight tz currentDate ->
  let y := getFullYear tz currentDate in
  let m := getMonth tz currentDate in
  let dt := getDate tz currentDate in
  let last := DaysInMonth y m in
  (dt <= 15 ->
   getNextPayday tz currentDate Monthly
   = Some (currentDate + (15 - dt) * msPerDay)
   /\ getMonth tz (currentDate + (15 - dt) * msPerDay) = m
   /\ getDate tz (currentDate + (15 - dt) * msPerDay) = 15)
  /\ (15 < dt -> 100 <= y ->
      getNextPayday tz currentDate Monthly
      = Some (currentDate + (last - dt) * msPerDay)
      /\ getMonth tz (currentDate + (last - dt) * msPerDay) = m
      /\ getDate tz (currentDate + (last - dt) * msPerDay) = last).
Proof.
  intros Hmid. cbv zeta.
  pose proof (getMonth_range tz currentDate) as Hm.
  pose proof (getDate_range tz currentDate) as Hd.
  pose proof (DaysInMonth_range (getFullYear tz currentDate) (getMonth tz currentDate))
    as Hlast.
  destruct (setDate_in_month tz currentDate 15) as (H1 & H1y & H1m & H1d); [lia|].
  destruct (setDate_in_month tz currentDate
              (DaysInMonth (getFullYear tz currentDate) (getMonth tz currentDate)))
    as (H4 & _ & H4m & H4d); [lia|].
  unfold getNextPayday.
  unfold isMidnight in Hmid. rewrite Hmid.
  remember (getFullYear tz currentDate) as y eqn:Ey.
  remember (getMonth tz currentDate) as m eqn:Em.
  remember (getDate tz currentDate) as dt eqn:Edt.
  remember (DaysInMonth y m) as last eqn:Elast.
  remember (setDate tz currentDate 15) as n1 eqn:En1.
  assert (isMidnight tz n1) as Hmid1 by (rewrite H1; now apply midnight_add_days).
  assert (Z.rem m 12 = m) as Hrem by (apply Z.rem_small; lia).
  rewrite <- H4, <- H1.
  split.
  - intros Hle.
    assert ((n1 <? currentDate) = false) as E1
      by (apply Z.ltb_ge; rewrite H1; unfold msPerDay; lia).
    rewrite E1. rewrite H1d, H1m.
    replace (15 <? dt) with false by (symmetry; apply Z.ltb_ge; lia).
    cbn [andb]. rewrite E1, Z.add_0_r, Hrem, H1m, Z.eqb_refl. cbn [negb].
    rewrite Hmid1. auto.
  - intros Hgt Hy.
    assert ((n1 <? currentDate) = true) as E1
      by (apply Z.ltb_lt; rewrite H1; unfold msPerDay; lia).
    rewrite E1. rewrite H1m.
    destruct (next_month_fields tz n1 Hmid1) as (H2 & Hmid2 & H2y & H2m & H2d); [lia|].
    rewrite H1y, H1m, H1d in *.
    remember (setMonth tz n1 (m + 1)) as n2 eqn:En2.
    assert (setDate tz n2 15 = n2) as H3.
    { destruct (setDate_in_month tz n2 15) as (H3 & _).
      - pose proof (DaysInMonth_range (getFullYear tz n2) (getMonth tz n2)). lia.
      - rewrite H3, H2d. lia. }
    rewrite H3, H2d, H2m.
    replace (15 <? dt) with true by (symmetry; apply Z.ltb_lt; lia).
    assert (((m + 1) mod 12 =? m) = false) as E2
      by (apply Z.eqb_neq, next_month_differs; lia).
    rewrite E2. cbn [andb]. rewrite H2m.
    assert ((n2 <? currentDate) = false) as E3
      by (apply Z.ltb_ge; rewrite H2, H1, <- Elast; unfold msPerDay; lia).
    rewrite E3, Z.add_0_r, Hrem, E2. cbn [negb].
    assert (newDateYMD tz (getFullYear tz n2) ((m + 1) mod 12) 0
            = setDate tz currentDate last) as Hnew.
    { unfold newDateYMD.
      replace ((0 <=? getFullYear tz n2) && (getFullYear tz n2 <=? 99)) with false.
      2:{ symmetry. apply andb_false_iff. right. apply Z.leb_gt.
          rewrite H2y. pose proof (Z.div_pos (m + 1) 12). lia. }
      pose proof (MakeDay_of_day (localDay tz n2) (- DateFromDay (localDay tz n2)))
        as Hmk.
      rewrite Z.add_opp_diag_r in Hmk.
      rewrite <- H2m, getFullYear_localDay, getMonth_localDay, Hmk.
      rewrite getDate_localDay in H2d. rewrite H2d.
      pose proof (midnight_eq tz n2 Hmid2) as E.
      assert (n2 = currentDate + (15 - dt + last) * msPerDay) as E'
        by (rewrite H2, H1, Elast; lia).
      unfold UTC, MakeDate. rewrite H4.
      unfold msPerDay in *. lia. }
    rewrite Hnew.
    assert (isMidnight tz (setDate tz currentDate last)) as Hmid4
      by (rewrite H4; now apply midnight_add_days).
    rewrite Hmid4. auto.
Qed.

(** X2: the monthly payday for a cursor at midnight.  Up to the 15th it is the
    15th of the month of the cursor.  After the 15th it is the last day of
    the month of the cursor (for years from 100 on, which [new Date(y, m, d)]
    takes as they are). *)
Theorem monthly_payday (tz currentDate : Z) :
  isMidnight tz currentDate ->
  let y := getFullYear tz currentDate in
  let m := getMonth tz currentDate in
  let dt := getDate tz currentDate in
  let last := DaysInMonth y m in
  (dt <= 15 ->
   getNextPayday tz currentDate Monthly
   = Some (currentDate + (15 - dt) * msPerDay)
   /\ getMonth tz (currentDate + (15 - dt) * msPerDay) = m
   /\ getDate tz (currentDate + (15 - dt) * msPerDay) = 15)
  /\ (15 < dt -> 100 <= y ->
      getNextPayday tz currentDate Monthly
      = Some (currentDate + (last - dt) * msPerDay)
      /\ getMonth tz (currentDate + (last - dt) * msPerDay) = m
      /\ getDate tz (currentDate + (last - dt) * msPerDay) = last).
Proof. exact (monthly_payday_spec tz currentDate). Qed.

(** On 20 January 2024 the monthly payday is 31 January 2024. *)
Lemma monthly_payday_witness :
  isMidnight 0 (jan1_2024 + 19 * msPerDay)
  /\ getNextPayday 0 (jan1_2024 + 19 * msPerDay) Monthly
     = Some (jan1_2024 + 30 * msPerDay).
Proof.
  split; [reflexivity|].
  destruct (monthly_payday 0 (jan1_2024 + 19 * msPerDay) eq_refl) as [_ H].
  destruct (H ltac:(vm_compute; reflexivity) ltac:(vm_compute; discriminate))
    as [H1 _].
  exact H1.
Defined.

(** * The fortnightly payday *)

(** The first day of the month of the day one month's length after [d] is
    after [d]. *)
Lemma first_of_later_month (d : Z) :
  let e := d + DaysInMonth (YearFromDay d) (MonthFromDay d) in
  d < e - (DateFromDay e - 1).
Proof.
  intros e.
  assert (e = d + DaysInMonth (YearFromDay d) (MonthFromDay d)) as E by reflexivity.
  clearbody e.
  destruct (Z.lt_ge_cases d (e - (DateFromDay e - 1))) as [|Hge]; [assumption|].
  exfalso.
  pose proof (month_of_day e) as He.
  pose proof (DateFromDay_range e) as Hr.
  pose proof (DaysInMonth_range (YearFromDay d) (MonthFromDay d)) as Hl.
  destruct (same_month d e) as (Hy & Hm & _); [cbv zeta; lia|].
  rewrite Hy, Hm in E. lia.
Qed.

Lemma fortnightly_payday_spec (tz currentDate : Z) :
  isMidnight tz currentDate ->
  let y := getFullYear tz currentDate in
  let m := getMonth tz currentDate in
  let dt := getDate tz currentDate in
  (dt <= 1 -> getNextPayday tz currentDate Fortnightly = Some currentDate)
  /\ (1 < dt <= 15 ->
      getNextPayday tz currentDate Fortnightly
      = Some (currentDate + (15 - dt) * msPerDay)
      /\ getDate tz (currentDate + (15 - dt) * msPerDay) = 15)
  /\ (15 < dt ->
      exists p : Z,
        getNextPayday tz currentDate Fortnightly = Some p
        /\ isMidnight tz p /\ getDate tz p = 1 /\ currentDate < p
        /\ (dt <= 28 -> p = currentDate + (DaysInMonth y m - dt + 1) * msPerDay)).
Proof.
  intros Hmid. cbv zeta.
  pose proof (getMonth_range tz currentDate) as Hm.
  pose proof (getDate_range tz currentDate) as Hd.
  pose proof (DaysInMonth_range (getFullYear tz currentDate) (getMonth tz currentDate))
    as Hlast.
  destruct (setDate_in_month tz currentDate 1) as (H0 & _); [lia|].
  destruct (setDate_in_month tz currentDate 15) as (H1 & _ & _ & H1d); [lia|].
  pose proof (setMonth_next tz currentDate Hmid) as H2.
  unfold getNextPayday.
  pose proof Hmid as Hmid'. unfold isMidnight in Hmid'. rewrite Hmid'.
  remember (getFullYear tz currentDate) as y eqn:Ey.
  remember (getMonth tz currentDate) as m eqn:Em.
  remember (getDate tz currentDate) as dt eqn:Edt.
  remember (DaysInMonth y m) as last eqn:Elast.
  split; [|split].
  - intros Hle.
    replace (dt <=? 1) with true by (symmetry; apply Z.leb_le; lia).
    rewrite H0. replace (1 - dt) with 0 by lia. rewrite Z.mul_0_l, Z.add_0_r.
    rewrite Z.ltb_irrefl, Hmid'. reflexivity.
  - intros Hle.
    replace (dt <=? 1) with false by (symmetry; apply Z.leb_gt; lia).
    replace (dt <=? 15) with true by (symmetry; apply Z.leb_le; lia).
    rewrite <- H1.
    replace (setDate tz currentDate 15 <? currentDate) with false
      by (symmetry; apply Z.ltb_ge; rewrite H1; unfold msPerDay; lia).
    assert (isMidnight tz (setDate tz currentDate 15)) as Hmid1
      by (rewrite H1; now apply midnight_add_days).
    rewrite Hmid1. auto.
  - intros Hgt.
    replace (dt <=? 1) with false by (symmetry; apply Z.leb_gt; lia).
    replace (dt <=? 15) with false by (symmetry; apply Z.leb_gt; lia).
    remember (setMonth tz currentDate (m + 1)) as n2 eqn:En2.
    assert (isMidnight tz n2) as Hmid2 by (rewrite H2; now apply midnight_add_days).
    destruct (setDate_in_month tz n2 1) as (H3 & _ & _ & H3d).
    { pose proof (DaysInMonth_range (getFullYear tz n2) (getMonth tz n2)). lia. }
    assert (isMidnight tz (setDate tz n2 1)) as Hmid3
      by (rewrite H3; now apply midnight_add_days).
    assert (currentDate < setDate tz n2 1) as Hlt.
    { apply (midnight_lt tz _ _ Hmid Hmid3).
      rewrite H3, localDay_add_days, getDate_localDay.
      rewrite H2, localDay_add_days, Elast, Ey, Em,
        getFullYear_localDay, getMonth_localDay.
      pose proof (first_of_later_month (localDay tz currentDate)) as Hf.
      cbv zeta in Hf. lia. }
    exists (setDate tz n2 1).
    replace (setDate tz n2 1 <? currentDate) with false
      by (symmetry; apply Z.ltb_ge; lia).
    rewrite Hmid3. repeat split; try assumption.
    intros H28.
    destruct (next_month_fields tz currentDate Hmid) as (_ & _ & _ & _ & H2d);
      [lia|].
    rewrite <- Em, <- En2, <- Edt in H2d.
    rewrite H3, H2d, H2. lia.
Qed.

(** X3: the fortnightly payday for a cursor at midnight.  On the 1st it is the
    cursor itself; from the 2nd to the 15th it is the 15th of the month;
    after the 15th it is the first day of a later month: of the next month
    when the date of the cursor is at most 28. *)
Theorem fortnightly_payday (tz currentDate : Z) :
  isMidnight tz currentDate ->
  let y := getFullYear tz currentDate in
  let m := getMonth tz currentDate in
  let dt := getDate tz currentDate in
  (dt <= 1 -> getNextPayday tz currentDate Fortnightly = Some currentDate)
  /\ (1 < dt <= 15 ->
      getNextPayday tz currentDate Fortnightly
      = Some (currentDate + (15 - dt) * msPerDay)
      /\ getDate tz (currentDate + (15 - dt) * msPerDay) = 15)
  /\ (15 < dt ->
      exists p : Z,
        getNextPayday tz currentDate Fortnightly = Some p
        /\ isMidnight tz p /\ getDate tz p = 1 /\ currentDate < p
        /\ (dt <= 28 -> p = currentDate + (DaysInMonth y m - dt + 1) * msPerDay)).
Proof. exact (fortnightly_payday_spec tz currentDate). Qed.

(** On 10 January 2024 the fortnightly payday is 15 January 2024. *)
Lemma fortnightly_payday_witness :
  isMidnight 0 (jan1_2024 + 9 * msPerDay)
  /\ getNextPayday 0 (jan1_2024 + 9 * msPerDay) Fortnightly
     = Some (jan1_2024 + 14 * msPerDay).
Proof.
  split; [reflexivity|].
  destruct (fortnightly_payday 0 (jan1_2024 + 9 * msPerDay) eq_refl)
    as (_ & H & _).
  destruct (H ltac:(split; vm_compute; [reflexivity | discriminate])) as [H1 _].
  exact H1.
Defined.


(** * Paydays are not before the cursor *)

Lemma getFullYear_mono (tz s t : Z) : s <= t -> getFullYear tz s <= getFullYear tz t.
Proof.
  intros H. unfold getFullYear. apply YearFromDay_mono.
  unfold Day, LocalTime. apply Z.div_le_mono; [reflexivity | lia].
Qed.

(** For a cursor at midnight (in a year from 100 on), the payday of every
    frequency is a midnight on or after the cursor. *)
Lemma getNextPayday_not_before (tz currentDate : Z) (f : SalaryFrequency) :
  isMidnight tz currentDate -> 100 <= getFullYear tz currentDate ->
  exists p : Z,
    getNextPayday tz currentDate f = Some p
    /\ isMidnight tz p /\ currentDate <= p.
Proof.
  intros Hmid Hy.
  pose proof (getDate_range tz currentDate) as Hd.
  pose proof (DaysInMonth_range (getFullYear tz currentDate) (getMonth tz currentDate))
    as Hlast.
  destruct f.
  - destruct (weekly_payday_spec tz currentDate)
      as (k & Hk & -> & _ & Hm & Hlt).
    eexists. split; [reflexivity|]. split; [exact Hm | lia].
  - destruct (fortnightly_payday_spec tz currentDate Hmid) as (F1 & F2 & F3).
    destruct (Z.le_gt_cases (getDate tz currentDate) 1) as [H1|H1].
    { rewrite (F1 H1). eexists. split; [reflexivity|]. split; [exact Hmid | lia]. }
    destruct (Z.le_gt_cases (getDate tz currentDate) 15) as [H15|H15].
    { destruct (F2 (conj H1 H15)) as [-> _]. eexists. split; [reflexivity|].
      split; [now apply midnight_add_days | unfold msPerDay; lia]. }
    destruct (F3 H15) as (p & -> & Hp & _ & Hlt & _).
    exists p. split; [reflexivity|]. split; [exact Hp | lia].
  - destruct (monthly_payday_spec tz currentDate Hmid) as (M1 & M2).
    destruct (Z.le_gt_cases (getDate tz currentDate) 15) as [H15|H15].
    { destruct (M1 H15) as [-> _]. eexists. split; [reflexivity|].
      split; [now apply midnight_add_days | unfold msPerDay; lia]. }
    destruct (M2 H15 Hy) as [-> _]. eexists. split; [reflexivity|].
    split; [now apply midnight_add_days | unfold msPerDay; lia].
Qed.

(** * Order of the salary events *)

Lemma StronglySorted_snoc {A} (R : A -> A -> Prop) (l : list A) (x : A) :
  StronglySorted R l -> Forall (fun y => R y x) l -> StronglySorted R (l ++ [x]).
Proof.
  induction 1 as [|y l Hs IH Hy]; intros Hx; cbn.
  - repeat constructor.
  - inversion Hx; subst. constructor; [auto|].
    apply Forall_app. split; [assumption | repeat constructor; assumption].
Qed.

Section SalaryOrder.

Variable tz : Z.
Variable clock : nat -> Z.
Variable frequency : SalaryFrequency.
Variable amount : Qc.
Variable limit : Z.
Variable today : Z.

Local Abbreviation salaryOrdered := (salaryOrdered tz today).

Hypothesis today_year : 100 <= getFullYear tz today.

Lemma salaryIteration_ordered (st st' : SalaryState) :
  salaryOrdered st ->
  salaryIteration tz clock frequency amount limit st = Some st' ->
  salaryOrdered st'.
Proof.
  intros (Hmid & Hge & Hall & Hsorted) Hstep.
  apply salaryIteration_Some in Hstep as (p & Hp & _ & _ & _ & ->).
  destruct (getNextPayday_not_before tz (tempDate st) frequency Hmid)
    as (p' & Hp' & Hpm & Hple).
  { pose proof (getFullYear_mono tz today (tempDate st) Hge). lia. }
  rewrite Hp in Hp'. injection Hp' as <-.
  unfold salaryOrdered. cbn [tempDate sal_payments].
  split; [now apply midnight_add_days|].
  split; [unfold msPerDay; lia|].
  split.
  - apply Forall_app. split.
    + eapply Forall_impl; [exact Hall|]. cbn. intros i (H1 & H2 & H3).
      split; [exact H1|]. unfold msPerDay. lia.
    + repeat constructor; cbn [salaryPayment dueDate]; [exact Hpm | lia |].
      unfold msPerDay. lia.
  - rewrite fmap_app. apply StronglySorted_snoc; [exact Hsorted|].
    apply Forall_fmap. eapply Forall_impl; [exact Hall|]. cbn.
    intros i (_ & _ & H3). lia.
Qed.

Lemma salaryLoop_ordered (fuel : nat) (st : SalaryState) :
  salaryOrdered st ->
  salaryOrdered (salaryLoop tz fuel clock frequency amount limit st).
Proof.
  revert st. induction fuel as [|fuel IH]; intros st H; cbn [salaryLoop]; [exact H|].
  destruct (salaryIteration tz clock frequency amount limit st) as [st'|] eqn:E;
    [|exact H].
  apply IH. eapply salaryIteration_ordered; eassumption.
Qed.

End SalaryOrder.

(** X4: the salary events of a forecast are due on local midnights, none before
    today, each on a later day than the one before it (for a today in a
    year from 100 on). *)
Theorem salary_events_increase (tz : Z) (clock : nat -> Z) (currentBalance : Qc)
    (incomes : list IncomeItem) (expenses : list ExpenseItem)
    (userProfile : option UserProfile) :
  100 <= getFullYear tz (todayOf tz clock) ->
  let r := generateMockForecast tz clock currentBalance incomes expenses
                                userProfile in
  StronglySorted Z.lt (dueDate <$> projectedSalaryPayments r)
  /\ Forall (fun i => isMidnight tz (dueDate i) /\ todayOf tz clock <= dueDate i)
            (projectedSalaryPayments r).
Proof.
  intros Hy r. subst r. unfold generateMockForecast.
  cbn [projectedSalaryPayments]. unfold projectSalary.
  destruct userProfile as [p|]; [|split; constructor].
  destruct (Qcltb 0 (salaryIncome p)); [|split; constructor].
  unfold salaryPaydays. cbn [snd].
  set (today := todayOf tz clock) in *.
  destruct (salaryLoop_ordered tz clock (salaryFrequency p) (salaryPerPayPeriod p)
              (projectionLimitDate tz
                 (chartEndDate tz today (effectiveProjectionDays today incomes expenses)))
              today Hy 100
              (salaryStart today (recordedTransactions today incomes expenses)))
    as (_ & _ & Hall & Hsorted).
  { unfold salaryOrdered. cbn [salaryStart tempDate sal_payments].
    split; [apply todayOf_midnight|]. split; [lia|]. split; constructor. }
  split; [exact Hsorted|].
  eapply Forall_impl; [exact Hall|]. cbn. intros i (H1 & H2 & _). auto.
Qed.

(** On 1 January 2024, for a fortnightly salary of 30000: the salary events
    are due on increasing local midnights from today on. *)
Lemma salary_events_increase_witness :
  let r := generateMockForecast 0 (clockAt jan1_2024) 0%Qc [] []
             (Some (profileWith 30000 Fortnightly [] [])) in
  100 <= getFullYear 0 (todayOf 0 (clockAt jan1_2024))
  /\ StronglySorted Z.lt (dueDate <$> projectedSalaryPayments r)
  /\ Forall (fun i => isMidnight 0 (dueDate i)
                      /\ todayOf 0 (clockAt jan1_2024) <= dueDate i)
            (projectedSalaryPayments r).
Proof.
  assert (100 <= getFullYear 0 (todayOf 0 (clockAt jan1_2024))) as Hy
    by (vm_compute; discriminate).
  split; [exact Hy|].
  exact (salary_events_increase 0 (clockAt jan1_2024) 0%Qc [] []
           (Some (profileWith 30000 Fortnightly [] [])) Hy).
Defined.

(** * The payday rule of the Profile page *)

Lemma getDate_setHours0 (tz t : Z) : getDate tz (setHours0 tz t) = getDate tz t.
Proof. now rewrite !getDate_localDay, localDay_setHours0. Qed.

Lemma getMonth_setHours0 (tz t : Z) : getMonth tz (setHours0 tz t) = getMonth tz t.
Proof. now rewrite !getMonth_localDay, localDay_setHours0. Qed.

Lemma getNextPaydayProfile_spec (tz currentDate : Z) (frequency : SalaryFrequency) :
  getNextPaydayProfile tz currentDate frequency
  = getNextPayday tz currentDate frequency.
Proof.
  destruct frequency; [reflexivity | reflexivity |].
  unfold getNextPayday, getNextPaydayProfile. cbv zeta.
  pose proof (setHours0_midnight tz currentDate) as Hmid0.
  pose proof (setHours0_le tz currentDate) as Hle0.
  pose proof (getDate_setHours0 tz currentDate) as Hd0.
  pose proof (getMonth_setHours0 tz currentDate) as Hm0.
  remember (setHours0 tz currentDate) as n0 eqn:En0.
  destruct (setDate_in_month tz n0 15) as (H1 & _ & H1m & H1d).
  { pose proof (DaysInMonth_range (getFullYear tz n0) (getMonth tz n0)). lia. }
  assert (isMidnight tz (setDate tz n0 15)) as Hmid1
    by (rewrite H1; now apply midnight_add_days).
  remember (setDate tz n0 15) as n1 eqn:En1.
  remember (if n1 <? currentDate
            then setDate tz (setMonth tz n1 (getMonth tz n1 + 1)) 15
            else n1) as a eqn:Ea.
  assert ((getDate tz a <? getDate tz currentDate)
          && (getMonth tz a =? getMonth tz currentDate) = false) as ->;
    [|reflexivity].
  destruct (Z.ltb_spec n1 currentDate) as [Hlt|Hge]; subst a.
  - destruct (next_month_fields tz n1 Hmid1) as (_ & _ & _ & H2m & H2d); [lia|].
    remember (setMonth tz n1 (getMonth tz n1 + 1)) as n2 eqn:En2.
    destruct (setDate_in_month tz n2 15) as (_ & _ & H3m & _).
    { pose proof (DaysInMonth_range (getFullYear tz n2) (getMonth tz n2)). lia. }
    rewrite H3m, H2m, H1m, Hm0.
    apply andb_false_iff. right. apply Z.eqb_neq, next_month_differs.
    apply getMonth_range.
  - apply andb_false_iff. left. apply Z.ltb_ge.
    rewrite H1d, <- Hd0. unfold msPerDay in *. lia.
Qed.

(** X5: the test of the forecast's monthly rule that the Profile page leaves out
    never holds, so that the two rules give the same payday, for every
    cursor and every frequency. *)
Theorem getNextPaydayProfile_eq (tz currentDate : Z) (frequency : SalaryFrequency) :
  getNextPaydayProfile tz currentDate frequency
  = getNextPayday tz currentDate frequency.
Proof. exact (getNextPaydayProfile_spec tz currentDate frequency). Qed.

(** * The salary lists of the Profile page and of the Dashboard *)

Section PaydayLists.

Variable tz : Z.
Variable frequency : SalaryFrequency.
Variable amount : Qc.

Local Abbreviation mk := (salaryCoreOn frequency amount).

(** The payments of the forecast's loop are those of the paydays up to the
    limit. *)
Lemma salaryLoop_paydays (clock : nat -> Z) (limit : Z) (fuel : nat)
    (st : SalaryState) :
  (loopCount st + fuel <= 100)%nat ->
  salaryCore <$> sal_payments (salaryLoop tz fuel clock frequency amount limit st)
  = (salaryCore <$> sal_payments st)
      ++ (mk <$> paydaysUpTo tz frequency fuel (tempDate st) limit).
Proof.
  revert st. induction fuel as [|fuel IH]; intros st Hc;
    cbn [salaryLoop paydaysUpTo].
  - now rewrite app_nil_r.
  - unfold salaryIteration.
    replace (loopCount st <? 100)%nat with true by (symmetry; apply Nat.ltb_lt; lia).
    rewrite andb_true_r.
    destruct (tempDate st <=? limit); [|now rewrite app_nil_r].
    destruct (getNextPayday tz (tempDate st) frequency) as [p|];
      [|now rewrite app_nil_r].
    destruct (p <=? limit); [|now rewrite app_nil_r].
    rewrite IH by (cbn [loopCount]; lia).
    cbn [sal_payments tempDate]. rewrite fmap_app, <- app_assoc, setDate_getDate.
    reflexivity.
Qed.

(** So are the payments of the loop of the Profile page. *)
Lemma profileLoop_paydays (clock : nat -> Z) (limit : Z) (fuel : nat)
    (st : ProfileLoopState) :
  (pl_loopCount st + fuel <= 100)%nat ->
  salaryCore <$> pl_payments (profileLoop tz fuel clock frequency amount limit st)
  = (salaryCore <$> pl_payments st)
      ++ (mk <$> paydaysUpTo tz frequency fuel (tempPayDate st) limit).
Proof.
  revert st. induction fuel as [|fuel IH]; intros st Hc;
    cbn [profileLoop paydaysUpTo].
  - now rewrite app_nil_r.
  - unfold profileIteration. rewrite getNextPaydayProfile_spec.
    replace (pl_loopCount st <? 100)%nat with true
      by (symmetry; apply Nat.ltb_lt; lia).
    rewrite andb_true_r.
    destruct (tempPayDate st <=? limit); [|now rewrite app_nil_r].
    destruct (getNextPayday tz (tempPayDate st) frequency) as [p|];
      [|now rewrite app_nil_r].
    destruct (p <=? limit); [|now rewrite app_nil_r].
    rewrite IH by (cbn [pl_loopCount]; lia).
    cbn [pl_payments tempPayDate]. rewrite fmap_app, <- app_assoc, setDate_getDate.
    reflexivity.
Qed.

(** The paydays are midnights on or after the cursor. *)
Lemma paydaysUpTo_after (n : nat) (cursor limit : Z) :
  isMidnight tz cursor -> 100 <= getFullYear tz cursor ->
  Forall (fun p => isMidnight tz p /\ cursor <= p) (paydaysUpTo tz frequency n cursor limit).
Proof.
  revert cursor. induction n as [|n IH]; intros cursor Hmid Hy; cbn [paydaysUpTo];
    [constructor|].
  destruct (cursor <=? limit); [|constructor].
  destruct (getNextPayday_not_before tz cursor frequency Hmid Hy)
    as (p & -> & Hp & Hle).
  destruct (p <=? limit); [|constructor].
  constructor; [split; assumption|].
  eapply Forall_impl.
  - apply IH; [now apply midnight_add_days|].
    pose proof (getFullYear_mono tz cursor (p + 1 * msPerDay)
                  ltac:(unfold msPerDay; lia)). lia.
  - cbn. intros q [Hq Hle']. split; [exact Hq|]. unfold msPerDay in *. lia.
Qed.

(** With a nearer limit the loop finds the paydays of the farther limit
    that are not after the nearer one. *)
Lemma paydaysUpTo_nearer (n : nat) (cursor limit1 limit2 : Z) :
  isMidnight tz cursor -> 100 <= getFullYear tz cursor -> limit1 <= limit2 ->
  paydaysUpTo tz frequency n cursor limit1
  = List.filter (fun p => p <=? limit1) (paydaysUpTo tz frequency n cursor limit2).
Proof.
  intros Hmid Hy Hl. revert cursor Hmid Hy.
  induction n as [|n IH]; intros cursor Hmid Hy; [reflexivity|].
  assert (forall l : list Z, Forall (fun p => limit1 < p) l ->
            List.filter (fun p => p <=? limit1) l = []) as Hnone.
  { induction 1 as [|q l Hq _ IHl]; cbn; [reflexivity|].
    replace (q <=? limit1) with false by (symmetry; apply Z.leb_gt; exact Hq).
    exact IHl. }
  pose proof (paydaysUpTo_after (S n) cursor limit2 Hmid Hy) as Hafter.
  cbn [paydaysUpTo] in *.
  destruct (getNextPayday_not_before tz cursor frequency Hmid Hy)
    as (p & Hp & Hpm & Hle).
  rewrite Hp in *.
  destruct (Z.leb_spec cursor limit1) as [H1|H1].
  - replace (cursor <=? limit2) with true in * by (symmetry; apply Z.leb_le; lia).
    destruct (Z.leb_spec p limit1) as [H2|H2].
    + replace (p <=? limit2) with true by (symmetry; apply Z.leb_le; lia).
      cbn [List.filter].
      replace (p <=? limit1) with true by (symmetry; apply Z.leb_le; lia).
      f_equal. apply IH; [now apply midnight_add_days|].
      pose proof (getFullYear_mono tz cursor (p + 1 * msPerDay)
                    ltac:(unfold msPerDay; lia)). lia.
    + symmetry. apply Hnone.
      destruct (p <=? limit2); [|constructor].
      constructor; [exact H2|].
      eapply Forall_impl.
      * apply (paydaysUpTo_after n (p + 1 * msPerDay) limit2);
          [now apply midnight_add_days|].
        pose proof (getFullYear_mono tz cursor (p + 1 * msPerDay)
                      ltac:(unfold msPerDay; lia)). lia.
      * cbn. intros q [_ Hq]. unfold msPerDay in *. lia.
  - symmetry. apply Hnone.
    eapply Forall_impl; [exact Hafter|]. cbn. intros q [_ Hq]. lia.
Qed.

End PaydayLists.

Lemma filter_salaryCore (frequency : SalaryFrequency) (amount : Qc)
    (g : Z -> bool) (l : list IncomeItem) (ds : list Z) :
  salaryCore <$> l = salaryCoreOn frequency amount <$> ds ->
  salaryCore <$> List.filter (fun i => g (dueDate i)) l
  = salaryCoreOn frequency amount <$> List.filter g ds.
Proof.
  revert ds. induction l as [|i l IH]; intros [|d ds] H; try discriminate;
    [reflexivity|].
  rewrite !fmap_cons in H.
  assert (salaryCore i = salaryCoreOn frequency amount d) as Hhead by congruence.
  assert (salaryCore <$> l = salaryCoreOn frequency amount <$> ds) as Hrest
    by congruence.
  assert (d = dueDate i) as ->
    by (unfold salaryCore, salaryCoreOn in Hhead; congruence).
  simpl List.filter.
  destruct (g (dueDate i)); [rewrite !fmap_cons, Hhead; f_equal|]; auto.
Qed.

Lemma filter_ext_Forall {A} (f g : A -> bool) (l : list A) :
  Forall (fun x => f x = g x) l -> List.filter f l = List.filter g l.
Proof.
  induction 1 as [|x l Hx _ IH]; cbn; [reflexivity|]. rewrite Hx, IH. reflexivity.
Qed.

(** A midnight is within 30 days of a time exactly when it is within 30 days
    of the midnight of that time's day. *)
Lemma within_thirty_days (tz now p : Z) :
  isMidnight tz p ->
  (p <=? thirtyDaysFromNow tz now) = (p <=? setHours0 tz now + 30 * msPerDay).
Proof.
  intros Hp. unfold thirtyDaysFromNow. rewrite setDate_getDate.
  pose proof (midnight_le_localDay tz p (now + 30 * msPerDay) Hp) as H1.
  pose proof (midnight_le_localDay tz p (setHours0 tz now + 30 * msPerDay) Hp) as H2.
  rewrite !localDay_add_days, localDay_setHours0 in *.
  destruct (Z.leb_spec p (now + 30 * msPerDay)),
    (Z.leb_spec p (setHours0 tz now + 30 * msPerDay)); try reflexivity; lia.
Qed.

(** X6: the salary payments listed on the Profile page are those that the
    Dashboard keeps of the forecast's salary events (the ones due within 30
    days): same due dates, amounts, labels and status, in the same order,
    when both pages are drawn on the same day. *)
Theorem profile_and_dashboard_salary_lists (tz : Z) (clock clock' : nat -> Z)
    (now : Z) (currentBalance : Qc) (incomes : list IncomeItem)
    (expenses : list ExpenseItem) (userProfile : option UserProfile) :
  let today := todayOf tz clock in
  100 <= getFullYear tz today ->
  setHours0 tz (clock' 1%nat) = today ->
  setHours0 tz now = today ->
  salaryCore <$> projectedSalaryPaymentsForProfile tz clock' userProfile
  = salaryCore <$> upcomingSalaryPayments tz now
      (projectedSalaryPayments
         (generateMockForecast tz clock currentBalance incomes expenses userProfile)).
Proof.
  intros today Hy Hclock Hnow.
  unfold projectedSalaryPaymentsForProfile, generateMockForecast.
  cbn [projectedSalaryPayments]. unfold projectSalary. fold today.
  destruct userProfile as [p|]; [|reflexivity].
  destruct (Qcltb 0 (salaryIncome p)); [|reflexivity].
  unfold salaryPaydays. cbn [snd]. rewrite Hclock.
  set (days := effectiveProjectionDays today incomes expenses).
  assert (30 <= days) as Hdays by apply effectiveProjectionDays_ge.
  assert (isMidnight tz today) as Hmid by apply todayOf_midnight.
  rewrite profileLoop_paydays by (cbn; lia).
  cbn [pl_payments tempPayDate fmap list_fmap app].
  unfold upcomingSalaryPayments.
  pose proof (salaryLoop_paydays tz (salaryFrequency p) (salaryPerPayPeriod p) clock
                (projectionLimitDate tz (chartEndDate tz today days)) 100
                (salaryStart today (recordedTransactions today incomes expenses))
                ltac:(cbn; lia)) as Hloop.
  cbn [salaryStart sal_payments tempDate fmap list_fmap app] in Hloop.
  rewrite (filter_salaryCore _ _ (fun d => d <=? thirtyDaysFromNow tz now) _ _ Hloop).
  f_equal.
  rewrite (filter_ext_Forall (fun d => d <=? thirtyDaysFromNow tz now)
             (fun d => d <=? today + 30 * msPerDay)).
  - rewrite setDate_getDate. apply paydaysUpTo_nearer; [assumption.. |].
    unfold projectionLimitDate, chartEndDate. rewrite !setDate_getDate.
    unfold msPerDay. lia.
  - eapply Forall_impl; [apply paydaysUpTo_after; assumption|].
    cbn. intros q [Hq _]. rewrite <- Hnow. now apply within_thirty_days.
Qed.

(** On 1 January 2024, for a fortnightly salary: the Profile page and the
    Dashboard (drawn one hour later) list the same salary payments. *)
Lemma profile_and_dashboard_witness :
  let p := Some (profileWith 30000 Fortnightly [deduction 5000] []) in
  salaryCore <$> projectedSalaryPaymentsForProfile 0 (clockAt jan1_2024) p
  = salaryCore <$> upcomingSalaryPayments 0 (jan1_2024 + 3600000)
      (projectedSalaryPayments
         (generateMockForecast 0 (clockAt jan1_2024) 0%Qc [] [] p)).
Proof.
  exact (profile_and_dashboard_salary_lists 0 (clockAt jan1_2024) (clockAt jan1_2024)
           (jan1_2024 + 3600000) 0%Qc [] []
           (Some (profileWith 30000 Fortnightly [deduction 5000] []))
           ltac:(vm_compute; discriminate) eq_refl eq_refl).
Defined.

(** * What the per-day map holds *)

Lemma sumOf_app {A} (f : A -> Qc) (l1 l2 : list A) :
  sumOf f (l1 ++ l2) = (sumOf f l1 + sumOf f l2)%Qc.
Proof.
  induction l1 as [|x l1 IH]; cbn; [now rewrite Qcplus_0_l|].
  fold (sumOf f (l1 ++ l2)) (sumOf f l1). rewrite IH. ring.
Qed.

Lemma sumOf_cons {A} (f : A -> Qc) (x : A) (l : list A) :
  sumOf f (x :: l) = (f x + sumOf f l)%Qc.
Proof. reflexivity. Qed.

(** Entering, for the elements that pass a test, an amount under a key adds
    up, under each key, the amounts of the elements that have this key. *)
Lemma foldl_addToDay {A} (p : A -> bool) (key : A -> Z) (val : A -> Qc)
    (l : list A) (m : gmap Z Qc) (k : Z) :
  getOr0 (foldl (fun m x => if p x then addToDay m (key x) (val x) else m) m l) k
  = (getOr0 m k + sumOf val (List.filter (fun x => p x && (key x =? k)) l))%Qc.
Proof.
  revert m. induction l as [|x l IH]; intros m.
  - cbn. now rewrite Qcplus_0_r.
  - cbn [foldl]. simpl List.filter. rewrite IH. destruct (p x); cbn [andb].
    + rewrite getOr0_addToDay.
      destruct (decide (key x = k)) as [->|Hne].
      * rewrite Z.eqb_refl, sumOf_cons. ring.
      * replace (key x =? k) with false by (symmetry; now apply Z.eqb_neq).
        reflexivity.
    + reflexivity.
Qed.

Lemma recordedTransactions_spec (today k : Z) (incomes : list IncomeItem)
    (expenses : list ExpenseItem) :
  getOr0 (recordedTransactions today incomes expenses) k
  = (incomeOnDay today k incomes - expenseOnDay today k expenses)%Qc.
Proof.
  unfold recordedTransactions, incomeOnDay, expenseOnDay.
  change (foldl (addExpense today)) with
    (foldl (fun m exp => if expenseIsRelevant today exp
                         then addToDay m (dateKey (date exp)) (- exp_amount exp)%Qc
                         else m)).
  rewrite (foldl_addToDay (expenseIsRelevant today) (fun e => dateKey (date e))
             (fun e => (- exp_amount e)%Qc)).
  change (foldl (addIncome today)) with
    (foldl (fun m inc => if incomeIsRelevant today inc
                         then addToDay m (dateKey (dueDate inc)) (inc_amount inc)
                         else m)).
  rewrite (foldl_addToDay (incomeIsRelevant today) (fun i => dateKey (dueDate i))
             inc_amount).
  rewrite getOr0_empty.
  assert (forall l : list ExpenseItem,
            sumOf (fun e => (- exp_amount e)%Qc) l = (- sumOf exp_amount l)%Qc) as Hneg.
  { induction l as [|e l IH]; [reflexivity|].
    rewrite !sumOf_cons, IH. ring. }
  rewrite Hneg. ring.
Qed.

(** X7: after the incomes and the expenses are entered, the map holds under each
    key the amounts of the outstanding incomes not before today that are
    due on the day of the key, less the amounts of the expenses not before
    today dated on that day. *)
Theorem recordedTransactions_lookup (today k : Z) (incomes : list IncomeItem)
    (expenses : list ExpenseItem) :
  getOr0 (recordedTransactions today incomes expenses) k
  = (incomeOnDay today k incomes - expenseOnDay today k expenses)%Qc.
Proof. exact (recordedTransactions_spec today k incomes expenses). Qed.

(** * The balances of the series *)

Lemma sumOf_seq_S (f : nat -> Qc) (n : nat) :
  sumOf f (seq 0 (S n)) = (sumOf f (seq 0 n) + f n)%Qc.
Proof.
  rewrite seq_S, sumOf_app, sumOf_cons. cbn [sumOf foldr Nat.add]. ring.
Qed.

Lemma walk_balance_sum (tz : Z) (m : gmap Z Qc) (today : Z) (currentBalance : Qc)
    (k : nat) :
  currentProjectedBalance
    (Nat.iter k (walkIteration tz m) (walkStart tz today currentBalance))
  = (currentBalance + bookedFrom m (dateKey (setHours0 tz today)) k)%Qc.
Proof.
  induction k as [|k IH].
  - cbn. unfold bookedFrom. cbn. now rewrite Qcplus_0_r.
  - rewrite Nat.iter_succ. unfold walkIteration at 1. cbn [currentProjectedBalance].
    rewrite IH, walk_date. unfold bookedFrom. rewrite sumOf_seq_S.
    unfold dayAfter. rewrite dateKey_add_days. ring.
Qed.

Lemma walk_balance_booked (tz : Z) (clock : nat -> Z)
    (currentBalance : Qc) (incomes : list IncomeItem)
    (expenses : list ExpenseItem) (userProfile : option UserProfile)
    (i : nat) (pt : ForecastPoint) :
  let r := generateMockForecast tz clock currentBalance incomes expenses
                                userProfile in
  let m := transactionsByDay tz clock incomes expenses userProfile in
  forecastData r !! S i = Some pt ->
  balance pt
  = (currentBalance + bookedFrom m (dateKey (todayOf tz clock)) (S i))%Qc.
Proof.
  intros r m Hpt. subst r. unfold generateMockForecast in Hpt.
  cbn [forecastData] in Hpt.
  change (projectLoans tz _ _ _ userProfile) with m in Hpt.
  set (today := todayOf tz clock) in *.
  set (days := effectiveProjectionDays today incomes expenses) in *.
  unfold dailyWalk in Hpt.
  assert (forall n j q,
            walk_data (Nat.iter n (walkIteration tz m) (walkStart tz today currentBalance))
              !! S j = Some q ->
            balance q
            = (currentBalance + bookedFrom m (dateKey (setHours0 tz today)) (S j))%Qc)
    as Hgen.
  { induction n as [|n IH]; intros j q Hq; [destruct j; discriminate|].
    pose proof (walk_length tz m today currentBalance n) as Hlen. cbv zeta in Hlen.
    rewrite Nat.iter_succ in Hq. unfold walkIteration at 1 in Hq.
    cbn [walk_data] in Hq.
    destruct (decide (S j < S n)%nat) as [Hlt|Hge].
    - rewrite lookup_app_l in Hq by lia. eauto.
    - assert (j = n) as ->.
      { apply lookup_lt_Some in Hq. rewrite length_app in Hq. cbn in Hq. lia. }
      rewrite lookup_app_r in Hq by lia.
      rewrite Hlen, Nat.sub_diag in Hq. cbn in Hq. injection Hq as <-.
      cbn [balance].
      rewrite walk_balance_sum, walk_date. unfold bookedFrom.
      rewrite (sumOf_seq_S _ n). unfold dayAfter. rewrite dateKey_add_days. ring. }
  rewrite (Hgen _ _ _ Hpt). unfold today. now rewrite todayOf_midnight.
Qed.

(** Entry [i + 1] of the list of the walk is the point of day [i]. *)
Lemma walk_point (tz : Z) (m : gmap Z Qc) (today : Z) (currentBalance : Qc)
    (k i : nat) :
  (i < k)%nat ->
  walk_data (Nat.iter k (walkIteration tz m) (walkStart tz today currentBalance))
    !! S i
  = Some {| pt_date := dayAfter (setHours0 tz today) i;
            balance := runningBalance m (setHours0 tz today) currentBalance i |}.
Proof.
  induction k as [|k IH]; intros Hi; [lia|].
  pose proof (walk_length tz m today currentBalance k) as Hlen. cbv zeta in Hlen.
  pose proof (walk_running_balance tz m today currentBalance k) as Hbal.
  pose proof (walk_date tz m today currentBalance k) as Hdate.
  cbv beta in Hbal, Hdate.
  rewrite Nat.iter_succ. unfold walkIteration at 1. cbv zeta. cbn [walk_data].
  destruct (decide (i < k)%nat) as [Hlt|Hge].
  - rewrite lookup_app_l by lia. now apply IH.
  - assert (i = k) as -> by lia.
    rewrite lookup_app_r by lia. rewrite Hlen, Nat.sub_diag.
    cbn [lookup list_lookup]. rewrite Hbal, Hdate. reflexivity.
Qed.

(** X8: for every day [i] of the walk, from 0 to the horizon, entry [i + 1] of
    the series is dated [i] days after today and shows the running balance
    of day [i]: the opening balance to which the amounts that the per-day
    map holds for the days 0 to [i] have been added one after the other, in
    this order. *)
Theorem series_point_is_running_balance (tz : Z) (clock : nat -> Z)
    (currentBalance : Qc) (incomes : list IncomeItem)
    (expenses : list ExpenseItem) (userProfile : option UserProfile)
    (i : nat) :
  let today := todayOf tz clock in
  let days := effectiveProjectionDays today incomes expenses in
  let r := generateMockForecast tz clock currentBalance incomes expenses
                                userProfile in
  let m := transactionsByDay tz clock incomes expenses userProfile in
  Z.of_nat i <= days ->
  forecastData r !! S i
  = Some {| pt_date := dayAfter today i;
            balance := runningBalance m today currentBalance i |}.
Proof.
  intros today days r m Hi. subst r. unfold generateMockForecast.
  cbn [forecastData]. fold today. fold days.
  change (projectLoans tz _ _ _ userProfile) with m.
  unfold dailyWalk.
  rewrite (walk_point tz m today currentBalance (Z.to_nat (days + 1)) i) by lia.
  unfold today. now rewrite todayOf_midnight.
Qed.

(** On 1 January 2024, with an income of 1000 due on 3 January 2024 and an
    opening balance of 0: entry 3 of the series is dated 3 January and
    shows the running balance of day 2. *)
Lemma series_point_witness :
  let clock := clockAt jan1_2024 in
  let incomes := [incomeDue 1000 (jan1_2024 + 2 * msPerDay)] in
  let r := generateMockForecast 0 clock 0%Qc incomes [] None in
  let m := transactionsByDay 0 clock incomes [] None in
  forecastData r !! 3%nat
  = Some {| pt_date := jan1_2024 + 2 * msPerDay;
            balance := runningBalance m jan1_2024 0%Qc 2 |}.
Proof.
  exact (series_point_is_running_balance 0 (clockAt jan1_2024) 0%Qc
           [incomeDue 1000 (jan1_2024 + 2 * msPerDay)] [] None 2
           ltac:(vm_compute; discriminate)).
Defined.

(** * Date-only records east of UTC *)

Lemma transactionsByDay_no_profile (tz : Z) (clock : nat -> Z)
    (incomes : list IncomeItem) (expenses : list ExpenseItem) :
  transactionsByDay tz clock incomes expenses None
  = recordedTransactions (todayOf tz clock) incomes expenses.
Proof. reflexivity. Qed.

(** The sum, over [n] consecutive keys from [a], of an amount held under the
    one key [c]. *)
Lemma sumOf_one_key (c a : Z) (v : Qc) (n : nat) :
  sumOf (fun j : nat => if c =? a + Z.of_nat j then v else 0%Qc) (seq 0 n)
  = if (a <=? c) && (c <? a + Z.of_nat n) then v else 0%Qc.
Proof.
  induction n as [|n IH].
  - change (sumOf _ (seq 0 0)) with 0%Qc.
    destruct (Z.leb_spec a c), (Z.ltb_spec c (a + Z.of_nat 0));
      cbn [andb]; try reflexivity; lia.
  - rewrite sumOf_seq_S, IH.
    destruct (Z.leb_spec a c), (Z.ltb_spec c (a + Z.of_nat n)),
      (Z.ltb_spec c (a + Z.of_nat (S n))), (Z.eqb_spec c (a + Z.of_nat n));
      cbn [andb]; try lia; ring.
Qed.

(** X9: in a time zone east of UTC, an outstanding income whose due date is a
    date without time (a midnight UTC) is added to the balance on the walk day
    after its local calendar day; when it lies 30 days or more ahead it
    sets the horizon to its own day, and is not added at all. *)
Theorem date_only_income_east_of_utc (tz : Z) (clock : nat -> Z)
    (currentBalance : Qc) (inc : IncomeItem) :
  0 < tz < msPerDay ->
  status inc = Outstanding ->
  TimeWithinDay (dueDate inc) = 0 ->
  todayOf tz clock <= dueDate inc ->
  let today := todayOf tz clock in
  let r := generateMockForecast tz clock currentBalance [inc] [] None in
  let j := localDay tz (dueDate inc) - localDay tz today in
  0 <= j
  /\ effectiveProjectionDays today [inc] [] = Z.max j 30
  /\ (forall (i : nat) (pt : ForecastPoint),
        forecastData r !! S i = Some pt ->
        balance pt = if j + 1 <=? Z.of_nat i
                     then (currentBalance + inc_amount inc)%Qc
                     else currentBalance)
  /\ (30 <= j -> forall pt, pt ∈ forecastData r -> balance pt = currentBalance).
Proof.
  intros Htz Hst Hutc Hge today r j.
  pose proof (midnight_eq tz today (todayOf_midnight tz clock)) as Etoday.
  fold today in Hge.
  assert (dueDate inc = Day (dueDate inc) * msPerDay) as Edue.
  { pose proof (div_mod_msPerDay (dueDate inc)) as [H _].
    unfold TimeWithinDay in Hutc. unfold Day. lia. }
  assert (localDay tz (dueDate inc) = Day (dueDate inc)) as Elocal.
  { unfold localDay, LocalTime. rewrite Edue at 1. unfold Day at 1.
    rewrite Z.add_comm, Z.div_add by discriminate.
    rewrite Z.div_small by lia. lia. }
  assert (dateKey today = localDay tz today - 1) as Ekey.
  { unfold dateKey. rewrite Etoday at 1. unfold Day.
    replace (localDay tz today * msPerDay - tz)
      with (msPerDay - tz + (localDay tz today - 1) * msPerDay) by lia.
    rewrite Z.div_add by discriminate. rewrite Z.div_small by lia. lia. }
  assert (0 <= j) as Hj by (unfold j; rewrite Elocal; unfold msPerDay in *; lia).
  assert (today < dueDate inc) as Hlt by (unfold msPerDay in *; lia).
  assert (effectiveProjectionDays today [inc] [] = Z.max j 30) as Hdays.
  { unfold effectiveProjectionDays, daysToProject, maxRelevantDate.
    cbn [foldl]. unfold scanIncome, incomeIsRelevant. rewrite Hst. cbn [isOutstanding andb].
    replace (today <=? dueDate inc) with true by (symmetry; apply Z.leb_le; lia).
    replace (today <? dueDate inc) with true by (symmetry; apply Z.ltb_lt; lia).
    f_equal. unfold j. rewrite Elocal. unfold oneDayInMillis.
    change (24 * 60 * 60 * 1000) with msPerDay.
    replace (dueDate inc - today)
      with (tz + (Day (dueDate inc) - localDay tz today) * msPerDay) by lia.
    rewrite Z.div_add by discriminate. rewrite Z.div_small by lia. lia. }
  assert (forall (i : nat) (pt : ForecastPoint),
            forecastData r !! S i = Some pt ->
            balance pt = if j + 1 <=? Z.of_nat i
                         then (currentBalance + inc_amount inc)%Qc
                         else currentBalance) as Hbal.
  { intros i pt Hpt.
    rewrite (walk_balance_booked tz clock currentBalance [inc] [] None i pt Hpt).
    rewrite transactionsByDay_no_profile. fold today. unfold bookedFrom.
    assert (forall x, getOr0 (recordedTransactions today [inc] []) x
                      = if Day (dueDate inc) =? x then inc_amount inc else 0%Qc) as Hget.
    { intros x. rewrite recordedTransactions_spec.
      unfold incomeOnDay, expenseOnDay. simpl List.filter.
      unfold incomeIsRelevant. rewrite Hst. cbn [isOutstanding andb].
      replace (today <=? dueDate inc) with true by (symmetry; apply Z.leb_le; lia).
      cbn [andb]. unfold dateKey.
      destruct (Day (dueDate inc) =? x); cbn; ring. }
    transitivity (currentBalance
                  + sumOf (fun jj : nat => if Day (dueDate inc) =? dateKey today + Z.of_nat jj
                                           then inc_amount inc else 0) (seq 0 (S i)))%Qc.
    { f_equal. induction (seq 0 (S i)) as [|a l IHl]; [reflexivity|].
      rewrite !sumOf_cons, IHl, Hget. reflexivity. }
    rewrite sumOf_one_key, Ekey.
    unfold j. rewrite Elocal.
    destruct (Z.leb_spec (localDay tz today - 1) (Day (dueDate inc))),
      (Z.ltb_spec (Day (dueDate inc)) (localDay tz today - 1 + Z.of_nat (S i))),
      (Z.leb_spec (Day (dueDate inc) - localDay tz today + 1) (Z.of_nat i));
      cbn [andb]; try lia; ring. }
  split; [exact Hj|]. split; [exact Hdays|]. split; [exact Hbal|].
  intros H30 pt Hin.
  apply list_elem_of_lookup in Hin as [[|i] Hpt].
  - unfold r, generateMockForecast in Hpt. cbn [forecastData] in Hpt.
    unfold dailyWalk in Hpt. rewrite walk_head in Hpt. injection Hpt as <-.
    reflexivity.
  - rewrite (Hbal i pt Hpt).
    apply lookup_lt_Some in Hpt.
    unfold r, generateMockForecast in Hpt. cbn [forecastData] in Hpt.
    fold today in Hpt. rewrite Hdays, dailyWalk_length in Hpt by lia.
    destruct (Z.leb_spec (j + 1) (Z.of_nat i)); [lia | reflexivity].
Qed.

(** In Manila (UTC+8), on 1 January 2024, an income of 5000 due on
    20 February 2024 (50 days ahead, entered as a date): the horizon is 50
    days, and no point of the series shows the income. *)
Lemma date_only_income_witness :
  let tz := 28800000 in
  let inc := incomeDue 5000 (jan1_2024 + 50 * msPerDay) in
  let r := generateMockForecast tz (clockAt jan1_2024) 0%Qc [inc] [] None in
  effectiveProjectionDays (todayOf tz (clockAt jan1_2024)) [inc] [] = 50
  /\ Forall (fun pt => balance pt = 0%Qc) (forecastData r).
Proof.
  destruct (date_only_income_east_of_utc 28800000 (clockAt jan1_2024) 0%Qc
              (incomeDue 5000 (jan1_2024 + 50 * msPerDay))
              ltac:(split; reflexivity) eq_refl eq_refl
              ltac:(vm_compute; discriminate))
    as (_ & Hdays & _ & Hflat).
  split; [exact Hdays|].
  apply Forall_forall. apply Hflat. vm_compute. discriminate.
Defined.

(** * Expenses by category *)

Lemma addToCategory_other (acc : gmap string CategoryTotal) (e : ExpenseItem)
    (c : string) :
  category e <> c -> addToCategory acc e !! c = acc !! c.
Proof.
  intros Hne. unfold addToCategory. cbv zeta.
  destruct (acc !! category e) as [[total|]|];
    repeat case_bool_decide; try reflexivity;
    now rewrite lookup_insert_ne.
Qed.

Lemma addToCategory_own (acc : gmap string CategoryTotal) (e : ExpenseItem) :
  category e ∉ objectPrototypeNames ->
  acc !! category e <> Some Text ->
  addToCategory acc e !! category e
  = Some (Number (match acc !! category e with
                  | Some (Number total) => total
                  | _ => 0%Qc
                  end + exp_amount e)%Qc).
Proof.
  intros Hown Hnum. unfold addToCategory. cbv zeta.
  destruct (acc !! category e) as [[total|]|]; [| congruence |].
  - apply lookup_insert_eq.
  - rewrite bool_decide_eq_false_2
      by (intros E; apply Hown; rewrite E; set_solver).
    rewrite bool_decide_eq_false_2 by exact Hown.
    apply lookup_insert_eq.
Qed.

Lemma addToCategory_inherited (acc : gmap string CategoryTotal)
    (e : ExpenseItem) (c : string) :
  c ∈ objectPrototypeNames ->
  (forall total, acc !! c <> Some (Number total)) ->
  forall total, addToCategory acc e !! c <> Some (Number total).
Proof.
  intros Hin Hacc total.
  destruct (decide (category e = c)) as [E|E];
    [|rewrite addToCategory_other by exact E; apply Hacc].
  unfold addToCategory. cbv zeta. rewrite E.
  destruct (acc !! c) as [[v|]|] eqn:Hc.
  - now destruct (Hacc v).
  - rewrite lookup_insert_eq. discriminate.
  - case_bool_decide; [rewrite Hc; discriminate|].
    rewrite bool_decide_eq_true_2 by exact Hin.
    rewrite lookup_insert_eq. discriminate.
Qed.

Lemma expenseCategories_from (c : string) (expenses : list ExpenseItem)
    (acc : gmap string CategoryTotal) :
  c ∉ objectPrototypeNames ->
  acc !! c <> Some Text ->
  foldl addToCategory acc expenses !! c
  = match List.filter (fun e => bool_decide (category e = c)) expenses with
    | [] => acc !! c
    | sel =>
        Some (Number (addedInOrder exp_amount
                        match acc !! c with
                        | Some (Number total) => total
                        | _ => 0%Qc
                        end sel))
    end.
Proof.
  intros Hown. revert acc.
  induction expenses as [|e l IH]; intros acc Hacc; [reflexivity|].
  cbn [foldl List.filter].
  destruct (decide (category e = c)) as [E|E].
  - rewrite bool_decide_eq_true_2 by exact E.
    pose proof (addToCategory_own acc e) as Hstep. rewrite E in Hstep.
    specialize (Hstep Hown Hacc).
    rewrite IH by (rewrite Hstep; discriminate).
    rewrite Hstep.
    destruct (List.filter _ l); reflexivity.
  - rewrite bool_decide_eq_false_2 by exact E.
    pose proof (addToCategory_other acc e c E) as Hstep.
    rewrite IH by (rewrite Hstep; exact Hacc).
    now rewrite Hstep.
Qed.

(** X10: for a category whose name is not one of [Object.prototype], the
    entry of the category is the number made of the amounts of the expenses
    of this category, added to 0 one after the other in the order of the
    list, and there is no entry when no expense has the category; for a name
    of [Object.prototype] the entry is never a number. *)
Theorem expenseCategories_lookup (c : string) (expenses : list ExpenseItem) :
  (c ∉ objectPrototypeNames ->
   expenseCategories expenses !! c
   = match List.filter (fun e => bool_decide (category e = c)) expenses with
     | [] => None
     | sel => Some (Number (addedInOrder exp_amount 0 sel))
     end)
  /\ (c ∈ objectPrototypeNames ->
      forall total, expenseCategories expenses !! c <> Some (Number total)).
Proof.
  unfold expenseCategories. split.
  - intros Hown. rewrite expenseCategories_from by (rewrite ?lookup_empty; done).
    now rewrite lookup_empty.
  - intros Hin.
    assert (forall (acc : gmap string CategoryTotal),
              (forall total, acc !! c <> Some (Number total)) ->
              forall total, foldl addToCategory acc expenses !! c
                            <> Some (Number total)) as Hgen.
    { induction expenses as [|e l IH]; intros acc Hacc; [exact Hacc|].
      cbn [foldl]. apply IH. now apply addToCategory_inherited. }
    apply Hgen. intros total. rewrite lookup_empty. discriminate.
Qed.

(** An expense whose category is [constructor]: the entry is a string. *)
Lemma expenseCategories_constructor (e : ExpenseItem) :
  category e = "constructor" ->
  expenseCategories [e] !! "constructor" = Some Text.
Proof.
  intros E. unfold expenseCategories. cbn [foldl]. unfold addToCategory.
  cbv zeta. rewrite E, lookup_empty.
  rewrite bool_decide_eq_false_2 by discriminate.
  rewrite bool_decide_eq_true_2 by (unfold objectPrototypeNames; set_solver).
  apply lookup_insert_eq.
Qed.

(** * The first payment of a loan *)

(** X11: a loan whose next payment date, at midnight, is day [n] of the walk:
    when the horizon reaches day [n] the amount is subtracted on that day,
    whatever the frequency, and nothing is subtracted on the days before
    it; when the horizon ends before day [n] the loop leaves the date and
    the map as they were. *)
Theorem loan_first_payment (tz : Z) (clock : nat -> Z)
    (incomes : list IncomeItem) (expenses : list ExpenseItem)
    (loan : LoanItem) (m : gmap Z Qc) (n : Z) :
  let today := todayOf tz clock in
  let days := effectiveProjectionDays today incomes expenses in
  let walkDay := iterationDate tz today in
  let key := fun i => dateKey (walkDay i) in
  let final := (loanWalk tz today days loan m).2 in
  0 <= n ->
  setHours0 tz (nextPaymentDate loan) = walkDay n ->
  (n <= days ->
   getOr0 final (key n) = (getOr0 m (key n) - loan_amount loan)%Qc
   /\ forall i, 0 <= i < n -> getOr0 final (key i) = getOr0 m (key i))
  /\ (days < n -> loanWalk tz today days loan m = (walkDay n, m)).
Proof.
  intros today days walkDay key final Hn Hdue.
  assert (30 <= days) as Hdays by apply effectiveProjectionDays_ge.
  assert (loanStateBefore tz today loan m 0 = (walkDay n, m)) as Hb0
    by (rewrite loanStateBefore_0, Hdue; reflexivity).
  assert (forall i, 0 <= i <= n ->
            loanStateBefore tz today loan m i = (walkDay n, m)) as Hbefore.
  { intros i Hi. rewrite <- Hb0.
    apply loanStateBefore_rest with (n := n); [lia | lia |].
    rewrite Hb0. reflexivity. }
  split.
  - intros Hle. split.
    + unfold final, key, walkDay.
      rewrite (loanWalk_key tz today loan m days n) by lia. cbv zeta.
      rewrite (Hbefore n) by lia. cbn [fst]. fold walkDay.
      now rewrite Z.eqb_refl.
    + intros i Hi. unfold final, key, walkDay.
      rewrite (loanWalk_key tz today loan m days i) by lia. cbv zeta.
      rewrite (Hbefore i) by lia. cbn [fst]. fold walkDay.
      destruct (Z.eqb_spec (walkDay i) (walkDay n)) as [E|_]; [|reflexivity].
      apply iterationDate_inj in E. lia.
  - intros Hgt. rewrite loanWalk_is_before. apply Hbefore. lia.
Qed.

(** A quarterly loan of 2000 due on 4 January 2024, three days after today,
    over a horizon of 30 days: 2000 is subtracted on day 3. *)
Lemma loan_first_payment_witness :
  let loan := loanDue Quarterly 2000 (jan1_2024 + 3 * msPerDay) in
  getOr0 (loanWalk 0 jan1_2024 30 loan ∅).2 19726
  = (getOr0 ∅ 19726 - Qc_of_Z 2000)%Qc.
Proof.
  destruct (loan_first_payment 0 (clockAt jan1_2024) [] []
              (loanDue Quarterly 2000 (jan1_2024 + 3 * msPerDay)) ∅ 3
              ltac:(discriminate) eq_refl) as [H _].
  destruct (H ltac:(vm_compute; discriminate)) as [H1 _].
  exact H1.
Defined.

(** * The two versions of the engine *)

(** X12: on a profile without loans, the consolidated engine returns what the
    earlier engine returns on the same profile with its deductions in one
    amount; without profile the two return the same. *)
Theorem earlier_version_agrees (tz : Z) (clock : nat -> Z) (currentBalance : Qc)
    (incomes : list IncomeItem) (expenses : list ExpenseItem) (p : UserProfile) :
  loans p = [] ->
  AppTsx.generateMockForecast tz clock currentBalance incomes expenses
                              (Some (asAppTsxProfile p))
  = generateMockForecast tz clock currentBalance incomes expenses (Some p)
  /\ AppTsx.generateMockForecast tz clock currentBalance incomes expenses None
     = generateMockForecast tz clock currentBalance incomes expenses None.
Proof.
  intros Hl. split; [|reflexivity].
  unfold AppTsx.generateMockForecast, generateMockForecast.
  set (today := todayOf tz clock).
  set (days := effectiveProjectionDays today incomes expenses).
  set (m := recordedTransactions today incomes expenses).
  assert (AppTsx.projectSalary tz clock today (chartEndDate tz today days) m
            (Some (asAppTsxProfile p))
          = projectSalary tz clock today (chartEndDate tz today days) m (Some p))
    as -> by reflexivity.
  rewrite projectLoans_foldl, Hl. reflexivity.
Qed.

Lemma earlier_version_witness :
  let p := profileWith 30000 Weekly [deduction 3000; deduction 2000] [] in
  AppTsx.generateMockForecast 0 (clockAt jan1_2024) 0%Qc [] []
                              (Some (asAppTsxProfile p))
  = generateMockForecast 0 (clockAt jan1_2024) 0%Qc [] [] (Some p).
Proof.
  exact (proj1 (earlier_version_agrees 0 (clockAt jan1_2024) 0%Qc [] []
                  (profileWith 30000 Weekly [deduction 3000; deduction 2000] [])
                  eq_refl)).
Defined.

(** * The shortfall date and the opening balance *)

Section TwoWalks.

Variable tz : Z.
Variable m : gmap Z Qc.
Variable today : Z.
Variables b b' : Qc.
Hypothesis Hb : (b <= b')%Qc.

Let walk (c : Qc) (k : nat) : WalkState :=
  Nat.iter k (walkIteration tz m) (walkStart tz today c).

(** Along two walks over the same map, the one from the smaller balance
    stays below the other, and has recorded a shortfall date, not later,
    whenever the other has. *)
Lemma two_walks (k : nat) :
  (currentProjectedBalance (walk b k) <= currentProjectedBalance (walk b' k))%Qc
  /\ (forall d', walk_shortfall (walk b' k) = Some d' ->
        exists d, walk_shortfall (walk b k) = Some d /\ d <= d')
  /\ (forall d, walk_shortfall (walk b k) = Some d ->
        d < currentIterationDate (walk b k)).
Proof.
  induction k as [|k (IHb & IHs & IHd)].
  - cbn. repeat split; [exact Hb | discriminate | discriminate].
  - pose proof (walk_date tz m today b k) as Hc.
    pose proof (walk_date tz m today b' k) as Hc'.
    destruct (walk_shortfall_find tz m today b k) as [_ Hh].
    destruct (walk_shortfall_find tz m today b' k) as [_ Hh'].
    cbv beta in Hc, Hc', Hh, Hh'. unfold walk in *. rewrite !Nat.iter_succ.
    remember (Nat.iter k (walkIteration tz m) (walkStart tz today b)) as w eqn:Ew.
    remember (Nat.iter k (walkIteration tz m) (walkStart tz today b')) as w' eqn:Ew'.
    clear Ew Ew'.
    unfold walkIteration. cbv zeta.
    cbn [currentProjectedBalance walk_shortfall currentIterationDate].
    rewrite setDate_getDate, Hc', <- Hc.
    pose proof msPerDay_pos as HD.
    set (x := getOr0 m (dateKey (currentIterationDate w))).
    assert (currentProjectedBalance w + x <= currentProjectedBalance w' + x)%Qc
      as Hle by (apply Qcplus_le_compat; [exact IHb | apply Qcle_refl]).
    split; [exact Hle|]. split.
    + intros d'.
      destruct (Qcltb (currentProjectedBalance w' + x) 0) eqn:En';
        destruct (hasShortfall w') eqn:Eh'; cbn [andb negb].
      * intros Hs. destruct (IHs d' Hs) as (d & Hd & Hdd').
        rewrite Hd in Hh. rewrite Hh, andb_false_r. eauto.
      * intros [= <-].
        assert (Qcltb (currentProjectedBalance w + x) 0 = true) as ->.
        { apply Qcltb_lt. apply Qcltb_lt in En'.
          eapply Qcle_lt_trans; eassumption. }
        destruct (walk_shortfall w) as [d|] eqn:Es; rewrite Hh; cbn [andb negb].
        -- exists d. split; [reflexivity|]. specialize (IHd d eq_refl). lia.
        -- exists (currentIterationDate w). split; [reflexivity | lia].
      * intros Hs. destruct (IHs d' Hs) as (d & Hd & Hdd').
        rewrite Hd in Hh. rewrite Hh, andb_false_r. eauto.
      * intros Hs. destruct (IHs d' Hs) as (d & Hd & Hdd').
        rewrite Hd in Hh. rewrite Hh, andb_false_r. eauto.
    + intros d.
      destruct (Qcltb (currentProjectedBalance w + x) 0 && negb (hasShortfall w)).
      * intros [= <-]. lia.
      * intros Hs. specialize (IHd d Hs). lia.
Qed.

End TwoWalks.

(** X13: with a larger opening balance and the same records, the shortfall date,
    when there is one, is not earlier: the forecast with the smaller balance
    has a shortfall date too, on the same day or before it. *)
Theorem larger_opening_balance_later_shortfall (tz : Z) (clock : nat -> Z)
    (b b' : Qc) (incomes : list IncomeItem) (expenses : list ExpenseItem)
    (userProfile : option UserProfile) :
  (b <= b')%Qc ->
  shortfallNotLater
    (generateMockForecast tz clock b incomes expenses userProfile)
    (generateMockForecast tz clock b' incomes expenses userProfile).
Proof.
  intros Hb. unfold shortfallNotLater, generateMockForecast.
  cbn [potentialShortfallDate]. unfold dailyWalk.
  set (today := todayOf tz clock).
  set (days := effectiveProjectionDays today incomes expenses).
  set (m := projectLoans tz today days _ userProfile).
  destruct (two_walks tz m today b b' Hb (Z.to_nat (days + 1))) as (_ & Hs & _).
  destruct (walk_shortfall (Nat.iter _ _ (walkStart tz today b'))) as [d'|];
    [|exact I].
  exact (Hs d' eq_refl).
Qed.

(** On 1 January 2024, with expenses of 50 on 2 January and of 500 on
    4 January: from a balance of 0 the shortfall date is 2 January, from a
    balance of 100 it is 4 January. *)
Lemma larger_opening_balance_witness :
  let expenses := [expenseDated 50 (jan1_2024 + 1 * msPerDay);
                   expenseDated 500 (jan1_2024 + 3 * msPerDay)] in
  let r := generateMockForecast 0 (clockAt jan1_2024) 0%Qc [] expenses None in
  let r' := generateMockForecast 0 (clockAt jan1_2024) (Qc_of_Z 100) []
              expenses None in
  potentialShortfallDate r = Some (jan1_2024 + 1 * msPerDay)
  /\ potentialShortfallDate r' = Some (jan1_2024 + 3 * msPerDay)
  /\ shortfallNotLater r r'.
Proof.
  split; [vm_compute; reflexivity|]. split; [vm_compute; reflexivity|].
  exact (larger_opening_balance_later_shortfall 0 (clockAt jan1_2024)
           0%Qc (Qc_of_Z 100) []
           [expenseDated 50 (jan1_2024 + 1 * msPerDay);
            expenseDated 500 (jan1_2024 + 3 * msPerDay)] None
           ltac:(vm_compute; discriminate)).
Defined.

(** * The salary events and the map *)

Lemma addedInOrder_app {A} (f : A -> Qc) (start : Qc) (l1 l2 : list A) :
  addedInOrder f start (l1 ++ l2) = addedInOrder f (addedInOrder f start l1) l2.
Proof. apply foldl_app. Qed.

Section SalaryBooked.

Variable tz : Z.
Variable clock : nat -> Z.
Variable frequency : SalaryFrequency.
Variable amount : Qc.
Variable limit : Z.
Variable m0 : gmap Z Qc.
Variable k : Z.

Local Abbreviation booked payments :=
  (addedInOrder inc_amount (getOr0 m0 k) (salaryEventsOn k payments)).

Lemma salaryLoop_booked (fuel : nat) (st : SalaryState) :
  getOr0 (sal_txs st) k = booked (sal_payments st) ->
  let st' := salaryLoop tz fuel clock frequency amount limit st in
  getOr0 (sal_txs st') k = booked (sal_payments st').
Proof.
  revert st. induction fuel as [|fuel IH]; intros st H; cbn [salaryLoop].
  - exact H.
  - destruct (salaryIteration tz clock frequency amount limit st) as [st'|] eqn:E;
      [|exact H].
    apply IH. apply salaryIteration_Some in E as (nextPay & _ & _ & _ & _ & ->).
    cbn [sal_txs sal_payments].
    rewrite getOr0_addToDay. unfold salaryEventsOn.
    rewrite List.filter_app, addedInOrder_app.
    fold (salaryEventsOn k (sal_payments st)). rewrite <- H.
    cbn [List.filter]. unfold salaryPayment at 1. cbn [dueDate].
    destruct (decide (dateKey nextPay = k)) as [E|E].
    + rewrite bool_decide_eq_true_2 by exact E. rewrite E. reflexivity.
    + rewrite bool_decide_eq_false_2 by exact E. reflexivity.
Qed.

End SalaryBooked.

(** X14: the salary events of the returned list are, in order, the paydays
    that the payday rule gives from today on, each search starting the day
    after the payday found before, up to the day after the end of the chart
    (at most 100 of them), each with the amount of a pay period, the label
    of the frequency and the status Outstanding; there is none without a
    profile with a positive salary.  After the salary loop the per-day map
    holds, under each key, what it held before the loop with the amounts of
    the events of the list that are due on the day of the key added to it
    one after the other, in the order of the list. *)
Theorem salary_events_are_booked (tz : Z) (clock : nat -> Z) (currentBalance : Qc)
    (incomes : list IncomeItem) (expenses : list ExpenseItem)
    (userProfile : option UserProfile) (k : Z) :
  let today := todayOf tz clock in
  let days := effectiveProjectionDays today incomes expenses in
  let limit := projectionLimitDate tz (chartEndDate tz today days) in
  let m0 := recordedTransactions today incomes expenses in
  let r := generateMockForecast tz clock currentBalance incomes expenses
                                userProfile in
  salaryCore <$> projectedSalaryPayments r
  = match userProfile with
    | Some p =>
        if Qcltb 0 (salaryIncome p)
        then salaryCoreOn (salaryFrequency p) (salaryPerPayPeriod p)
               <$> paydaysUpTo tz (salaryFrequency p) 100 today limit
        else []
    | None => []
    end
  /\ getOr0 (projectSalary tz clock today (chartEndDate tz today days) m0
                           userProfile).1 k
     = addedInOrder inc_amount (getOr0 m0 k)
                    (salaryEventsOn k (projectedSalaryPayments r)).
Proof.
  intros today days limit m0 r. subst r. unfold generateMockForecast.
  cbn [projectedSalaryPayments]. fold today. fold days. fold m0.
  unfold projectSalary.
  destruct userProfile as [p|]; [|split; reflexivity].
  destruct (Qcltb 0 (salaryIncome p)); [|split; reflexivity].
  unfold salaryPaydays. cbn [fst snd]. fold limit. split.
  - pose proof (salaryLoop_paydays tz (salaryFrequency p) (salaryPerPayPeriod p)
                  clock limit 100 (salaryStart today m0) ltac:(cbn; lia)) as Hloop.
    cbn [salaryStart sal_payments tempDate fmap list_fmap app] in Hloop.
    exact Hloop.
  - apply salaryLoop_booked. reflexivity.
Qed.

(** * The next payment date of a loan *)

(** [MakeDay] with a month beyond the year's twelve. *)
Lemma MakeDay_month_norm (y m dt : Z) :
  MakeDay y m dt = MakeDay (y + m / 12) (m mod 12) dt.
Proof.
  pose proof (Z.mod_pos_bound m 12 ltac:(lia)) as Hm.
  unfold MakeDay.
  rewrite (Z.div_small (m mod 12) 12), (Z.mod_small (m mod 12) 12) by lia.
  now rewrite Z.add_0_r.
Qed.

(** A day made from a date beyond the end of its month is in the month
    after it. *)
Lemma MakeDay_overflow (y m dt : Z) :
  0 <= m <= 11 ->
  MakeDay y m dt
  = MakeDay (y + (m + 1) / 12) ((m + 1) mod 12) (dt - DaysInMonth y m).
Proof.
  intros Hm. rewrite <- MakeDay_month_norm.
  rewrite MakeDay_month_succ by assumption.
  replace dt with (dt - DaysInMonth y m + DaysInMonth y m) at 1 by lia.
  rewrite (MakeDay_date_shift y m). reflexivity.
Qed.

Section AdvanceFacts.

Variable tz : Z.

(** Midnight of a local day and a time in the day. *)
Lemma localDay_of_made (D r : Z) :
  0 <= r < msPerDay ->
  let t := setHours0 tz (UTC tz (MakeDate D r)) in
  isMidnight tz t /\ localDay tz t = D.
Proof.
  intros Hr t. subst t. split.
  - unfold isMidnight. apply setHours0_idem.
  - rewrite localDay_setHours0. unfold localDay, LocalTime, UTC, MakeDate, Day.
    replace (D * msPerDay + r - tz + tz) with (r + D * msPerDay) by lia.
    rewrite Z.div_add by discriminate. rewrite Z.div_small by exact Hr. lia.
Qed.

Lemma advanceLoan_localDay (f : PaymentFrequency) (t : Z) :
  isMidnight tz (advanceLoan tz f t)
  /\ localDay tz (advanceLoan tz f t)
     = MakeDay (getFullYear tz t) (getMonth tz t + monthsOf f) (getDate tz t).
Proof.
  pose proof (div_mod_msPerDay (LocalTime tz t)) as [_ Hr].
  pose proof (MonthFromDay_range (Day (LocalTime tz t))) as Hm.
  destruct f; unfold advanceLoan, setMonth, setFullYear, monthsOf; cbv zeta.
  - apply (localDay_of_made _ _ Hr).
  - apply (localDay_of_made _ _ Hr).
  - destruct (localDay_of_made
                (MakeDay (getFullYear tz t + 1) (MonthFromDay (Day (LocalTime tz t)))
                         (DateFromDay (Day (LocalTime tz t))))
                (TimeWithinDay (LocalTime tz t)) Hr) as [H1 H2].
    split; [exact H1|]. rewrite H2.
    rewrite (MakeDay_month_norm (getFullYear tz t) (getMonth tz t + 12)).
    unfold getMonth, getDate.
    set (mm := MonthFromDay (Day (LocalTime tz t))) in *.
    replace ((mm + 12) / 12) with 1 by (Z.div_mod_to_equations; lia).
    replace ((mm + 12) mod 12) with mm by (Z.div_mod_to_equations; lia).
    reflexivity.
Qed.

End AdvanceFacts.

(** X15: the next payment date of a loan is the local midnight of the same date
    one, three or twelve months later when that month has the date, and
    otherwise of the day as many days into the month after it as the date
    exceeds the month (31 January, monthly: 2 or 3 March). *)
Theorem advanceLoan_date (tz t : Z) (f : PaymentFrequency) :
  let y := getFullYear tz t in
  let m := getMonth tz t in
  let dt := getDate tz t in
  let y' := y + (m + monthsOf f) / 12 in
  let m' := (m + monthsOf f) mod 12 in
  let last := DaysInMonth y' m' in
  let t' := advanceLoan tz f t in
  isMidnight tz t'
  /\ (dt <= last ->
      getFullYear tz t' = y' /\ getMonth tz t' = m' /\ getDate tz t' = dt)
  /\ (last < dt ->
      getFullYear tz t' = y' + (m' + 1) / 12
      /\ getMonth tz t' = (m' + 1) mod 12
      /\ getDate tz t' = dt - last).
Proof.
  intros y m dt y' m' last t'.
  destruct (advanceLoan_localDay tz f t) as [Hmid Hday].
  fold t' in Hmid, Hday. fold y m dt in Hday.
  rewrite MakeDay_month_norm in Hday. fold y' m' in Hday.
  assert (0 <= m' <= 11) as Hm'
    by (pose proof (Z.mod_pos_bound (m + monthsOf f) 12 ltac:(lia)); unfold m'; lia).
  pose proof (DateFromDay_range (localDay tz t)) as Hdt.
  pose proof (DaysInMonth_range (YearFromDay (localDay tz t))
                                (MonthFromDay (localDay tz t))) as Hdim.
  assert (1 <= dt <= 31) as Hdt' by (unfold dt; rewrite getDate_localDay; lia).
  pose proof (DaysInMonth_range y' m') as Hlast. fold last in Hlast.
  rewrite getFullYear_localDay, getMonth_localDay, getDate_localDay, Hday.
  split; [exact Hmid|]. split.
  - intros Hle. apply civil_of_MakeDay; [exact Hm' | fold last; lia].
  - intros Hgt. rewrite MakeDay_overflow by exact Hm'. fold last.
    pose proof (Z.mod_pos_bound (m' + 1) 12 ltac:(lia)) as Hm''.
    pose proof (DaysInMonth_range (y' + (m' + 1) / 12) ((m' + 1) mod 12)).
    apply civil_of_MakeDay; lia.
Qed.
